(** * model_fit: multi-curve least-squares fitting framework

    A shallow embedding of [model_fit.py]: the model registry, the
    [Parameters] container with its [validate], [_pack], [_unpack] and
    [_curve_params] methods, the residual function [_compute_error] and
    the driver [fit].

    Python objects that are mutated in place ([Parameter] instances and
    [Parameters] containers) live in an explicit store and are handled
    through references; every method is a computation in a state and
    exception monad, and a raised exception keeps the mutations made
    before it.  Dictionaries that the code iterates over are association
    lists in insertion order.  Numbers are abstract; [np.array], which
    converts the elements of a list to their common type, is an
    interface over them. *)

From Stdlib Require Import ZArith Lia.
From stdpp Require Import base option list strings gmap.

Local Open Scope string_scope.
Local Open Scope list_scope.

(** ** Exceptions *)

Inductive exn : Type :=
  | Exception (msg : string)
  | RuntimeError (msg : string)
  | TypeError (msg : string)
  | NameError (name : string)
  | KeyError (key : string)
  | AttributeError (attr : string)
  | IndexError
  | ValueError (msg : string)
  | AssertionError
  | SystemError (msg : string).

(** ** The model registry *)

Module Registry.

(** Classes as far as [issubclass(cls, Model)] can tell them apart:
    [object], [Model] itself, or a class statement with a name and
    its bases. *)
#[warnings="-register-all"]
Inductive pyclass : Type :=
  | ClsObject
  | ClsModel
  | ClsDef (name : string) (bases : list pyclass).

(** What a decorator can be applied to: a class, or something that is
    not a class at all (a function, say). *)
Inductive pyobject : Type :=
  | PyClass (c : pyclass)
  | PyFunction (name : string).

Fixpoint issubclass_Model (c : pyclass) : bool :=
  match c with
  | ClsObject => false
  | ClsModel => true
  | ClsDef _ bases => existsb issubclass_Model bases
  end.

(** [issubclass(cls, Model)]: a [TypeError] when [cls] is no class. *)
Definition issubclass (cls : pyobject) : exn + bool :=
  match cls with
  | PyClass c => inr (issubclass_Model c)
  | PyFunction _ => inl (TypeError "issubclass() arg 1 must be a class")
  end.

(** The module-level dictionary [models]. *)
Abbreviation registry := (gmap string pyobject).

(** [for n in names: models[n] = cls] *)
Fixpoint reg_loop (names : list string) (cls : pyobject)
    (models : registry) : registry :=
  match names with
  | [] => models
  | n :: rest => reg_loop rest cls (<[n := cls]> models)
  end.

(** The inner function [reg] of [register_model]. *)
Definition reg (names : list string) (cls : pyobject)
    (models : registry) : (exn + pyobject) * registry :=
  match issubclass cls with
  | inl e => (inl e, models)
  | inr false =>
      (inl (Exception "Registering model that doesn't inherit from model"),
       models)
  | inr true => (inr cls, reg_loop names cls models)
  end.

Definition register_model (names : list string) :
    pyobject -> registry -> (exn + pyobject) * registry :=
  reg names.

(** A stored value is a [Model] subclass. *)
Definition is_model (o : pyobject) : Prop :=
  issubclass o = inr true.

Definition all_models (models : registry) : Prop :=
  forall n o, models !! n = Some o -> is_model o.

(** Two user models and one class that does not inherit from [Model]. *)
Definition DiffusionModel : pyobject :=
  PyClass (ClsDef "DiffusionModel" [ClsModel]).
Definition TripletModel : pyobject :=
  PyClass (ClsDef "TripletModel" [ClsDef "DiffusionModel" [ClsModel]]).
Definition PlainClass : pyobject :=
  PyClass (ClsDef "PlainClass" [ClsObject]).

(** A registry with one model in it. *)
Definition demo_registry : gmap string pyobject :=
  {["diffusion" := DiffusionModel]}.

(** The reading under which a second registration of a name is an
    error: the call raises and leaves the registry as it was. *)
Definition duplicate_fails_fast (names : list string) (cls : pyobject)
    (models : gmap string pyobject) : Prop :=
  (exists n, n ∈ names /\ is_Some (models !! n)) ->
  exists e, register_model names cls models = (inl e, models).

End Registry.

(** ** Values, parameters and curves *)

(** Numbers are kept abstract: [num] stands for the Python values that
    are not lists (floats, and [None] for a default that was not given).
    The arithmetic of the residual is an interface over it. *)
Class NumOps (num : Type) : Type := {
  num_sub : num -> num -> num;
  num_div : num -> num -> num;
  num_pow : num -> Z -> num
}.

(** [np.array(l)] on a list of scalars: numpy finds the common type of
    the elements, [result_type], and converts each of them to it,
    [astype]; the array holds the converted elements in the order of the
    list.  Which type is found and what a conversion does to a value
    depend on the kind of numbers, so both belong to the interface. *)
Class NumPy (num : Type) : Type := {
  dtype : Type;
  result_type : list num -> dtype;
  astype : dtype -> num -> num
}.

Definition np_array {num : Type} `{NumPy num} (l : list num) : list num :=
  map (astype (result_type l)) l.

(** References are positions in the store. *)
Abbreviation loc := nat.

Section Embedding.
Variable num : Type.

(** What a [value] attribute holds: one scalar, or a per-curve list. *)
Inductive pyvalue : Type :=
  | Scalar (x : num)
  | PyList (l : list num).

(** [isinstance(v, list)] *)
Definition isinstance_list (v : pyvalue) : bool :=
  match v with
  | PyList _ => true
  | Scalar _ => false
  end.

(** [class Parameter]: the declaration a model lists in [params]
    ([Parameter] is a reserved word here, hence the prefix).
    A scope is [None] or a string. *)
Record PyParameter : Type := mkParameter {
  name : string;
  description : string;
  def_value : pyvalue;
  def_scope : option string
}.

(** The object stored in a container: [a = copy(p)] with the two
    attributes [a.scope] and [a.value] added. *)
Record Instance : Type := mkInstance {
  decl : PyParameter;
  scope : option string;
  value : pyvalue
}.

(** A curve: [c['lag']], [c['G']] and [c['var']]. *)
Record Curve : Type := mkCurve {
  lag : list num;
  G : list num;
  var : list num
}.

(** ** Dictionaries in insertion order *)

(** A dictionary that the code iterates over is a list of entries in the
    order in which the keys were first set, which is the order of
    iteration of a Python dict since version 3.7. *)

Fixpoint dict_get {V : Type} (k : string) (d : list (string * V)) : option V :=
  match d with
  | [] => None
  | (k', v) :: rest => if decide (k = k') then Some v else dict_get k rest
  end.

(** [d[k] = v]: an existing key keeps its place, a new one goes last. *)
Fixpoint dict_set {V : Type} (k : string) (v : V) (d : list (string * V))
    : list (string * V) :=
  match d with
  | [] => [(k, v)]
  | (k', v') :: rest =>
      if decide (k = k') then (k, v) :: rest else (k', v') :: dict_set k v rest
  end.

(** ** The store *)

(** [class Parameters(dict)]: the dictionary itself in [items], and the
    attributes [curves], [_fitted] and [_fixed]; the last two are absent
    until [validate] sets them. *)
Record PyParameters : Type := mkParameters {
  items : list (string * loc);
  curves : list Curve;
  _fitted : option (list string);
  _fixed : option (list string)
}.

Record store : Type := mkStore {
  objs : list Instance;
  conts : list PyParameters
}.

(** ** Computations: state and exceptions *)

Definition M (A : Type) : Type := store -> (exn + A) * store.

Definition ret {A : Type} (x : A) : M A := fun st => (inr x, st).

Definition raise {A : Type} (e : exn) : M A := fun st => (inl e, st).

Definition bind {A B : Type} (m : M A) (k : A -> M B) : M B :=
  fun st =>
    match m st with
    | (inl e, st') => (inl e, st')
    | (inr x, st') => k x st'
    end.

Definition lift {A : Type} (r : exn + A) : M A :=
  match r with
  | inl e => raise e
  | inr x => ret x
  end.

Definition new_obj (a : Instance) : M loc :=
  fun st => (inr (length (objs st)), mkStore (objs st ++ [a]) (conts st)).

Definition new_cont (P : PyParameters) : M loc :=
  fun st => (inr (length (conts st)), mkStore (objs st) (conts st ++ [P])).

Definition get_obj (r : loc) : M Instance :=
  fun st =>
    match objs st !! r with
    | Some a => (inr a, st)
    | None => (inl (SystemError "dangling reference"), st)
    end.

Definition get_cont (c : loc) : M PyParameters :=
  fun st =>
    match conts st !! c with
    | Some P => (inr P, st)
    | None => (inl (SystemError "dangling reference"), st)
    end.

Definition set_obj (r : loc) (a : Instance) : M unit :=
  fun st => (inr tt, mkStore (<[r := a]> (objs st)) (conts st)).

Definition set_cont (c : loc) (P : PyParameters) : M unit :=
  fun st => (inr tt, mkStore (objs st) (<[c := P]> (conts st))).

End Embedding.

Arguments Scalar {num} x.
Arguments PyList {num} l.
Arguments isinstance_list {num} v.
Arguments mkParameter {num}.
Arguments name {num}.
Arguments description {num}.
Arguments def_value {num}.
Arguments def_scope {num}.
Arguments mkInstance {num}.
Arguments decl {num}.
Arguments scope {num}.
Arguments value {num}.
Arguments mkCurve {num}.
Arguments lag {num}.
Arguments G {num}.
Arguments var {num}.
Arguments mkParameters {num}.
Arguments items {num}.
Arguments curves {num}.
Arguments _fitted {num}.
Arguments _fixed {num}.
Arguments mkStore {num}.
Arguments objs {num}.
Arguments conts {num}.
Arguments ret {num A} x.
Arguments raise {num A} e.
Arguments bind {num A B} m k.
Arguments lift {num A} r.
Arguments new_obj {num} a.
Arguments new_cont {num} P.
Arguments get_obj {num} r.
Arguments get_cont {num} c.
Arguments set_obj {num} r a.
Arguments set_cont {num} c P.

Declare Scope py_scope.
Delimit Scope py_scope with py.
Notation "x <- m ;; k" := (bind m (fun x => k))
  (at level 100, m at next level, right associativity) : py_scope.
Notation "m ;;; k" := (bind m (fun _ => k))
  (at level 100, right associativity) : py_scope.

(** ** The container's methods *)

Section Methods.
Context {num : Type} `{NumPy num}.
Local Open Scope py_scope.

(** [self[k]] *)
Definition getitem (c : loc) (k : string) : M num loc :=
  P <- get_cont c ;;
  match dict_get k (items P) with
  | Some r => ret r
  | None => raise (KeyError k)
  end.

(** [self[k] = r] *)
Definition setitem (c : loc) (k : string) (r : loc) : M num unit :=
  P <- get_cont c ;;
  set_cont c (mkParameters (dict_set k r (items P)) (curves P)
                (_fitted P) (_fixed P)).

(** [obj.value = v] on the object at [r] *)
Definition set_value (r : loc) (v : pyvalue num) : M num unit :=
  a <- get_obj r ;;
  set_obj r (mkInstance (decl a) (scope a) v).

(** [Parameters.__init__]: the loop over [model.params]. *)
Fixpoint init_loop (c : loc) (ps : list (PyParameter num)) : M num unit :=
  match ps with
  | [] => ret tt
  | p :: rest =>
      a <- new_obj (mkInstance p (def_scope p) (def_value p)) ;;
      (setitem c (name p) a ;;;
       init_loop c rest)
  end.

(** [Parameters(model, curves)], with [model.params] for [model].  The
    assertion on [curves] comes first; no caller sees the object when it
    fails. *)
Definition Parameters_init (params : list (PyParameter num))
    (cs : list (Curve num)) : M num loc :=
  if decide (0 < length cs) then
    c <- new_cont (mkParameters [] cs None None) ;;
    (init_loop c params ;;;
     ret c)
  else raise AssertionError.

(** [self._fitted.append(n)] and [self._fixed.append(n)] *)
Definition fitted_append (c : loc) (n : string) : M num unit :=
  P <- get_cont c ;;
  match _fitted P with
  | Some l =>
      set_cont c (mkParameters (items P) (curves P) (Some (l ++ [n])) (_fixed P))
  | None => raise (AttributeError "_fitted")
  end.

Definition fixed_append (c : loc) (n : string) : M num unit :=
  P <- get_cont c ;;
  match _fixed P with
  | Some l =>
      set_cont c (mkParameters (items P) (curves P) (_fitted P) (Some (l ++ [n])))
  | None => raise (AttributeError "_fixed")
  end.

(** [validate]: the loop over [self.values()]. *)
Fixpoint validate_loop (c : loc) (vals : list loc) : M num unit :=
  match vals with
  | [] => ret tt
  | r :: rest =>
      p <- get_obj r ;;
      if decide (scope p = Some "fitted") then
        (fitted_append c (name (decl p)) ;;;
         validate_loop c rest)
      else if decide (scope p = Some "fixed") then
        (fixed_append c (name (decl p)) ;;;
         validate_loop c rest)
      else raise (RuntimeError "Invalid scope")
  end.

Definition validate (c : loc) : M num unit :=
  P <- get_cont c ;;
  (set_cont c (mkParameters (items P) (curves P) (Some []) (Some [])) ;;;
   validate_loop c (map snd (items P))).

(** [isinstance(self[k], list)] as [_unpack] writes it: the test is on
    the parameter object, not on its [value], and a parameter object is
    never a list. *)
Definition isinstance_list_obj (a : Instance num) : bool := false.

(** [_unpack]: the loop over [self._fitted], with the running index
    [i].  A slice never raises; indexing past the end does.  (The slice
    of the first branch is kept as a list.) *)
Fixpoint unpack_loop (c : loc) (n : nat) (packed : list num)
    (ks : list string) (i : nat) : M num unit :=
  match ks with
  | [] => ret tt
  | k :: rest =>
      r <- getitem c k ;;
      a <- get_obj r ;;
      if isinstance_list_obj a then
        (set_value r (PyList (take n (drop i packed))) ;;;
         unpack_loop c n packed rest (i + n))
      else
        match packed !! i with
        | None => raise IndexError
        | Some x =>
            (set_value r (Scalar x) ;;;
             unpack_loop c n packed rest (i + 1))
        end
  end.

Definition _unpack (c : loc) (packed : list num) : M num unit :=
  P <- get_cont c ;;
  let n := length (curves P) in
  match _fitted P with
  | None => raise (AttributeError "_fitted")
  | Some ks => unpack_loop c n packed ks 0
  end.

(** [_pack]: the loop over [self._fitted], [extend] for a list value,
    [append] otherwise.  The method reads [self[k].value] once for the
    test and once more for the call; nothing is written in between, so
    one read stands for both. *)
Fixpoint pack_loop (c : loc) (ks : list string) (packed : list num)
    : M num (list num) :=
  match ks with
  | [] => ret packed
  | k :: rest =>
      r <- getitem c k ;;
      a <- get_obj r ;;
      match value a with
      | PyList l => pack_loop c rest (packed ++ l)
      | Scalar x => pack_loop c rest (packed ++ [x])
      end
  end.

(** [_pack] returns [np.array(packed)]. *)
Definition _pack (c : loc) : M num (list num) :=
  P <- get_cont c ;;
  match _fitted P with
  | None => raise (AttributeError "_fitted")
  | Some ks =>
      packed <- pack_loop c ks [] ;;
      ret (np_array packed)
  end.

(** The names bound at module level in [model_fit.py]. *)
Definition module_globals : list string :=
  ["namedtuple"; "np"; "scipy"; "leastsq"; "models"; "register_model";
   "Parameter"; "Parameters"; "Model"; "_compute_error"; "fit";
   "plot_model"].

(** Reading a name that the function does not bind. *)
Definition load_global (x : string) : exn + unit :=
  if decide (x ∈ module_globals) then inr tt else inl (NameError x).

(** [_curve_params(self, curve)]: the loop over the keys, with
    [params[k] = v[i] if isinstance(v, list) else v].  The name [i] is
    not bound in the function (its argument is [curve]), so it is read
    from the module's globals, none of which is an integer. *)
Fixpoint curve_params_loop (c : loc) (curve : nat) (ks : list string)
    (params : gmap string num) : M num (gmap string num) :=
  match ks with
  | [] => ret params
  | k :: rest =>
      r <- getitem c k ;;
      a <- get_obj r ;;
      match value a with
      | PyList _ =>
          _ <- lift (load_global "i") ;;
          raise (TypeError "list indices must be integers")
      | Scalar x => curve_params_loop c curve rest (<[k := x]> params)
      end
  end.

Definition _curve_params (c : loc) (curve : nat) : M num (gmap string num) :=
  P <- get_cont c ;;
  curve_params_loop c curve (map fst (items P)) ∅.

(** ** Deep copy *)

(** [deepcopy] of the dictionary's items into the new container [c'],
    entry by entry.  The memo sends an object already copied to its
    copy, so that two keys of one object share the copy as well. *)
Fixpoint deepcopy_items (c' : loc) (its : list (string * loc))
    (memo : list (loc * loc)) : M num unit :=
  match its with
  | [] => ret tt
  | (k, r) :: rest =>
      match list_find (fun m => fst m = r) memo with
      | Some (_, (_, r')) =>
          (setitem c' k r' ;;;
           deepcopy_items c' rest memo)
      | None =>
          a <- get_obj r ;;
          r' <- new_obj a ;;
          (setitem c' k r' ;;;
           deepcopy_items c' rest ((r, r') :: memo))
      end
  end.

Definition deepcopy (c : loc) : M num loc :=
  P <- get_cont c ;;
  c' <- new_cont (mkParameters [] (curves P) (_fitted P) (_fixed P)) ;;
  (deepcopy_items c' (items P) [] ;;;
   ret c').

End Methods.

(** ** The residual and the driver *)

Section Driver.
Context {num : Type} `{NumOps num} `{NumPy num}.
Local Open Scope py_scope.

(** A binary operation on two one-dimensional arrays, with numpy's
    broadcasting: equal lengths, or one operand of length one. *)
Definition np_broadcast (f : num -> num -> num) (a b : list num)
    : exn + list num :=
  if decide (length a = length b) then inr (zip_with f a b)
  else
    match a, b with
    | [x], _ => inr (map (f x) b)
    | _, [y] => inr (map (fun x => f x y) a)
    | _, _ => inl (ValueError "operands could not be broadcast together")
    end.

(** A model is called as [model(cparams, x)]; it may raise. *)
Definition Model : Type := gmap string num -> list num -> exn + list num.

(** [(c['G'] - G) / c['var']**2] *)
Definition weighted_residual (c : Curve num) (Gm : list num)
    : exn + list num :=
  match np_broadcast num_sub (G c) Gm with
  | inl e => inl e
  | inr d => np_broadcast num_div d (map (fun v => num_pow v 2) (var c))
  end.

(** The loop [for i,c in enumerate(curves)] of [_compute_error]. *)
Fixpoint compute_error_loop (params : loc) (model : Model)
    (cs : list (Curve num)) (i : nat) (err : list num) : M num (list num) :=
  match cs with
  | [] => ret err
  | c :: rest =>
      cparams <- _curve_params params i ;;
      Gm <- lift (model cparams (lag c)) ;;
      e <- lift (weighted_residual c Gm) ;;
      compute_error_loop params model rest (S i) (err ++ e)
  end.

(** [_compute_error]: [_unpack], the loop, and [np.array(err)] as the
    result. *)
Definition _compute_error (p : list num) (cs : list (Curve num))
    (params : loc) (model : Model) : M num (list num) :=
  (_unpack params p ;;;
   err <- compute_error_loop params model cs 0 [] ;;
   ret (np_array err)).

(** The external solver, as what it can do with the residual function
    it is given: return the final vector with a covariance matrix or
    [None] (the other three components of the full output are bound by
    [fit] and not used), evaluate the function at a vector and go on with
    the result, or raise. *)
Inductive solver : Type :=
  | Return (p : list num) (cov_x : option (list (list num)))
  | Call (x : list num) (k : list num -> solver)
  | Raise (e : exn).

(** Running a solver against the residual function [func]; an exception
    of [func] goes through the solver to the caller. *)
Fixpoint run_solver (s : solver) (func : list num -> M num (list num))
    : M num (list num * option (list (list num))) :=
  match s with
  | Return p cov_x => ret (p, cov_x)
  | Call x k => e <- func x ;; run_solver (k e) func
  | Raise e => raise e
  end.

(** [fit(curves, model, params)]; [leastsq] is [scipy.optimize.leastsq]
    as a function of the initial vector. *)
Definition fit (leastsq : list num -> solver) (cs : list (Curve num))
    (model : Model) (params : loc) : M num loc :=
  params <- deepcopy params ;;
  (validate params ;;;
   p0 <- _pack params ;;
   res <- run_solver (leastsq p0)
            (fun x => _compute_error x cs params model) ;;
   let '(p, cov_x) := res in
   match cov_x with
   | None => raise (RuntimeError "Fit failed to converge (flat axis)")
   | Some _ => (_unpack params p ;;; ret params)
   end).

End Driver.

Arguments Model num : clear implicits.
Arguments solver num : clear implicits.

(** ** Vocabulary of the statements *)

Section Vocabulary.
Context {num : Type} `{NumPy num}.

(** The numbers a value contributes to the packed vector. *)
Definition flatten (v : pyvalue num) : list num :=
  match v with
  | Scalar x => [x]
  | PyList l => l
  end.

(** The container at [c] is a dictionary of parameter objects filed
    under their own names, as [Parameters.__init__] builds it. *)
Definition wf (st : store num) (c : loc) : Prop :=
  exists P, conts st !! c = Some P /\
    NoDup (map fst (items P)) /\
    forall k r, (k, r) ∈ items P ->
      exists a, objs st !! r = Some a /\ name (decl a) = k.

(** The parameter objects of a container, in the order of its keys. *)
Definition instances (st : store num) (P : PyParameters num)
    : list (Instance num) :=
  omap (fun r => objs st !! r) (map snd (items P)).

Definition has_scope (s : string) (a : Instance num) : Prop :=
  scope a = Some s.

#[global] Instance has_scope_dec s a : Decision (has_scope s a).
Proof. unfold has_scope. apply _. Defined.

(** The fitted parameter objects, in declaration order. *)
Definition fitted (st : store num) (P : PyParameters num)
    : list (Instance num) :=
  filter (has_scope "fitted") (instances st P).

Definition fixed (st : store num) (P : PyParameters num)
    : list (Instance num) :=
  filter (has_scope "fixed") (instances st P).

(** The name a parameter object carries. *)
Definition iname (a : Instance num) : string := name (decl a).

(** The container as [validate] leaves it. *)
Definition validated_cont (st : store num) (P : PyParameters num)
    : PyParameters num :=
  mkParameters (items P) (curves P)
    (Some (map iname (fitted st P))) (Some (map iname (fixed st P))).

(** [validate] has been called on the container at [c], and no scope
    has been changed since. *)
Definition validated (st : store num) (c : loc) : Prop :=
  exists P, conts st !! c = Some P /\
    _fitted P = Some (map iname (fitted st P)) /\
    _fixed P = Some (map iname (fixed st P)).

(** The list [_pack] builds from a list of parameter objects, before
    [np.array]. *)
Definition packed_of (l : list (Instance num)) : list num :=
  concat (map (fun a => flatten (value a)) l).

Definition is_per_curve (a : Instance num) : Prop :=
  isinstance_list (value a) = true.

#[global] Instance is_per_curve_dec a : Decision (is_per_curve a).
Proof. unfold is_per_curve. apply _. Defined.

(** Every list value has one entry per curve. *)
Definition shape_ok (st : store num) (P : PyParameters num) : Prop :=
  forall a l, a ∈ instances st P -> value a = PyList l ->
    length l = length (curves P).

(** The object at [r] is the one a key in [_fitted] of [c] leads to. *)
Definition touched (c : loc) (st : store num) (r : loc) : Prop :=
  exists P fl k, conts st !! c = Some P /\ _fitted P = Some fl /\
    k ∈ fl /\ dict_get k (items P) = Some r.

(** Two stores that differ at most in the [value] of the objects
    selected by [T]. *)
Definition frame_on (T : loc -> Prop) (st st' : store num) : Prop :=
  conts st' = conts st /\
  forall r,
    (~ T r -> objs st' !! r = objs st !! r) /\
    (forall a, objs st !! r = Some a ->
       exists a', objs st' !! r = Some a' /\
         decl a' = decl a /\ scope a' = scope a).

(** What [_unpack] on [c] may change: the [value] of the touched
    objects, and nothing else. *)
Definition unpack_frame (c : loc) (st st' : store num) : Prop :=
  frame_on (touched c st) st st'.

(** The objects the keys [ks] of a dictionary lead to. *)
Definition reached (ks : list string) (P : PyParameters num) (r : loc)
    : Prop :=
  exists k, k ∈ ks /\ dict_get k (items P) = Some r.

(** The store [st'] extends [st]: what was there is still there,
    unchanged. *)
Definition extends (st st' : store num) : Prop :=
  (forall r a, objs st !! r = Some a -> objs st' !! r = Some a) /\
  (forall c P, conts st !! c = Some P -> conts st' !! c = Some P).

(** The copy of one dictionary entry by [deepcopy]: the same key, and a
    new reference to an object equal to the one in the original list of
    objects [O]. *)
Definition copy_of (O : list (Instance num)) (st : store num)
    (kr kr' : string * loc) : Prop :=
  fst kr' = fst kr /\ objs st !! snd kr' = O !! snd kr /\
  length O <= snd kr'.

(** The container at [c'] did not exist in [st0], and in [st], which
    extends [st0], its entries all lead to objects that did not exist in
    [st0] either. *)
Definition owned (st0 : store num) (c' : loc) (st : store num) : Prop :=
  extends st0 st /\
  conts st0 !! c' = None /\
  exists P', conts st !! c' = Some P' /\
    Forall (fun kr => length (objs st0) <= snd kr) (items P').

(** Two stores that differ at most in the attributes [_fitted] and
    [_fixed] of the container at [c]. *)
Definition cont_frame (c : loc) (st st' : store num) : Prop :=
  objs st' = objs st /\
  (forall c0, c0 <> c -> conts st' !! c0 = conts st !! c0) /\
  (forall P, conts st !! c = Some P ->
     exists P', conts st' !! c = Some P' /\ items P' = items P).

(** The parameter object the constructor makes of a declaration. *)
Definition instance_of (p : PyParameter num) : Instance num :=
  mkInstance p (def_scope p) (def_value p).

(** The scalar filed under key [k], if there is one. *)
Definition scalar_at (st : store num) (P : PyParameters num) (k : string)
    : option num :=
  match dict_get k (items P) with
  | Some r =>
      match objs st !! r with
      | Some a =>
          match value a with
          | Scalar x => Some x
          | PyList _ => None
          end
      | None => None
      end
  | None => None
  end.

(** Two parameter objects that differ at most in their [value]. *)
Definition same_param (a a' : Instance num) : Prop :=
  decl a' = decl a /\ scope a' = scope a.

(** The reading of [_unpack] under which the vector must be consumed
    exactly: a vector whose length is not the one [_pack] produces makes
    [_unpack] raise. *)
Definition unpack_consumes_exactly (st : store num) (c : loc)
    (v : list num) : Prop :=
  forall p0, fst (_pack c st) = inr p0 -> length v <> length p0 ->
    exists e, fst (_unpack c v st) = inl e.

End Vocabulary.

Section Readings.
Context {num : Type} `{NumOps num} `{NumPy num}.

(** The reading of [fit] under which it raises exactly when the solver
    reports no covariance on some run against the residual function. *)
Definition fit_raises_iff_no_cov (leastsq : list num -> solver num)
    (cs : list (Curve num)) (model : Model num) (c : loc)
    (st : store num) : Prop :=
  (exists e, fst (fit leastsq cs model c st) = inl e) <->
  (exists p0 c' st2 p,
     fst (run_solver (leastsq p0)
            (fun x => _compute_error x cs c' model) st2) = inr (p, None)).

(** The residual of one curve as the text has it: element by element,
    the observed value minus the model's, over the variance squared. *)
Definition curve_residual (c : Curve num) (Gm : list num) : list num :=
  zip_with (fun d v => num_div d (num_pow v 2))
    (zip_with num_sub (G c) Gm) (var c).

End Readings.

(** ** The rest of the module *)

Section MoreDefinitions.
Context {num : Type}.

(** [Model.param(cls, name)]: the loop over [cls.params] returns the
    first declaration of that name; falling off its end, the method
    returns [None]. *)
Fixpoint Model_param (params : list (PyParameter num)) (n : string)
    : option (PyParameter num) :=
  match params with
  | [] => None
  | p :: rest => if decide (name p = n) then Some p else Model_param rest n
  end.

(** The parameter object that [self[k]] leads to in the container at
    [c], if the key is there. *)
Definition instance_at (st : store num) (c : loc) (k : string)
    : option (Instance num) :=
  match conts st !! c with
  | Some P =>
      match dict_get k (items P) with
      | Some r => objs st !! r
      | None => None
      end
  | None => None
  end.

(** A scope that [validate] accepts. *)
Definition valid_scope (a : Instance num) : Prop :=
  scope a = Some "fitted" \/ scope a = Some "fixed".

#[global] Instance valid_scope_dec a : Decision (valid_scope a).
Proof. unfold valid_scope. apply _. Defined.

(** The objects that the names of the fitted parameters lead to. *)
Definition fitted_refs (st : store num) (P : PyParameters num) : list loc :=
  omap (fun a => dict_get (iname a) (items P)) (fitted st P).

(** The parameter object [a] after [a.value = x]. *)
Definition with_scalar (a : Instance num) (x : num) : Instance num :=
  mkInstance (decl a) (scope a) (Scalar x).

End MoreDefinitions.

(** ** Concrete inputs *)

Module Examples.

(** Integers as numbers, for running the code on examples. *)
#[global] Instance NumOps_Z : NumOps Z := {
  num_sub := Z.sub;
  num_div := Z.div;
  num_pow := Z.pow
}.

(** [np.array] on Python integers.  An integer is taken as [int64] if
    it fits, else as [uint64] if it fits, else as a Python object; the
    common type of [int64] and [uint64] is [float64], that of an object
    and anything is [object], and an empty list gives a [float64] array.
    Only the conversion to [float64] can change a value. *)
Inductive Zdtype : Type := Int64 | UInt64 | Float64 | Object.

Definition discover (z : Z) : Zdtype :=
  if decide (- 2 ^ 63 <= z < 2 ^ 63)%Z then Int64
  else if decide (0 <= z < 2 ^ 64)%Z then UInt64
  else Object.

Definition promote (a b : Zdtype) : Zdtype :=
  match a, b with
  | Object, _ | _, Object => Object
  | Int64, Int64 => Int64
  | UInt64, UInt64 => UInt64
  | _, _ => Float64
  end.

Definition Z_result_type (l : list Z) : Zdtype :=
  match l with
  | [] => Float64
  | z :: rest => foldl (fun d x => promote d (discover x)) (discover z) rest
  end.

(** An integer as a [float64]: itself when it has at most 53 bits, else
    the nearest multiple of the power of two that leaves 53 bits, the
    even one of two that are equally near.  The integers that reach it
    are below [2^64], far from overflow. *)
Definition Z_to_float64 (z : Z) : Z :=
  let a := Z.abs z in
  let e := (Z.log2 a - 52)%Z in
  if decide (e <= 0)%Z then z
  else
    let q := Z.shiftr a e in
    let r := Z.land a (Z.ones e) in
    let half := Z.shiftl 1 (e - 1) in
    let q' :=
      if decide (half < r \/ (r = half /\ Z.odd q = true))%Z
      then (q + 1)%Z else q in
    (Z.sgn z * Z.shiftl q' e)%Z.

Definition Z_astype (d : Zdtype) (z : Z) : Z :=
  match d with
  | Float64 => Z_to_float64 z
  | _ => z
  end.

#[global] Instance NumPy_Z : NumPy Z := {
  dtype := Zdtype;
  result_type := Z_result_type;
  astype := Z_astype
}.

Definition two_curves : list (Curve Z) :=
  [mkCurve [1; 2]%Z [3; 5]%Z [1; 1]%Z; mkCurve [1; 2]%Z [4; 6]%Z [1; 1]%Z].

(** [params = [Parameter('c', ..., [1, 2], 'fitted'),
               Parameter('k', ..., 5, 'fitted'),
               Parameter('b', ..., 0, 'fixed')]] over two curves:
    [c] is per-curve, [k] and [b] are scalars. *)
Definition shared_params : list (PyParameter Z) :=
  [mkParameter "c" "offset" (PyList [1; 2]%Z) (Some "fitted");
   mkParameter "k" "rate" (Scalar 5%Z) (Some "fitted");
   mkParameter "b" "background" (Scalar 0%Z) (Some "fixed")].

Definition empty_store : store Z := mkStore [] [].

(** The store after [Parameters(model, two_curves)]; the container is
    at location 0. *)
Definition shared_store : store Z :=
  snd (Parameters_init shared_params two_curves empty_store).

(** The same after [validate()]. *)
Definition shared_validated : store Z :=
  snd (validate 0 shared_store).

(** The linear model [a*x + b] on one noise-free curve, [a] fitted and
    [b] fixed at 0. *)
Definition line_curves : list (Curve Z) :=
  [mkCurve [1; 2; 3; 4]%Z [2; 4; 6; 8]%Z [1; 1; 1; 1]%Z].

Definition line_params : list (PyParameter Z) :=
  [mkParameter "a" "slope" (Scalar 1%Z) (Some "fitted");
   mkParameter "b" "intercept" (Scalar 0%Z) (Some "fixed")].

Definition line_model : Model Z :=
  fun cparams x =>
    match cparams !! "a", cparams !! "b" with
    | Some a, Some b => inr (map (fun t => (a * t + b)%Z) x)
    | None, _ => inl (KeyError "a")
    | _, None => inl (KeyError "b")
    end.

Definition line_store : store Z :=
  snd (Parameters_init line_params line_curves empty_store).

Definition line_validated : store Z :=
  snd (validate 0 line_store).

(** A solver that evaluates the residual once at the initial vector and
    returns the vector [[2]] with a covariance. *)
Definition one_step_solver (p0 : list Z) : solver Z :=
  Call p0 (fun _ => Return [2%Z] (Some [[1%Z]])).

(** A solver that returns at once, always with a covariance. *)
Definition sure_solver (p0 : list Z) : solver Z :=
  Return p0 (Some []).

(** A solver that reports a flat objective: no covariance. *)
Definition flat_solver (p0 : list Z) : solver Z :=
  Call p0 (fun _ => Return p0 None).

(** A solver that raises at once, and one that returns an empty final
    vector with a covariance. *)
Definition raising_solver (p0 : list Z) : solver Z :=
  Raise (TypeError "Improper input").

Definition short_solver (p0 : list Z) : solver Z :=
  Return [] (Some []).

(** A model that reads a parameter no declaration provides. *)
Definition broken_model : Model Z :=
  fun cparams x =>
    match cparams !! "tau" with
    | Some tau => inr (map (fun t => (tau * t)%Z) x)
    | None => inl (KeyError "tau")
    end.

(** A parameter declared without a scope: [Parameter('a', 'slope', 1)]. *)
Definition unscoped_params : list (PyParameter Z) :=
  [mkParameter "a" "slope" (Scalar 1%Z) None].

Definition unscoped_store : store Z :=
  snd (Parameters_init unscoped_params line_curves empty_store).

(** The stages of [fit] on the linear model: the deep copy (the new
    container is at location 1), the validated copy, and the store the
    solver leaves. *)
Definition line_copied : store Z := snd (deepcopy 0 line_store).

Definition line_working : store Z := snd (validate 1 line_copied).

Definition line_residual (x : list Z) : M Z (list Z) :=
  _compute_error x line_curves 1 line_model.

Definition line_solved : store Z :=
  snd (run_solver (one_step_solver [1%Z]) line_residual line_working).

Definition line_flat : store Z :=
  snd (run_solver (flat_solver [1%Z]) line_residual line_working).

End Examples.

(** ** [shrager.py]: the masked maximum *)

Module Shrager.

(** [arr[pred]] with a boolean array [pred] of the length of [arr]: the
    elements at the positions where [pred] holds, in order. *)
Fixpoint np_mask {B : Type} (arr : list B) (pred : list bool) : list B :=
  match arr, pred with
  | x :: arr', b :: pred' =>
      if b then x :: np_mask arr' pred' else np_mask arr' pred'
  | _, _ => []
  end.

(** [np.argwhere(pred)]: the positions where [pred] holds, in order
    (each a row of one index). *)
Fixpoint argwhere_from (i : nat) (pred : list bool) : list nat :=
  match pred with
  | [] => []
  | b :: pred' =>
      if b then i :: argwhere_from (S i) pred' else argwhere_from (S i) pred'
  end.

Definition np_argwhere (pred : list bool) : list nat := argwhere_from 0 pred.

Section Argmax.
Context {A : Type} (gt : A -> A -> Prop) `{!RelDecision gt}.

(** [np.argmax] on a one-dimensional array without NaN: the running
    maximum [mp] at index [max_ind] is replaced by an element only when
    that element is greater, so the first of several largest elements
    wins. *)
Fixpoint argmax_loop (mp : A) (max_ind i : nat) (ip : list A) : nat :=
  match ip with
  | [] => max_ind
  | x :: rest =>
      if decide (gt x mp) then argmax_loop x i (S i) rest
      else argmax_loop mp max_ind (S i) rest
  end.

Definition np_argmax (ip : list A) : exn + nat :=
  match ip with
  | [] => inl (ValueError "attempt to get argmax of an empty sequence")
  | x :: rest => inr (argmax_loop x 0 1 rest)
  end.

(** [argmax_of(arr, pred)]: [idx = np.argmax(arr[pred])], then
    [np.argwhere(pred)[idx]], an array of one index.  A mask of another
    length than [arr] is an [IndexError]. *)
Definition argmax_of (arr : list A) (pred : list bool) : exn + list nat :=
  if decide (length arr = length pred) then
    match np_argmax (np_mask arr pred) with
    | inl e => inl e
    | inr idx =>
        match np_argwhere pred !! idx with
        | Some j => inr [j]
        | None => inl IndexError
        end
    end
  else inl IndexError.

End Argmax.

End Shrager.

(** ** More concrete inputs *)

Module MoreExamples.
Import Examples.

(** The validated containers of [Examples] as records. *)
Definition shared_cont : PyParameters Z :=
  mkParameters [("c", 0); ("k", 1); ("b", 2)] two_curves
    (Some ["c"; "k"]) (Some ["b"]).

Definition shared_fresh_cont : PyParameters Z :=
  mkParameters [("c", 0); ("k", 1); ("b", 2)] two_curves None None.

Definition line_cont : PyParameters Z :=
  mkParameters [("a", 0); ("b", 1)] line_curves (Some ["a"]) (Some ["b"]).

Definition line_fresh_cont : PyParameters Z :=
  mkParameters [("a", 0); ("b", 1)] line_curves None None.

Definition unscoped_cont : PyParameters Z :=
  mkParameters [("a", 0)] line_curves None None.

(** The parameter object of the declaration without a scope. *)
Definition unscoped_instance : Instance Z :=
  mkInstance (mkParameter "a" "slope" (Scalar 1%Z) None) None (Scalar 1%Z).

(** Two declarations of one name, with different defaults. *)
Definition twice_params : list (PyParameter Z) :=
  [mkParameter "a" "first" (Scalar 1%Z) (Some "fitted");
   mkParameter "a" "second" (Scalar 2%Z) (Some "fixed")].

(** Two fitted integers without a common integer type:
    [Parameter('u', 'large', 2**63 + 1, 'fitted')] and
    [Parameter('v', 'negative', -1, 'fitted')]. *)
Definition wide_params : list (PyParameter Z) :=
  [mkParameter "u" "large" (Scalar (2 ^ 63 + 1)%Z) (Some "fitted");
   mkParameter "v" "negative" (Scalar (-1)%Z) (Some "fitted")].

Definition wide_store : store Z :=
  snd (Parameters_init wide_params line_curves empty_store).

Definition wide_validated : store Z :=
  snd (validate 0 wide_store).

Definition wide_cont : PyParameters Z :=
  mkParameters [("u", 0); ("v", 1)] line_curves (Some ["u"; "v"]) (Some []).

(** Integers under [>], for [argmax_of]. *)
Definition Zgt (x y : Z) : Prop := (y < x)%Z.

#[global] Instance Zgt_dec : RelDecision Zgt.
Proof. intros x y. unfold Zgt. apply _. Defined.

End MoreExamples.

(** ** Facts about the registry *)

Section RegistryFacts.
Import Registry.

Lemma reg_loop_lookup names cls (models : gmap string pyobject) n :
  reg_loop names cls models !! n
  = if decide (n ∈ names) then Some cls else models !! n.
Proof.
  revert models. induction names as [|m rest IH]; intros models; cbn [reg_loop].
  - rewrite decide_False; [done | apply not_elem_of_nil].
  - rewrite IH. destruct (decide (n ∈ rest)) as [Hin|Hnin].
    + rewrite decide_True; [done | by right].
    + destruct (decide (m = n)) as [->|Hne].
      * rewrite lookup_insert_eq. rewrite decide_True; [done | by left].
      * rewrite lookup_insert_ne by done.
        rewrite decide_False; [done |].
        intros Hc. apply elem_of_cons in Hc as [Hc|Hc]; congruence.
Qed.

Lemma demo_registry_all_models : all_models demo_registry.
Proof.
  intros n o Hl. unfold demo_registry in Hl.
  apply lookup_singleton_Some in Hl as [_ <-]. reflexivity.
Qed.

(** C9, as stated, fails: registering [TripletModel] under the name
    ["diffusion"], which is taken, raises nothing and replaces the
    earlier class. *)
Lemma register_duplicate_overwrites :
  ~ duplicate_fails_fast ["diffusion"] TripletModel demo_registry /\
  register_model ["diffusion"] TripletModel demo_registry
  = (inr TripletModel, {["diffusion" := TripletModel]}).
Proof.
  split; [|reflexivity].
  intros Hclaim. destruct Hclaim as [e He].
  - exists "diffusion". split; [by left|]. by eexists.
  - vm_compute in He. discriminate He.
Qed.

(** C9, amended: registering a [Model] subclass raises nothing, whether
    or not a name is taken; the class is returned, every given name maps
    to it afterwards (an earlier registration under that name is
    replaced) and the other names keep their class. *)
Theorem register_model_overwrites names cls (models : gmap string pyobject) :
  is_model cls ->
  exists models',
    register_model names cls models = (inr cls, models') /\
    forall n, models' !! n = if decide (n ∈ names) then Some cls else models !! n.
Proof.
  intros Hm. unfold register_model, reg. rewrite Hm.
  eexists. split; [done|]. intros n. apply reg_loop_lookup.
Qed.

Lemma register_model_overwrites_witness :
  is_model TripletModel /\
  exists models',
    register_model ["diffusion"] TripletModel demo_registry
    = (inr TripletModel, models') /\
    forall n, models' !! n
              = if decide (n ∈ ["diffusion"]) then Some TripletModel
                else demo_registry !! n.
Proof.
  split; [reflexivity|].
  apply (register_model_overwrites ["diffusion"] TripletModel demo_registry).
  reflexivity.
Defined.

(** C10: a decorated object that is not a subclass of [Model] makes the
    decorator raise with the registry untouched; so a registry that
    holds [Model] subclasses only still does after any call. *)
Theorem register_model_only_models names cls (models : gmap string pyobject) :
  all_models models ->
  all_models (snd (register_model names cls models)) /\
  (issubclass cls <> inr true ->
   exists e, register_model names cls models = (inl e, models)).
Proof.
  intros Hall. unfold register_model, reg.
  destruct (issubclass cls) as [e|[|]] eqn:Hsub; simpl.
  - split; [done|]. intros _. by exists e.
  - split; [|done]. intros n o. rewrite reg_loop_lookup.
    case_decide; [|by apply Hall]. intros [= <-]. exact Hsub.
  - split; [done|]. intros _. by eexists.
Qed.

Lemma register_model_only_models_witness :
  all_models demo_registry /\
  all_models (snd (register_model ["plain"] PlainClass demo_registry)) /\
  exists e, register_model ["plain"] PlainClass demo_registry
            = (inl e, demo_registry).
Proof.
  pose proof (register_model_only_models ["plain"] PlainClass demo_registry
                demo_registry_all_models) as [H1 H2].
  split; [exact demo_registry_all_models|]. split; [exact H1|].
  apply H2. discriminate.
Defined.

End RegistryFacts.

(** ** The monad and the primitive operations *)

Section Primitives.
Context {num : Type} `{NumPy num}.
Implicit Types (st : store num) (c r : loc).

Lemma bind_inv {A B} (m : M num A) (k : A -> M num B) st res st' :
  bind m k st = (res, st') ->
  (exists e, m st = (inl e, st') /\ res = inl e) \/
  (exists x st1, m st = (inr x, st1) /\ k x st1 = (res, st')).
Proof.
  unfold bind. destruct (m st) as [[e|x] st1]; intros Heq.
  - left. exists e. by inversion Heq.
  - right. by exists x, st1.
Qed.

Lemma bind_ok {A B} (m : M num A) (k : A -> M num B) st x st1 :
  m st = (inr x, st1) -> bind m k st = k x st1.
Proof. unfold bind. by intros ->. Qed.

Lemma bind_err {A B} (m : M num A) (k : A -> M num B) st e st1 :
  m st = (inl e, st1) -> bind m k st = (inl e, st1).
Proof. unfold bind. by intros ->. Qed.

Lemma get_cont_ok st c P :
  conts st !! c = Some P -> get_cont c st = (inr P, st).
Proof. unfold get_cont. by intros ->. Qed.

Lemma get_cont_inv st c res st' :
  get_cont c st = (res, st') ->
  st' = st /\ forall P, res = inr P -> conts st !! c = Some P.
Proof.
  unfold get_cont. destruct (conts st !! c); intros [= <- <-];
    split; congruence.
Qed.

Lemma get_obj_ok st r a :
  objs st !! r = Some a -> get_obj r st = (inr a, st).
Proof. unfold get_obj. by intros ->. Qed.

Lemma get_obj_inv st r res st' :
  get_obj r st = (res, st') ->
  st' = st /\ forall a, res = inr a -> objs st !! r = Some a.
Proof.
  unfold get_obj. destruct (objs st !! r); intros [= <- <-];
    split; congruence.
Qed.

Lemma getitem_ok st c P k r :
  conts st !! c = Some P -> dict_get k (items P) = Some r ->
  getitem c k st = (inr r, st).
Proof.
  intros HP Hk. unfold getitem. rewrite (bind_ok _ _ _ _ _ (get_cont_ok _ _ _ HP)).
  by rewrite Hk.
Qed.

Lemma getitem_inv st c k res st' :
  getitem c k st = (res, st') ->
  st' = st /\
  forall r, res = inr r ->
    exists P, conts st !! c = Some P /\ dict_get k (items P) = Some r.
Proof.
  unfold getitem. intros Hb.
  apply bind_inv in Hb as [(e & Hg & ->)|(P & st1 & Hg & Hk)];
    apply get_cont_inv in Hg as [-> HP].
  - split; [done | congruence].
  - specialize (HP P eq_refl). destruct (dict_get k (items P)) as [r0|] eqn:Hd;
      inversion Hk; subst; split; try done.
    intros r [= <-]. by exists P.
Qed.

Lemma set_value_ok st r a v :
  objs st !! r = Some a ->
  set_value r v st
  = (inr tt, mkStore (<[r := mkInstance (decl a) (scope a) v]> (objs st))
               (conts st)).
Proof.
  intros Ha. unfold set_value.
  by rewrite (bind_ok _ _ _ _ _ (get_obj_ok _ _ _ Ha)).
Qed.

End Primitives.

(** ** What [_unpack] changes *)

Section UnpackFrame.
Context {num : Type} `{NumPy num}.
Implicit Types (st : store num) (c r : loc) (T : loc -> Prop).

Lemma frame_on_refl T st : frame_on T st st.
Proof. split; [done|]. intros r; split; [done|]. intros a Ha. by exists a. Qed.

Lemma frame_on_trans T st1 st2 st3 :
  frame_on T st1 st2 -> frame_on T st2 st3 -> frame_on T st1 st3.
Proof.
  intros [Hc12 H12] [Hc23 H23]. split; [congruence|].
  intros r. destruct (H12 r) as [Hn12 Hs12], (H23 r) as [Hn23 Hs23]. split.
  - intros Hnt. by rewrite Hn23, Hn12.
  - intros a Ha. destruct (Hs12 a Ha) as (a2 & Ha2 & Hd2 & Hsc2).
    destruct (Hs23 a2 Ha2) as (a3 & Ha3 & Hd3 & Hsc3).
    exists a3. repeat split; congruence.
Qed.

Lemma frame_on_mono T T' st st' :
  (forall r, T r -> T' r) -> frame_on T st st' -> frame_on T' st st'.
Proof.
  intros HT [Hc Hf]. split; [done|]. intros r. destruct (Hf r) as [Hn Hs].
  split; [|done]. intros Hnt. apply Hn. intros Ht. by apply Hnt, HT.
Qed.

Lemma frame_on_set T st r a v :
  T r -> objs st !! r = Some a ->
  frame_on T st
    (mkStore (<[r := mkInstance (decl a) (scope a) v]> (objs st)) (conts st)).
Proof.
  intros Ht Ha. split; [done|]. intros r0; simpl. split.
  - intros Hnt. apply list_lookup_insert_ne. intros ->. by apply Hnt.
  - intros a0 Ha0. destruct (decide (r = r0)) as [->|Hne].
    + rewrite list_lookup_insert_eq by (by eapply lookup_lt_Some).
      eexists; split; [done|]. simpl. split; congruence.
    + rewrite list_lookup_insert_ne by done. by exists a0.
Qed.

Lemma touched_conts c st st' r :
  conts st' = conts st -> touched c st' r <-> touched c st r.
Proof. intros Hc. unfold touched. by rewrite Hc. Qed.

Lemma unpack_frame_refl c st : unpack_frame c st st.
Proof. apply frame_on_refl. Qed.

Lemma unpack_frame_trans c st1 st2 st3 :
  unpack_frame c st1 st2 -> unpack_frame c st2 st3 -> unpack_frame c st1 st3.
Proof.
  intros H12 H23. eapply frame_on_trans; [exact H12|].
  eapply frame_on_mono; [|exact H23].
  intros r. apply touched_conts. symmetry. apply H12.
Qed.

Lemma reached_cons_r k ks (P : PyParameters num) r :
  reached ks P r -> reached (k :: ks) P r.
Proof. intros (k' & Hk' & Hd). exists k'. split; [by right | done]. Qed.

Lemma unpack_loop_frame ks c n (packed : list num) i st res st' P :
  conts st !! c = Some P ->
  unpack_loop c n packed ks i st = (res, st') ->
  frame_on (reached ks P) st st'.
Proof.
  revert i st. induction ks as [|k rest IH]; intros i st HP; simpl.
  - intros [= <- <-]. apply frame_on_refl.
  - intros Hb.
    apply bind_inv in Hb as [(e & Hg & ->)|(r & st1 & Hg & Hb)];
      apply getitem_inv in Hg as [-> Hr]; [apply frame_on_refl|].
    destruct (Hr r eq_refl) as (P' & HP' & Hk).
    assert (P' = P) as -> by congruence.
    apply bind_inv in Hb as [(e & Hg & ->)|(a & st1 & Hg & Hb)];
      apply get_obj_inv in Hg as [-> Ha]; [apply frame_on_refl|].
    specialize (Ha a eq_refl). unfold isinstance_list_obj in Hb.
    destruct (packed !! i) as [x|]; [|inversion Hb; apply frame_on_refl].
    rewrite (bind_ok _ _ _ _ _ (set_value_ok _ _ _ _ Ha)) in Hb.
    eapply frame_on_trans.
    + apply frame_on_set; [|done]. exists k. split; [by left | done].
    + eapply frame_on_mono; [apply reached_cons_r|].
      eapply IH; [|exact Hb]. done.
Qed.

Lemma unpack_frame_of_unpack c (packed : list num) st res st' :
  _unpack c packed st = (res, st') -> unpack_frame c st st'.
Proof.
  unfold _unpack. intros Hb.
  apply bind_inv in Hb as [(e & Hg & ->)|(P & st1 & Hg & Hb)];
    apply get_cont_inv in Hg as [-> HP]; [apply unpack_frame_refl|].
  specialize (HP P eq_refl). simpl in Hb.
  destruct (_fitted P) as [fl|] eqn:Hfl; [|inversion Hb; apply unpack_frame_refl].
  eapply frame_on_mono; [|by eapply unpack_loop_frame].
  intros r (k & Hk & Hd). by exists P, fl, k.
Qed.

End UnpackFrame.

(** ** Reading methods leave the store alone *)

Section Readers.
Context {num : Type} `{NumPy num}.
Implicit Types (st : store num) (c r : loc).

Lemma lift_store {A} (x : exn + A) st res st' :
  lift x st = (res, st') -> st' = st /\ res = x.
Proof. destruct x; intros [= <- <-]; done. Qed.

Lemma pack_loop_store ks c (packed : list num) st res st' :
  pack_loop c ks packed st = (res, st') -> st' = st.
Proof.
  revert packed. induction ks as [|k rest IH]; intros packed; simpl.
  - by intros [= <- <-].
  - intros Hb.
    apply bind_inv in Hb as [(e & Hg & ->)|(r & st1 & Hg & Hb)];
      apply getitem_inv in Hg as [-> _]; [done|].
    apply bind_inv in Hb as [(e & Hg & ->)|(a & st1 & Hg & Hb)];
      apply get_obj_inv in Hg as [-> _]; [done|].
    destruct (value a); by eapply IH.
Qed.

Lemma pack_store c st (res : exn + list num) st' :
  _pack c st = (res, st') -> st' = st.
Proof.
  unfold _pack. intros Hb.
  apply bind_inv in Hb as [(e & Hg & ->)|(P & st1 & Hg & Hb)];
    apply get_cont_inv in Hg as [-> _]; [done|].
  destruct (_fitted P); [|by inversion Hb].
  apply bind_inv in Hb as [(e & Hg & ->)|(packed & st1 & Hg & Hb)];
    apply pack_loop_store in Hg as ->; [done | by inversion Hb].
Qed.

Lemma curve_params_loop_store ks c curve (params : gmap string num) st res st' :
  curve_params_loop c curve ks params st = (res, st') -> st' = st.
Proof.
  revert params. induction ks as [|k rest IH]; intros params; simpl.
  - by intros [= <- <-].
  - intros Hb.
    apply bind_inv in Hb as [(e & Hg & ->)|(r & st1 & Hg & Hb)];
      apply getitem_inv in Hg as [-> _]; [done|].
    apply bind_inv in Hb as [(e & Hg & ->)|(a & st1 & Hg & Hb)];
      apply get_obj_inv in Hg as [-> _]; [done|].
    destruct (value a) as [x|l]; simpl in Hb; [by eapply IH|].
    by inversion Hb.
Qed.

Lemma curve_params_store c curve st (res : exn + gmap string num) st' :
  _curve_params c curve st = (res, st') -> st' = st.
Proof.
  unfold _curve_params. intros Hb.
  apply bind_inv in Hb as [(e & Hg & ->)|(P & st1 & Hg & Hb)];
    apply get_cont_inv in Hg as [-> _]; [done|].
  by eapply curve_params_loop_store.
Qed.

End Readers.

(** ** The residual function and the solver keep the frame *)

Section DriverFrame.
Context {num : Type} `{NumOps num} `{NumPy num}.
Implicit Types (st : store num) (c r : loc).

Lemma compute_error_loop_store cs c (model : Model num) i err st res st' :
  compute_error_loop c model cs i err st = (res, st') -> st' = st.
Proof.
  revert i err. induction cs as [|cv rest IH]; intros i err; simpl.
  - by intros [= <- <-].
  - intros Hb.
    apply bind_inv in Hb as [(e & Hg & ->)|(cp & st1 & Hg & Hb)];
      apply curve_params_store in Hg as ->; [done|].
    apply bind_inv in Hb as [(e & Hg & ->)|(Gm & st1 & Hg & Hb)];
      apply lift_store in Hg as [-> _]; [done|].
    apply bind_inv in Hb as [(e & Hg & ->)|(q & st1 & Hg & Hb)];
      apply lift_store in Hg as [-> _]; [done|].
    by eapply IH.
Qed.

Lemma compute_error_frame p cs c (model : Model num) st res st' :
  _compute_error p cs c model st = (res, st') -> unpack_frame c st st'.
Proof.
  unfold _compute_error. intros Hb.
  apply bind_inv in Hb as [(e & Hg & ->)|([] & st1 & Hg & Hb)].
  - by eapply unpack_frame_of_unpack.
  - assert (st' = st1) as ->; [|by eapply unpack_frame_of_unpack].
    apply bind_inv in Hb as [(e & Hl & ->)|(err & st2 & Hl & Hb)];
      apply compute_error_loop_store in Hl as ->; [done | by inversion Hb].
Qed.

Lemma run_solver_frame (s : solver num) cs c (model : Model num) st res st' :
  run_solver s (fun x => _compute_error x cs c model) st = (res, st') ->
  unpack_frame c st st'.
Proof.
  revert st. induction s as [p cov|x k IH|e]; intros st; simpl.
  - intros [= <- <-]. apply unpack_frame_refl.
  - intros Hb.
    apply bind_inv in Hb as [(e & Hg & ->)|(err & st1 & Hg & Hb)].
    + by eapply compute_error_frame.
    + eapply unpack_frame_trans; [by eapply compute_error_frame|].
      by eapply IH.
  - intros [= <- <-]. apply unpack_frame_refl.
Qed.

End DriverFrame.

(** ** Dictionaries *)

Section Dict.
Context {V : Type}.
Implicit Types (d : list (string * V)) (k : string).

Lemma dict_get_elem d k v :
  NoDup (map fst d) -> (k, v) ∈ d -> dict_get k d = Some v.
Proof.
  induction d as [|[k' v'] rest IH]; simpl; intros Hnd Hin.
  - by apply elem_of_nil in Hin.
  - apply NoDup_cons in Hnd as [Hnin Hnd].
    apply elem_of_cons in Hin as [[= <- <-]|Hin].
    + by rewrite decide_True.
    + rewrite decide_False; [by apply IH|].
      intros ->. apply Hnin. apply list_elem_of_fmap. by exists (k', v).
Qed.

Lemma dict_get_Some d k v : dict_get k d = Some v -> (k, v) ∈ d.
Proof.
  induction d as [|[k' v'] rest IH]; simpl; [done|].
  case_decide as Hk.
  - intros [= ->]. subst. by left.
  - intros Hg. right. by apply IH.
Qed.

Lemma dict_get_None d k : dict_get k d = None <-> k ∉ map fst d.
Proof.
  induction d as [|[k' v'] rest IH]; simpl.
  - split; [intros _; apply not_elem_of_nil | done].
  - case_decide as Hk.
    + subst. split; [done|]. intros Hn. exfalso. apply Hn. by left.
    + rewrite IH. rewrite not_elem_of_cons.
      split; [by intros ?; split | by intros [_ ?]].
Qed.

Lemma dict_set_fresh d k v :
  k ∉ map fst d -> dict_set k v d = d ++ [(k, v)].
Proof.
  induction d as [|[k' v'] rest IH]; simpl; [done|].
  intros Hn. apply not_elem_of_cons in Hn as [Hne Hn].
  rewrite decide_False by done. by rewrite IH.
Qed.

Lemma dict_set_elem d k v k0 v0 :
  (k0, v0) ∈ dict_set k v d -> (k0, v0) = (k, v) \/ (k0, v0) ∈ d.
Proof.
  induction d as [|[k' v'] rest IH]; simpl.
  - intros Hin. apply list_elem_of_singleton in Hin. by left.
  - case_decide as Hk.
    + intros Hin. apply elem_of_cons in Hin as [Hin|Hin]; [by left|].
      right. by right.
    + intros Hin. apply elem_of_cons in Hin as [Hin|Hin].
      * right. rewrite Hin. by left.
      * destruct (IH Hin) as [?|?]; [by left|]. right. by right.
Qed.

End Dict.

(** ** [validate] *)

Section Validate.
Context {num : Type} `{NumPy num}.
Implicit Types (st : store num) (c r : loc) (P : PyParameters num).

Lemma fitted_append_ok st c P fl n :
  conts st !! c = Some P -> _fitted P = Some fl ->
  fitted_append c n st
  = (inr tt, mkStore (objs st)
       (<[c := mkParameters (items P) (curves P) (Some (fl ++ [n])) (_fixed P)]>
          (conts st))).
Proof.
  intros HP Hfl. unfold fitted_append.
  rewrite (bind_ok _ _ _ _ _ (get_cont_ok _ _ _ HP)). by rewrite Hfl.
Qed.

Lemma fixed_append_ok st c P xl n :
  conts st !! c = Some P -> _fixed P = Some xl ->
  fixed_append c n st
  = (inr tt, mkStore (objs st)
       (<[c := mkParameters (items P) (curves P) (_fitted P) (Some (xl ++ [n]))]>
          (conts st))).
Proof.
  intros HP Hxl. unfold fixed_append.
  rewrite (bind_ok _ _ _ _ _ (get_cont_ok _ _ _ HP)). by rewrite Hxl.
Qed.

(** The loop of [validate], when it ends without an exception: every
    reference led to an object, and the names went to the two lists by
    scope, in order. *)
Lemma validate_loop_ok vals c st st' P fl xl :
  conts st !! c = Some P -> _fitted P = Some fl -> _fixed P = Some xl ->
  validate_loop c vals st = (inr tt, st') ->
  let insts := omap (fun r => objs st !! r) vals in
  objs st' = objs st /\
  length insts = length vals /\
  conts st'
  = <[c := mkParameters (items P) (curves P)
             (Some (fl ++ map iname (filter (has_scope "fitted") insts)))
             (Some (xl ++ map iname (filter (has_scope "fixed") insts)))]>
      (conts st).
Proof.
  revert st P fl xl.
  induction vals as [|r rest IH]; intros st P fl xl HP Hfl Hxl; simpl.
  - intros [= <-]. rewrite !app_nil_r. repeat split.
    symmetry. apply list_insert_id. destruct P; simpl in *. by subst.
  - intros Hb.
    apply bind_inv in Hb as [(e & Hg & [=])|(a & st1 & Hg & Hb)].
    apply get_obj_inv in Hg as [-> Ha]. specialize (Ha a eq_refl).
    rewrite Ha. simpl.
    assert (c < length (conts st)) as Hlt by (by eapply lookup_lt_Some).
    destruct (decide (scope a = Some "fitted")) as [Hs|Hs].
    + rewrite (bind_ok _ _ _ _ _ (fitted_append_ok _ _ _ _ _ HP Hfl)) in Hb.
      match type of Hb with validate_loop _ _ ?s = _ =>
        assert (conts s !! c = Some (mkParameters (items P) (curves P)
                  (Some (fl ++ [name (decl a)])) (_fixed P))) as HP1
          by (simpl; by apply list_lookup_insert_eq) end.
      destruct (IH _ _ _ _ HP1 eq_refl Hxl Hb) as (Ho & Hl & Hc).
      simpl in Ho, Hl, Hc. repeat split; [done | by f_equal |].
      rewrite Hc, list_insert_insert_eq.
      rewrite filter_cons_True by done.
      rewrite filter_cons_False by (unfold has_scope; congruence).
      simpl. by rewrite <- app_assoc.
    + destruct (decide (scope a = Some "fixed")) as [Hx|Hx]; [|by inversion Hb].
      rewrite (bind_ok _ _ _ _ _ (fixed_append_ok _ _ _ _ _ HP Hxl)) in Hb.
      match type of Hb with validate_loop _ _ ?s = _ =>
        assert (conts s !! c = Some (mkParameters (items P) (curves P)
                  (_fitted P) (Some (xl ++ [name (decl a)])))) as HP1
          by (simpl; by apply list_lookup_insert_eq) end.
      destruct (IH _ _ _ _ HP1 Hfl eq_refl Hb) as (Ho & Hl & Hc).
      simpl in Ho, Hl, Hc. repeat split; [done | by f_equal |].
      rewrite Hc, list_insert_insert_eq.
      rewrite filter_cons_False by done.
      rewrite (filter_cons_True (has_scope "fixed")) by done.
      simpl. by rewrite <- app_assoc.
Qed.

(** [validate] without an exception: only the two lists of the
    container change. *)
Lemma validate_ok c st st' :
  validate c st = (inr tt, st') ->
  exists P, conts st !! c = Some P /\
    objs st' = objs st /\
    length (instances st P) = length (items P) /\
    conts st' = <[c := validated_cont st P]> (conts st).
Proof.
  unfold validate. intros Hb.
  apply bind_inv in Hb as [(e & Hg & [=])|(P & st1 & Hg & Hb)].
  apply get_cont_inv in Hg as [-> HP]. specialize (HP P eq_refl).
  exists P. split; [done|].
  assert (c < length (conts st)) as Hlt by (by eapply lookup_lt_Some).
  unfold bind at 1 in Hb. simpl in Hb.
  match type of Hb with validate_loop _ _ ?s = _ =>
    assert (conts s !! c
            = Some (mkParameters (items P) (curves P) (Some []) (Some []))) as HP1
      by (simpl; by apply list_lookup_insert_eq) end.
  destruct (validate_loop_ok _ _ _ _ _ _ _ HP1 eq_refl eq_refl Hb) as (Ho & Hl & Hc).
  simpl in Ho, Hl, Hc.
  split; [done|]. split; [by rewrite length_map in Hl|].
  by rewrite Hc, list_insert_insert_eq.
Qed.

End Validate.

(** ** Well-formed containers *)

Section WellFormed.
Context {num : Type} `{NumPy num}.
Implicit Types (st : store num) (c r : loc) (P : PyParameters num).

Lemma elem_of_instances st P a :
  a ∈ instances st P <->
  exists k r, (k, r) ∈ items P /\ objs st !! r = Some a.
Proof.
  unfold instances. rewrite list_elem_of_omap. split.
  - intros (r & Hr & Ha). apply list_elem_of_fmap in Hr as ([k r'] & -> & Hin).
    by exists k, r'.
  - intros (k & r & Hin & Ha). exists r. split; [|done].
    apply list_elem_of_fmap. by exists (k, r).
Qed.

Lemma instances_same st st' P P' :
  objs st' = objs st -> items P' = items P ->
  instances st' P' = instances st P.
Proof. unfold instances. by intros -> ->. Qed.

(** In a well-formed container a parameter object is found again
    under its own name. *)
Lemma wf_resolve st c P a :
  wf st c -> conts st !! c = Some P -> a ∈ instances st P ->
  exists r, dict_get (iname a) (items P) = Some r /\ objs st !! r = Some a.
Proof.
  intros (P' & HP' & Hnd & Hall) HP Ha.
  assert (P' = P) as -> by congruence.
  apply elem_of_instances in Ha as (k & r & Hin & Hr).
  destruct (Hall k r Hin) as (a' & Ha' & Hn).
  assert (a' = a) as -> by congruence.
  exists r. split; [|done]. unfold iname. rewrite Hn. by apply dict_get_elem.
Qed.

Lemma validate_validated c st st' :
  validate c st = (inr tt, st') ->
  validated st' c /\ (wf st c -> wf st' c) /\
  exists P, conts st !! c = Some P /\ conts st' !! c = Some (validated_cont st P) /\
    objs st' = objs st.
Proof.
  intros Hv. destruct (validate_ok _ _ _ Hv) as (P & HP & Ho & Hl & Hc).
  assert (conts st' !! c = Some (validated_cont st P)) as HP'.
  { rewrite Hc. apply list_lookup_insert_eq. by eapply lookup_lt_Some. }
  split; [|split].
  - exists (validated_cont st P). split; [done|]. unfold fitted, fixed.
    by rewrite (instances_same st st' P (validated_cont st P)).
  - intros (P0 & HP0 & Hnd & Hall). assert (P0 = P) as -> by congruence.
    exists (validated_cont st P). split; [done|]. split; [done|].
    rewrite Ho. exact Hall.
  - by exists P.
Qed.

End WellFormed.

(** ** [_pack] *)

Section Pack.
Context {num : Type} `{NumPy num}.
Implicit Types (st : store num) (c r : loc) (P : PyParameters num).

Lemma pack_loop_ok (l : list (Instance num)) c st P acc :
  conts st !! c = Some P ->
  (forall a, a ∈ l ->
     exists r, dict_get (iname a) (items P) = Some r /\ objs st !! r = Some a) ->
  pack_loop c (map iname l) acc st = (inr (acc ++ packed_of l), st).
Proof.
  intros HP. revert acc. induction l as [|a rest IH]; intros acc Hres; simpl.
  - unfold packed_of. simpl. by rewrite app_nil_r.
  - destruct (Hres a) as (r & Hd & Ha); [by left|].
    rewrite (bind_ok _ _ _ _ _ (getitem_ok _ _ _ _ _ HP Hd)).
    rewrite (bind_ok _ _ _ _ _ (get_obj_ok _ _ _ Ha)).
    unfold packed_of; simpl.
    destruct (value a) as [x|xs]; simpl;
      rewrite IH by (intros a' Ha'; apply Hres; by right);
      unfold packed_of; by rewrite <- app_assoc.
Qed.

(** On a validated, well-formed container [_pack] returns the array of
    the values of the fitted parameters, flattened, in declaration
    order. *)
Lemma pack_ok st c P :
  wf st c -> validated st c -> conts st !! c = Some P ->
  _pack c st = (inr (np_array (packed_of (fitted st P))), st).
Proof.
  intros Hwf (P' & HP' & Hfl & _) HP. assert (P' = P) as -> by congruence.
  unfold _pack. rewrite (bind_ok _ _ _ _ _ (get_cont_ok _ _ _ HP)). rewrite Hfl.
  erewrite bind_ok; [done|]. rewrite (pack_loop_ok _ _ _ P); [done | done |].
  intros a Ha. eapply wf_resolve; [done..|].
  unfold fitted in Ha. by apply list_elem_of_filter in Ha as [_ Ha].
Qed.

(** [np.array] keeps the number of elements. *)
Lemma np_array_length (l : list num) : length (np_array l) = length l.
Proof. unfold np_array. by rewrite length_map. Qed.

(** The length of a packed vector, when the list values all have [n]
    entries. *)
Lemma packed_of_length (l : list (Instance num)) n :
  (forall a xs, a ∈ l -> value a = PyList xs -> length xs = n) ->
  length (packed_of l)
  = length (filter (fun a => ~ is_per_curve a) l)
    + n * length (filter is_per_curve l).
Proof.
  unfold packed_of. induction l as [|a rest IH]; intros Hn; simpl; [lia|].
  rewrite length_app, IH by (intros a' xs Ha'; apply Hn; by right).
  destruct (value a) as [x|xs] eqn:Hv.
  - rewrite filter_cons_True by (unfold is_per_curve; rewrite Hv; simpl; congruence).
    rewrite (filter_cons_False is_per_curve)
      by (unfold is_per_curve; rewrite Hv; simpl; congruence).
    simpl. lia.
  - rewrite filter_cons_False
      by (unfold is_per_curve; rewrite Hv; simpl; intros Hc; by apply Hc).
    rewrite (filter_cons_True is_per_curve)
      by (unfold is_per_curve; by rewrite Hv).
    simpl. rewrite (Hn a xs) by (done || by left). lia.
Qed.

End Pack.

(** ** [_unpack] *)

Section Unpack.
Context {num : Type} `{NumPy num}.
Implicit Types (st : store num) (c r : loc) (P : PyParameters num).

(** The loop of [_unpack] with enough elements left: no exception, and
    the object of the [j]-th key holds element [i + j] as a scalar. *)
Lemma unpack_loop_ok ks c n (packed : list num) P i st :
  conts st !! c = Some P ->
  NoDup ks ->
  (forall k, k ∈ ks ->
     exists r, dict_get k (items P) = Some r /\ is_Some (objs st !! r)) ->
  (forall k1 k2 r, k1 ∈ ks -> k2 ∈ ks ->
     dict_get k1 (items P) = Some r -> dict_get k2 (items P) = Some r ->
     k1 = k2) ->
  i + length ks <= length packed ->
  exists st',
    unpack_loop c n packed ks i st = (inr tt, st') /\
    forall j k r, ks !! j = Some k -> dict_get k (items P) = Some r ->
      exists a x, objs st' !! r = Some a /\ packed !! (i + j) = Some x /\
        value a = Scalar x.
Proof.
  revert i st. induction ks as [|k rest IH]; intros i st HP Hnd Hres Hinj Hlen.
  - exists st. split; [done|]. intros j k r Hj. by rewrite lookup_nil in Hj.
  - apply NoDup_cons in Hnd as [Hnin Hnd]. simpl in Hlen.
    destruct (Hres k) as (r & Hd & [a Ha]); [by left|].
    destruct (lookup_lt_is_Some_2 packed i) as [x Hx]; [lia|].
    simpl. rewrite (bind_ok _ _ _ _ _ (getitem_ok _ _ _ _ _ HP Hd)).
    rewrite (bind_ok _ _ _ _ _ (get_obj_ok _ _ _ Ha)).
    unfold isinstance_list_obj. rewrite Hx.
    rewrite (bind_ok _ _ _ _ _ (set_value_ok _ _ _ _ Ha)).
    set (st1 := mkStore _ _).
    destruct (IH (i + 1) st1) as (st' & Hrun & Hvals); [done | done | | | lia |].
    { intros k' Hk'. destruct (Hres k') as (r' & Hd' & Hs'); [by right|].
      exists r'. split; [done|]. simpl. by apply list_lookup_insert_is_Some. }
    { intros k1 k2 r' H1 H2. apply Hinj; by right. }
    exists st'. split; [done|]. intros j k' r' Hj Hd'.
    destruct j as [|j]; simpl in Hj.
    + injection Hj as <-. assert (r' = r) as -> by congruence.
      assert (objs st' !! r = objs st1 !! r) as Heq.
      { eapply (unpack_loop_frame rest c n packed (i + 1) st1); [done | exact Hrun |].
        intros (k2 & Hk2 & Hd2). apply Hnin.
        rewrite (Hinj k k2 r); [done | by left | by right | done | done]. }
      exists (mkInstance (decl a) (scope a) (Scalar x)), x.
      rewrite Heq. simpl. rewrite Nat.add_0_r. split; [|done].
      apply list_lookup_insert_eq. by eapply lookup_lt_Some.
    + destruct (Hvals j k' r' Hj Hd') as (a' & x' & Ha' & Hx' & Hv').
      exists a', x'. split; [done|]. split; [|done].
      by replace (i + S j) with (i + 1 + j) by lia.
Qed.

(** The loop of [_unpack] when the vector ends too early. *)
Lemma unpack_loop_short ks c n (packed : list num) P i st :
  conts st !! c = Some P ->
  (forall k, k ∈ ks ->
     exists r, dict_get k (items P) = Some r /\ is_Some (objs st !! r)) ->
  i <= length packed -> length packed < i + length ks ->
  exists st', unpack_loop c n packed ks i st = (inl IndexError, st').
Proof.
  revert i st. induction ks as [|k rest IH]; intros i st HP Hres Hi Hlen;
    simpl in Hlen; [lia|].
  destruct (Hres k) as (r & Hd & [a Ha]); [by left|].
  simpl. rewrite (bind_ok _ _ _ _ _ (getitem_ok _ _ _ _ _ HP Hd)).
  rewrite (bind_ok _ _ _ _ _ (get_obj_ok _ _ _ Ha)).
  unfold isinstance_list_obj.
  destruct (packed !! i) as [x|] eqn:Hx; [|by eexists].
  apply lookup_lt_Some in Hx.
  rewrite (bind_ok _ _ _ _ _ (set_value_ok _ _ _ _ Ha)).
  apply (IH (i + 1)); [done | | lia | lia].
  intros k' Hk'. destruct (Hres k') as (r' & Hd' & Hs'); [by right|].
  exists r'. split; [done|]. simpl. by apply list_lookup_insert_is_Some.
Qed.

End Unpack.

(** ** [_unpack] on a validated container *)

Section UnpackValidated.
Context {num : Type} `{NumPy num}.
Implicit Types (st : store num) (c r : loc) (P : PyParameters num).

Lemma wf_names st c P :
  wf st c -> conts st !! c = Some P ->
  map iname (instances st P) = map fst (items P).
Proof.
  intros (P' & HP' & _ & Hall) HP. assert (P' = P) as -> by congruence.
  unfold instances. clear HP HP'. induction (items P) as [|[k r] rest IH]; [done|].
  destruct (Hall k r) as (a & Ha & Hn); [by left|].
  simpl. rewrite Ha. simpl. unfold iname at 1. rewrite Hn. f_equal.
  apply IH. intros k' r' Hin. apply Hall. by right.
Qed.

Lemma fitted_names_NoDup st c P :
  wf st c -> conts st !! c = Some P -> NoDup (map iname (fitted st P)).
Proof.
  intros Hwf HP. pose proof (wf_names _ _ _ Hwf HP) as Hn.
  destruct Hwf as (P' & HP' & Hnd & _). assert (P' = P) as -> by congruence.
  eapply sublist_NoDup; [rewrite <- Hn in Hnd; exact Hnd|].
  apply fmap_sublist. apply sublist_filter.
Qed.

Lemma fitted_resolves st c P k :
  wf st c -> conts st !! c = Some P -> k ∈ map iname (fitted st P) ->
  exists r a, dict_get k (items P) = Some r /\ objs st !! r = Some a /\
    scope a = Some "fitted".
Proof.
  intros Hwf HP Hk. apply list_elem_of_fmap in Hk as (a & -> & Ha).
  apply list_elem_of_filter in Ha as [Hs Ha].
  destruct (wf_resolve _ _ _ _ Hwf HP Ha) as (r & Hd & Hr).
  by exists r, a.
Qed.

Lemma wf_inj st c P k1 k2 r :
  wf st c -> conts st !! c = Some P ->
  dict_get k1 (items P) = Some r -> dict_get k2 (items P) = Some r -> k1 = k2.
Proof.
  intros (P' & HP' & _ & Hall) HP H1 H2. assert (P' = P) as -> by congruence.
  apply dict_get_Some in H1, H2.
  destruct (Hall _ _ H1) as (a1 & Ha1 & <-), (Hall _ _ H2) as (a2 & Ha2 & <-).
  congruence.
Qed.

(** [_unpack] with at least one element per fitted parameter: no
    exception, and the [j]-th fitted parameter holds element [j]. *)
Lemma unpack_ok st c P (v : list num) :
  wf st c -> validated st c -> conts st !! c = Some P ->
  length (fitted st P) <= length v ->
  exists st',
    _unpack c v st = (inr tt, st') /\
    forall j a, fitted st P !! j = Some a ->
      exists r a' x, dict_get (iname a) (items P) = Some r /\
        objs st' !! r = Some a' /\ v !! j = Some x /\ value a' = Scalar x.
Proof.
  intros Hwf (P' & HP' & Hfl & _) HP Hlen. assert (P' = P) as -> by congruence.
  unfold _unpack. rewrite (bind_ok _ _ _ _ _ (get_cont_ok _ _ _ HP)). rewrite Hfl.
  destruct (unpack_loop_ok (map iname (fitted st P)) c (length (curves P)) v P 0 st)
    as (st' & Hrun & Hvals); [done | by eapply fitted_names_NoDup | | |
                              by rewrite length_map |].
  - intros k Hk. destruct (fitted_resolves _ _ _ _ Hwf HP Hk) as (r & a & ? & ? & ?).
    exists r. split; [done | by eexists].
  - intros k1 k2 r _ _. by eapply wf_inj.
  - exists st'. split; [done|]. intros j a Ha.
    assert (a ∈ instances st P) as Hin.
    { apply list_elem_of_lookup_2 in Ha. unfold fitted in Ha.
      by apply list_elem_of_filter in Ha as [_ Ha]. }
    destruct (wf_resolve _ _ _ _ Hwf HP Hin) as (r & Hd & _).
    destruct (Hvals j (iname a) r) as (a' & x & Ha' & Hx & Hv); [|done|].
    { by rewrite list_lookup_fmap, Ha. }
    by exists r, a', x.
Qed.

(** [_unpack] with fewer elements than fitted parameters. *)
Lemma unpack_short st c P (v : list num) :
  wf st c -> validated st c -> conts st !! c = Some P ->
  length v < length (fitted st P) ->
  exists st', _unpack c v st = (inl IndexError, st').
Proof.
  intros Hwf (P' & HP' & Hfl & _) HP Hlen. assert (P' = P) as -> by congruence.
  unfold _unpack. rewrite (bind_ok _ _ _ _ _ (get_cont_ok _ _ _ HP)). rewrite Hfl.
  eapply unpack_loop_short; [done | | lia | by rewrite length_map].
  intros k Hk. destruct (fitted_resolves _ _ _ _ Hwf HP Hk) as (r & a & ? & ? & ?).
  exists r. split; [done | by eexists].
Qed.

(** A packed vector of scalars has one element per parameter. *)
Lemma packed_of_scalars (l : list (Instance num)) :
  (forall a, a ∈ l -> ~ is_per_curve a) ->
  map value l = map Scalar (packed_of l).
Proof.
  induction l as [|a rest IH]; intros Hs; [done|].
  assert (~ is_per_curve a) as Ha by (apply Hs; by left).
  unfold packed_of. simpl. destruct (value a) as [x|xs] eqn:Hv.
  - simpl. f_equal. apply IH. intros a' Ha'. apply Hs. by right.
  - exfalso. apply Ha. unfold is_per_curve. by rewrite Hv.
Qed.

Lemma packed_of_scalars_length (l : list (Instance num)) :
  (forall a, a ∈ l -> ~ is_per_curve a) ->
  length (packed_of l) = length l.
Proof.
  intros Hs. apply packed_of_scalars in Hs.
  apply (f_equal length) in Hs. rewrite !length_map in Hs. done.
Qed.

End UnpackValidated.

(** ** The shape of the packed vector *)

Section PackShape.
Context {num : Type} `{NumPy num}.
Implicit Types (st : store num) (c : loc) (P : PyParameters num).

(** C3: after [validate], [_pack] returns the array of the values of
    the fitted parameters in declaration order, a per-curve value
    contributing its entries in curve order; with [n] curves its length
    is the number of scalar fitted parameters plus [n] times the number
    of per-curve fitted parameters. *)
Theorem pack_shape st0 st c P :
  wf st0 c ->
  validate c st0 = (inr tt, st) ->
  conts st !! c = Some P ->
  shape_ok st P ->
  _pack c st = (inr (np_array (packed_of (fitted st P))), st) /\
  length (np_array (packed_of (fitted st P)))
  = length (filter (fun a => ~ is_per_curve a) (fitted st P))
    + length (curves P) * length (filter is_per_curve (fitted st P)).
Proof.
  intros Hwf Hv HP Hshape.
  destruct (validate_validated _ _ _ Hv) as (Hvd & Hwf' & _).
  split; [by apply pack_ok; auto|].
  rewrite np_array_length. apply packed_of_length. intros a xs Ha Hxs. eapply Hshape; [|done].
  unfold fitted in Ha. by apply list_elem_of_filter in Ha as [_ Ha].
Qed.

End PackShape.

Section PackShapeWitness.
Import Examples.

Lemma shared_store_wf : wf shared_store 0.
Proof.
  eexists. split; [reflexivity|]. split.
  - apply (bool_decide_unpack _). vm_compute. exact I.
  - intros k r Hin. vm_compute in Hin.
    repeat (apply elem_of_cons in Hin as [[= -> ->]|Hin];
            [eexists; split; reflexivity|]).
    by apply elem_of_nil in Hin.
Qed.

Lemma pack_shape_witness :
  _pack 0 shared_validated = (inr [1; 2; 5]%Z, shared_validated) /\
  length [1; 2; 5]%Z = 1 + 2 * 1.
Proof.
  assert (shape_ok shared_validated
            (validated_cont shared_store
               (mkParameters [("c", 0); ("k", 1); ("b", 2)] two_curves None None)))
    as Hshape.
  { intros a l Ha Hl. vm_compute in Ha.
    repeat (apply elem_of_cons in Ha as [->|Ha];
            [vm_compute in Hl; try discriminate Hl;
             injection Hl as <-; reflexivity|]).
    by apply elem_of_nil in Ha. }
  exact (pack_shape shared_store shared_validated 0 _
           shared_store_wf eq_refl eq_refl Hshape).
Defined.

End PackShapeWitness.

(** ** The length of the vector given to [_unpack] *)

Section UnpackLength.
Context {num : Type} `{NumPy num}.
Implicit Types (st : store num) (c : loc) (P : PyParameters num).

(** C6, amended: on a validated container whose fitted parameters all
    hold scalars, [_unpack] raises [IndexError] when the vector is
    shorter than the one [_pack] returns; otherwise it raises nothing,
    the [j]-th fitted parameter receives element [j], and the elements
    after those are ignored. *)
Theorem unpack_length st0 st c P (v : list num) :
  wf st0 c ->
  validate c st0 = (inr tt, st) ->
  conts st !! c = Some P ->
  (forall a, a ∈ fitted st P -> ~ is_per_curve a) ->
  exists p0,
    _pack c st = (inr p0, st) /\
    (length v < length p0 ->
     exists st', _unpack c v st = (inl IndexError, st')) /\
    (length p0 <= length v ->
     exists st',
       _unpack c v st = (inr tt, st') /\
       forall j a, fitted st P !! j = Some a ->
         exists r a' x, dict_get (iname a) (items P) = Some r /\
           objs st' !! r = Some a' /\ v !! j = Some x /\ value a' = Scalar x).
Proof.
  intros Hwf0 Hv HP Hsc.
  destruct (validate_validated _ _ _ Hv) as (Hvd & Hwf & _).
  specialize (Hwf Hwf0).
  exists (np_array (packed_of (fitted st P))). split; [by apply pack_ok|].
  rewrite np_array_length, (packed_of_scalars_length _ Hsc). split.
  - intros Hlt. by eapply unpack_short.
  - intros Hle. by eapply unpack_ok.
Qed.

End UnpackLength.

Section UnpackLengthExamples.
Import Examples.

Lemma line_store_wf : wf line_store 0.
Proof.
  eexists. split; [reflexivity|]. split.
  - apply (bool_decide_unpack _). vm_compute. exact I.
  - intros k r Hin. vm_compute in Hin.
    repeat (apply elem_of_cons in Hin as [[= -> ->]|Hin];
            [eexists; split; reflexivity|]).
    by apply elem_of_nil in Hin.
Qed.

Lemma line_fitted_scalar a :
  a ∈ fitted line_validated
        (validated_cont line_store
           (mkParameters [("a", 0); ("b", 1)] line_curves None None)) ->
  ~ is_per_curve a.
Proof.
  intros Ha. vm_compute in Ha.
  apply list_elem_of_singleton in Ha as ->. vm_compute. discriminate.
Qed.

Lemma unpack_length_witness :
  exists p0,
    _pack 0 line_validated = (inr p0, line_validated) /\
    (length [5; 6]%Z < length p0 ->
     exists st', _unpack 0 [5; 6]%Z line_validated = (inl IndexError, st')) /\
    (length p0 <= length [5; 6]%Z ->
     exists st',
       _unpack 0 [5; 6]%Z line_validated = (inr tt, st') /\
       forall j a,
         fitted line_validated
           (validated_cont line_store
              (mkParameters [("a", 0); ("b", 1)] line_curves None None)) !! j
         = Some a ->
         exists r a' x,
           dict_get (iname a) [("a", 0); ("b", 1)] = Some r /\
           objs st' !! r = Some a' /\ [5; 6]%Z !! j = Some x /\
           value a' = Scalar x).
Proof.
  exact (unpack_length line_store line_validated 0 _ [5; 6]%Z
           line_store_wf eq_refl eq_refl line_fitted_scalar).
Defined.

(** C6, as stated, fails: the validated container of the linear model
    has one fitted scalar, [_pack] returns one element, and [_unpack] of
    the two-element vector [[5; 6]] raises nothing. *)
Lemma unpack_ignores_trailing :
  ~ unpack_consumes_exactly line_validated 0 [5; 6]%Z.
Proof.
  intros Hclaim. destruct (Hclaim [1%Z] eq_refl) as [e He].
  - simpl. lia.
  - vm_compute in He. discriminate He.
Qed.

End UnpackLengthExamples.

(** ** Scalar values: round trip and [_curve_params] *)

Section Scalars.
Context {num : Type} `{NumPy num}.
Implicit Types (st : store num) (c r : loc) (P : PyParameters num).

(** On a validated container whose fitted parameters all hold scalars,
    [_unpack] of these very scalars raises nothing and changes nothing
    at all. *)
Lemma unpack_own_values st c P :
  wf st c -> validated st c -> conts st !! c = Some P ->
  (forall a, a ∈ fitted st P -> ~ is_per_curve a) ->
  _unpack c (packed_of (fitted st P)) st = (inr tt, st).
Proof.
  intros Hwf Hvd HP Hsc.
  destruct (unpack_ok st c P (packed_of (fitted st P)) Hwf Hvd HP)
    as (st' & Hun & Hvals).
  { by rewrite packed_of_scalars_length. }
  rewrite Hun. f_equal.
  pose proof (unpack_frame_of_unpack _ _ _ _ _ Hun) as [Hc Hframe].
  assert (objs st' = objs st) as Ho.
  { apply list_eq. intros r.
    set (refs := omap (fun a => dict_get (iname a) (items P)) (fitted st P)).
    destruct (decide (r ∈ refs)) as [Hin|Hnin].
    - apply list_elem_of_omap in Hin as (a & Ha & Hd).
      apply list_elem_of_lookup_1 in Ha as [j Hj].
      destruct (Hvals j a Hj) as (r0 & a' & x & Hd0 & Ha' & Hx & Hv).
      assert (r0 = r) as -> by congruence.
      assert (a ∈ instances st P) as Hinst.
      { apply list_elem_of_lookup_2 in Hj. unfold fitted in Hj.
        by apply list_elem_of_filter in Hj as [_ Hj]. }
      destruct (wf_resolve _ _ _ _ Hwf HP Hinst) as (r1 & Hd1 & Ha1).
      assert (r1 = r) as -> by congruence.
      destruct (Hframe r) as [_ Hsame].
      destruct (Hsame a Ha1) as (a'' & Ha'' & Hdecl & Hscope).
      assert (a'' = a') as -> by congruence.
      assert (value a = Scalar x) as Hva.
      { pose proof (packed_of_scalars _ Hsc) as Hmap.
        apply (f_equal (fun l => l !! j)) in Hmap.
        rewrite !list_lookup_fmap, Hj, Hx in Hmap. simpl in Hmap. congruence. }
      rewrite Ha', Ha1. f_equal.
      destruct a, a'. simpl in *. congruence.
    - destruct (Hframe r) as [Hsame _]. apply Hsame.
      intros (P' & fl & k & HP' & Hfl & Hk & Hd).
      assert (P' = P) as -> by congruence.
      destruct Hvd as (P' & HP'' & Hfl' & _).
      assert (P' = P) as -> by congruence.
      assert (fl = map iname (fitted st P)) as -> by congruence.
      apply list_elem_of_fmap in Hk as (a & -> & Ha).
      apply Hnin. apply list_elem_of_omap. by exists a. }
  destruct st, st'. simpl in *. by subst.
Qed.

(** The loop of [_curve_params] over keys that all hold scalars. *)
Lemma curve_params_loop_scalars ks c curve st P (acc : gmap string num) :
  conts st !! c = Some P ->
  (forall k, k ∈ ks -> is_Some (scalar_at st P k)) ->
  exists m,
    curve_params_loop c curve ks acc st = (inr m, st) /\
    forall k, m !! k = if decide (k ∈ ks) then scalar_at st P k else acc !! k.
Proof.
  intros HP. revert acc. induction ks as [|k rest IH]; intros acc Hall.
  - exists acc. split; [done|]. intros k.
    rewrite decide_False; [done | apply not_elem_of_nil].
  - destruct (Hall k) as [x Hx]; [by left|]. unfold scalar_at in Hx.
    destruct (dict_get k (items P)) as [r|] eqn:Hd; [|done].
    destruct (objs st !! r) as [a|] eqn:Ha; [|done].
    destruct (value a) as [y|l] eqn:Hv; [|done]. injection Hx as ->.
    destruct (IH (<[k := x]> acc)) as (m & Hrun & Hm).
    { intros k' Hk'. apply Hall. by right. }
    exists m. split.
    + simpl. rewrite (bind_ok _ _ _ _ _ (getitem_ok _ _ _ _ _ HP Hd)).
      rewrite (bind_ok _ _ _ _ _ (get_obj_ok _ _ _ Ha)). rewrite Hv. simpl.
      exact Hrun.
    + intros k'. rewrite Hm. destruct (decide (k' ∈ rest)) as [Hin|Hnin].
      * rewrite decide_True; [done | by right].
      * destruct (decide (k' = k)) as [->|Hne].
        -- rewrite decide_True by (by left). rewrite lookup_insert_eq.
           unfold scalar_at. by rewrite Hd, Ha, Hv.
        -- rewrite decide_False.
           ++ by rewrite lookup_insert_ne.
           ++ intros Hc. apply elem_of_cons in Hc as [Hc|Hc]; congruence.
Qed.

(** X18: when no parameter holds a list, [_curve_params] returns, for
    any index at all (the index is not looked at, nor checked against
    the number of curves), one scalar for each key of the container and
    nothing else. *)
Lemma curve_params_scalars st c P curve :
  wf st c -> conts st !! c = Some P ->
  (forall a, a ∈ instances st P -> ~ is_per_curve a) ->
  exists m,
    _curve_params c curve st = (inr m, st) /\
    forall k, m !! k = scalar_at st P k.
Proof.
  intros Hwf HP Hsc.
  destruct (curve_params_loop_scalars (map fst (items P)) c curve st P ∅ HP)
    as (m & Hrun & Hm).
  - intros k Hk. apply list_elem_of_fmap in Hk as ([k' r] & -> & Hin).
    destruct Hwf as (P' & HP' & Hnd & Hall). assert (P' = P) as -> by congruence.
    destruct (Hall k' r Hin) as (a & Ha & _). simpl.
    unfold scalar_at. rewrite (dict_get_elem _ _ _ Hnd Hin), Ha.
    destruct (value a) as [x|l] eqn:Hv; [by eexists|].
    exfalso. apply (Hsc a).
    + apply elem_of_instances. by exists k', r.
    + unfold is_per_curve. by rewrite Hv.
  - exists m. split.
    + unfold _curve_params. by rewrite (bind_ok _ _ _ _ _ (get_cont_ok _ _ _ HP)).
    + intros k. rewrite Hm. case_decide as Hk; [done|].
      rewrite lookup_empty. unfold scalar_at.
      apply dict_get_None in Hk. by rewrite Hk.
Qed.

(** The loop of [_curve_params] over keys one of which holds a list. *)
Lemma curve_params_loop_list ks c curve st P (acc : gmap string num) :
  conts st !! c = Some P ->
  (forall k, k ∈ ks ->
     exists r a, dict_get k (items P) = Some r /\ objs st !! r = Some a) ->
  (exists k r a, k ∈ ks /\ dict_get k (items P) = Some r /\
     objs st !! r = Some a /\ is_per_curve a) ->
  curve_params_loop c curve ks acc st = (inl (NameError "i"), st).
Proof.
  intros HP. revert acc. induction ks as [|k rest IH]; intros acc Hall Hex.
  - destruct Hex as (k & _ & _ & Hk & _). by apply elem_of_nil in Hk.
  - destruct (Hall k) as (r & a & Hd & Ha); [by left|].
    simpl. rewrite (bind_ok _ _ _ _ _ (getitem_ok _ _ _ _ _ HP Hd)).
    rewrite (bind_ok _ _ _ _ _ (get_obj_ok _ _ _ Ha)).
    destruct (value a) as [x|l] eqn:Hv; simpl; [|done].
    apply IH; [intros k' Hk'; apply Hall; by right|].
    destruct Hex as (k0 & r0 & a0 & Hk0 & Hd0 & Ha0 & Hpc).
    apply elem_of_cons in Hk0 as [->|Hk0]; [|by exists k0, r0, a0].
    exfalso. assert (r0 = r) as -> by congruence.
    assert (a0 = a) as -> by congruence.
    unfold is_per_curve in Hpc. by rewrite Hv in Hpc.
Qed.

(** X19: as soon as one parameter of the container holds a list,
    fitted or fixed, [_curve_params] raises [NameError] for every index
    and changes nothing. *)
Lemma curve_params_list st c P curve a :
  wf st c -> conts st !! c = Some P ->
  a ∈ instances st P -> is_per_curve a ->
  _curve_params c curve st = (inl (NameError "i"), st).
Proof.
  intros Hwf HP Ha Hpc.
  unfold _curve_params. rewrite (bind_ok _ _ _ _ _ (get_cont_ok _ _ _ HP)).
  destruct (wf_resolve _ _ _ _ Hwf HP Ha) as (r & Hd & Hr).
  apply (curve_params_loop_list _ _ _ _ P); [done | |].
  - intros k Hk. apply list_elem_of_fmap in Hk as ([k' r'] & -> & Hin).
    destruct Hwf as (P' & HP' & Hnd & Hall). assert (P' = P) as -> by congruence.
    destruct (Hall k' r' Hin) as (a' & Ha' & _). simpl.
    exists r', a'. split; [by apply dict_get_elem | done].
  - exists (iname a), r, a. split; [|done].
    apply dict_get_Some in Hd. apply list_elem_of_fmap. by exists (iname a, r).
Qed.

End Scalars.

(** ** Per-curve values: round trip and [_curve_params] *)

Section PerCurve.
Import Examples.

(** C1 fails on the code.  In the validated container over two curves
    with the fitted parameters [c = [1, 2]] and [k = 5], [_pack] returns
    [[1; 2; 5]]; [_unpack] of that vector raises nothing, and leaves [c]
    with the scalar [1] and [k] with [2]: its test [isinstance(self[k],
    list)] is on the parameter object and never holds, so one element per
    fitted parameter is read.  The fixed [b] keeps its value. *)
Theorem unpack_pack_collapses_per_curve :
  map value (objs shared_validated) = [PyList [1; 2]; Scalar 5; Scalar 0]%Z /\
  _pack 0 shared_validated = (inr [1; 2; 5]%Z, shared_validated) /\
  exists st',
    _unpack 0 [1; 2; 5]%Z shared_validated = (inr tt, st') /\
    map value (objs st') = [Scalar 1; Scalar 2; Scalar 0]%Z.
Proof.
  split; [reflexivity|]. split; [reflexivity|].
  exists (snd (_unpack 0 [1; 2; 5]%Z shared_validated)).
  split; vm_compute; reflexivity.
Qed.

(** C2 fails on the code.  In the same container, [_curve_params] raises
    [NameError] for either curve index: the value of [c] is a list, and
    the body indexes it with [i], a name the function does not bind. *)
Theorem curve_params_per_curve_raises :
  fst (_curve_params 0 0 shared_validated) = inl (NameError "i") /\
  fst (_curve_params 0 1 shared_validated) = inl (NameError "i").
Proof. split; reflexivity. Qed.

End PerCurve.

(** ** [deepcopy] *)

Section DeepCopy.
Context {num : Type} `{NumPy num}.
Implicit Types (st : store num) (c r : loc) (P : PyParameters num).

Lemma setitem_ok st c P k r :
  conts st !! c = Some P ->
  setitem c k r st
  = (inr tt, mkStore (objs st)
       (<[c := mkParameters (dict_set k r (items P)) (curves P)
                 (_fitted P) (_fixed P)]> (conts st))).
Proof.
  intros HP. unfold setitem.
  by rewrite (bind_ok _ _ _ _ _ (get_cont_ok _ _ _ HP)).
Qed.

(** The loop of [deepcopy] over items whose objects all exist in the
    original store [O]: it raises nothing, only adds objects, and files
    the copies under the same keys in the same order. *)
Lemma deepcopy_items_ok (O : list (Instance num)) c' its :
  forall memo st P',
  conts st !! c' = Some P' ->
  (forall r a, O !! r = Some a -> objs st !! r = Some a) ->
  (forall k r, (k, r) ∈ its -> is_Some (O !! r)) ->
  (forall r r', (r, r') ∈ memo ->
     objs st !! r' = O !! r /\ is_Some (O !! r) /\ length O <= r') ->
  NoDup (map fst (items P') ++ map fst its) ->
  exists st' new,
    deepcopy_items c' its memo st = (inr tt, st') /\
    (forall r a, objs st !! r = Some a -> objs st' !! r = Some a) /\
    conts st'
    = <[c' := mkParameters (items P' ++ new) (curves P')
                (_fitted P') (_fixed P')]> (conts st) /\
    Forall2 (copy_of O st') its new.
Proof.
  induction its as [|[k r] rest IH]; intros memo st P' HP HO Hits Hmemo Hnd.
  - exists st, []. split; [done|]. split; [done|]. split; [|constructor].
    rewrite app_nil_r. symmetry. apply list_insert_id. by destruct P'.
  - assert (c' < length (conts st)) as Hlt by (by eapply lookup_lt_Some).
    destruct (Hits k r) as [a Ha]; [by left|].
    assert (k ∉ map fst (items P')) as Hfresh.
    { apply NoDup_app in Hnd as (_ & Hdisj & _). intros Hin.
      apply (Hdisj k Hin). simpl. by left. }
    assert (NoDup (map fst (items P' ++ [(k, r)]) ++ map fst rest)) as Hnd'.
    { rewrite map_app. simpl. by rewrite <- app_assoc. }
    simpl. destruct (list_find (fun m => fst m = r) memo)
      as [[i [r0 r']]|] eqn:Hfind.
    + apply list_find_Some in Hfind as (Hi & Hr0 & _). simpl in Hr0. subst r0.
      apply list_elem_of_lookup_2 in Hi.
      destruct (Hmemo r r' Hi) as (Hr' & _ & Hge).
      rewrite (bind_ok _ _ _ _ _ (setitem_ok _ _ _ _ _ HP)).
      rewrite dict_set_fresh by done.
      set (P2 := mkParameters (items P' ++ [(k, r')]) (curves P')
                   (_fitted P') (_fixed P')).
      set (st2 := mkStore (objs st) (<[c' := P2]> (conts st))).
      destruct (IH memo st2 P2) as (st' & new & Hrun & Hext & Hc & Hnew).
      { simpl. by apply list_lookup_insert_eq. }
      { done. }
      { intros k0 r0 Hin. apply (Hits k0). by right. }
      { done. }
      { subst P2. simpl. rewrite map_app in *. simpl in *. done. }
      exists st', ((k, r') :: new). split; [done|]. split; [done|]. split.
      * rewrite Hc. subst st2 P2. simpl. rewrite list_insert_insert_eq.
        by rewrite <- app_assoc.
      * constructor; [|done]. split; [done|]. simpl. split; [|done].
        rewrite Ha. apply Hext. simpl. by rewrite Hr', Ha.
    + rewrite (bind_ok _ _ _ _ _ (get_obj_ok _ _ _ (HO _ _ Ha))).
      unfold bind at 1. unfold new_obj at 1.
      set (r' := length (objs st)).
      set (st1 := mkStore (objs st ++ [a]) (conts st)).
      assert (conts st1 !! c' = Some P') as HP1 by done.
      rewrite (bind_ok _ _ _ _ _ (setitem_ok _ _ _ _ _ HP1)).
      rewrite dict_set_fresh by done.
      set (P2 := mkParameters (items P' ++ [(k, r')]) (curves P')
                   (_fitted P') (_fixed P')).
      set (st2 := mkStore (objs st ++ [a]) (<[c' := P2]> (conts st))).
      assert (length O <= r') as Hge.
      { subst r'. destruct (decide (length O <= length (objs st))); [done|].
        exfalso. destruct (lookup_lt_is_Some_2 O (length (objs st))) as [b Hb]; [lia|].
        apply HO in Hb. apply lookup_lt_Some in Hb. lia. }
      destruct (IH ((r, r') :: memo) st2 P2) as (st' & new & Hrun & Hext & Hc & Hnew).
      { simpl. by apply list_lookup_insert_eq. }
      { intros r0 a0 H0. simpl. apply lookup_app_l_Some. by apply HO. }
      { intros k0 r0 Hin. apply (Hits k0). by right. }
      { intros r0 r0' Hin. simpl. apply elem_of_cons in Hin as [[= -> ->]|Hin].
        - split; [|split; [by eexists | done]].
          rewrite Ha. subst r'. by rewrite list_lookup_middle.
        - destruct (Hmemo _ _ Hin) as (H1 & [b Hb] & H3).
          split; [|split; [by eexists | done]].
          rewrite Hb in H1 |- *. by apply lookup_app_l_Some. }
      { subst P2. simpl. rewrite map_app in *. simpl in *. done. }
      exists st', ((k, r') :: new). split; [done|]. split.
      { intros r0 a0 H0. apply Hext. simpl. by apply lookup_app_l_Some. }
      split.
      * rewrite Hc. subst st2 P2. simpl. rewrite list_insert_insert_eq.
        by rewrite <- app_assoc.
      * constructor; [|done]. split; [done|]. simpl. split; [|done].
        rewrite Ha. apply Hext. simpl. subst r'. by rewrite list_lookup_middle.
Qed.

Lemma copy_of_keys (O : list (Instance num)) st its its1 :
  Forall2 (copy_of O st) its its1 -> map fst its1 = map fst its.
Proof.
  induction 1 as [|kr kr1 its its1 (Hk & _) _ IH]; [done|].
  simpl. by rewrite Hk, IH.
Qed.

Lemma copy_of_get (O : list (Instance num)) st its its1 k r :
  Forall2 (copy_of O st) its its1 -> dict_get k its = Some r ->
  exists r1, dict_get k its1 = Some r1 /\ objs st !! r1 = O !! r /\
    length O <= r1.
Proof.
  induction 1 as [|[k0 r0] [k1 r1] its its1 (Hk & Ho & Hge) _ IH]; [done|].
  simpl in *. subst k1. case_decide.
  - intros [= <-]. by exists r1.
  - done.
Qed.

Lemma copy_of_elem (O : list (Instance num)) st its its1 k r1 :
  Forall2 (copy_of O st) its its1 -> (k, r1) ∈ its1 ->
  exists r, (k, r) ∈ its /\ objs st !! r1 = O !! r /\ length O <= r1.
Proof.
  induction 1 as [|[k0 r0] [k1 r1'] its its1 (Hk & Ho & Hge) _ IH].
  - intros Hin. by apply elem_of_nil in Hin.
  - simpl in *. subst k1. intros Hin.
    apply elem_of_cons in Hin as [[= -> ->]|Hin].
    + exists r0. split; [by left | done].
    + destruct (IH Hin) as (r & Hr & ?). exists r. split; [by right | done].
Qed.

(** [deepcopy] of a well-formed container raises nothing: the new
    container is a new location, with the attributes of the original and
    a copy of each entry. *)
Lemma deepcopy_ok st c P :
  wf st c -> conts st !! c = Some P ->
  exists st1 its1,
    deepcopy c st = (inr (length (conts st)), st1) /\
    (forall r a, objs st !! r = Some a -> objs st1 !! r = Some a) /\
    conts st1
    = conts st ++ [mkParameters its1 (curves P) (_fitted P) (_fixed P)] /\
    Forall2 (copy_of (objs st) st1) (items P) its1.
Proof.
  intros (P0 & HP0 & Hnd & Hall) HP. assert (P0 = P) as -> by congruence.
  unfold deepcopy. rewrite (bind_ok _ _ _ _ _ (get_cont_ok _ _ _ HP)).
  unfold bind at 1. unfold new_cont at 1.
  set (P1 := mkParameters [] (curves P) (_fitted P) (_fixed P)).
  set (st0 := mkStore (objs st) (conts st ++ [P1])).
  destruct (deepcopy_items_ok (objs st) (length (conts st)) (items P) [] st0 P1)
    as (st1 & new & Hrun & Hext & Hc & Hnew).
  { simpl. by rewrite list_lookup_middle. }
  { done. }
  { intros k r Hin. destruct (Hall k r Hin) as (a & Ha & _). by eexists. }
  { intros r r' Hin. by apply elem_of_nil in Hin. }
  { done. }
  exists st1, new. rewrite (bind_ok _ _ _ _ _ Hrun).
  split; [done|]. split; [done|]. split; [|done].
  rewrite Hc. subst st0 P1. simpl.
  rewrite insert_app_r_alt by done. by rewrite Nat.sub_diag.
Qed.

(** The copy is well-formed too. *)
Lemma deepcopy_wf st c P st1 its1 :
  wf st c -> conts st !! c = Some P ->
  conts st1
  = conts st ++ [mkParameters its1 (curves P) (_fitted P) (_fixed P)] ->
  Forall2 (copy_of (objs st) st1) (items P) its1 ->
  wf st1 (length (conts st)).
Proof.
  intros (P0 & HP0 & Hnd & Hall) HP Hc Hcopy. assert (P0 = P) as -> by congruence.
  eexists. split; [by rewrite Hc, list_lookup_middle|]. simpl. split.
  - by rewrite (copy_of_keys _ _ _ _ Hcopy).
  - intros k r1 Hin. destruct (copy_of_elem _ _ _ _ _ _ Hcopy Hin) as (r & Hr & Ho & _).
    destruct (Hall k r Hr) as (a & Ha & Hn). exists a. by rewrite Ho.
Qed.

End DeepCopy.

(** ** Fixed parameters through [fit] *)

Section FitFixed.
Context {num : Type} `{NumOps num} `{NumPy num}.
Implicit Types (st : store num) (c r : loc) (P : PyParameters num).

(** C4: when [fit] returns a container, every parameter that is fixed
    in the input container is in the returned one under the same key,
    still fixed and with the value it had in the input, whatever the
    solver did. *)
Theorem fit_keeps_fixed (leastsq : list num -> solver num) cs
    (model : Model num) st c P c' st' :
  wf st c ->
  conts st !! c = Some P ->
  fit leastsq cs model c st = (inr c', st') ->
  exists P', conts st' !! c' = Some P' /\
    forall k r a,
      dict_get k (items P) = Some r -> objs st !! r = Some a ->
      scope a = Some "fixed" ->
      exists r' a', dict_get k (items P') = Some r' /\
        objs st' !! r' = Some a' /\
        scope a' = Some "fixed" /\ value a' = value a.
Proof.
  intros Hwf HP Hfit.
  destruct (deepcopy_ok _ _ _ Hwf HP) as (st1 & its1 & Hdc & Hext1 & Hc1 & Hcopy).
  pose proof (deepcopy_wf _ _ _ _ _ Hwf HP Hc1 Hcopy) as Hwf1.
  unfold fit in Hfit. rewrite (bind_ok _ _ _ _ _ Hdc) in Hfit.
  set (c1 := length (conts st)) in *.
  apply bind_inv in Hfit as [(e & _ & [=])|([] & st2 & Hval & Hfit)].
  destruct (validate_validated _ _ _ Hval)
    as ((P2 & HP2 & Hfl2 & _) & Hwf2 & P1 & HP1 & HP2' & Ho2).
  specialize (Hwf2 Hwf1).
  apply bind_inv in Hfit as [(e & _ & [=])|(p0 & st2' & Hpack & Hfit)].
  apply pack_store in Hpack as ->.
  apply bind_inv in Hfit as [(e & _ & [=])|([p cov] & st3 & Hsolve & Hfit)].
  apply run_solver_frame in Hsolve.
  destruct cov as [cov|]; [|by inversion Hfit].
  apply bind_inv in Hfit as [(e & _ & [=])|([] & st4 & Hun & Hret)].
  injection Hret as <- <-.
  apply unpack_frame_of_unpack in Hun.
  pose proof (unpack_frame_trans _ _ _ _ Hsolve Hun) as [Hconts Hframe].
  assert (P1 = mkParameters its1 (curves P) (_fitted P) (_fixed P)) as HP1eq.
  { rewrite Hc1 in HP1. subst c1. rewrite list_lookup_middle in HP1 by done.
    by injection HP1 as <-. }
  assert (items P2 = its1) as Hitems.
  { rewrite HP2 in HP2'. injection HP2' as ->. simpl. by rewrite HP1eq. }
  exists P2. split; [by rewrite Hconts|].
  intros k r a Hd Ha Hs.
  destruct (copy_of_get _ _ _ _ _ _ Hcopy Hd) as (r1 & Hd1 & Ho1 & _).
  rewrite Ha in Ho1. exists r1, a. rewrite Hitems. split; [done|].
  split; [|done]. destruct (Hframe r1) as [Hsame _]. rewrite Hsame.
  - by rewrite Ho2.
  - intros (P3 & fl & k' & HP3 & Hfl3 & Hk' & Hd').
    assert (P3 = P2) as -> by congruence.
    assert (fl = map iname (fitted st2 P2)) as -> by congruence.
    destruct (fitted_resolves _ _ _ _ Hwf2 HP2 Hk') as (r2 & a2 & Hd2 & Ha2 & Hs2).
    assert (r2 = r1) as -> by congruence.
    rewrite Ho2, Ho1 in Ha2. injection Ha2 as <-. congruence.
Qed.

End FitFixed.

Section FitFixedWitness.
Import Examples.

Lemma fit_keeps_fixed_witness :
  exists P',
    conts (snd (fit one_step_solver line_curves line_model 0 line_store)) !! 1
    = Some P' /\
    forall k r a,
      dict_get k [("a", 0); ("b", 1)] = Some r ->
      objs line_store !! r = Some a ->
      scope a = Some "fixed" ->
      exists r' a', dict_get k (items P') = Some r' /\
        objs (snd (fit one_step_solver line_curves line_model 0 line_store))
          !! r' = Some a' /\
        scope a' = Some "fixed" /\ value a' = value a.
Proof.
  assert (fit one_step_solver line_curves line_model 0 line_store
          = (inr 1,
             snd (fit one_step_solver line_curves line_model 0 line_store)))
    as Hfit by (vm_compute; reflexivity).
  exact (fit_keeps_fixed one_step_solver line_curves line_model line_store 0
           (mkParameters [("a", 0); ("b", 1)] line_curves None None) 1 _
           line_store_wf eq_refl Hfit).
Defined.

End FitFixedWitness.

(** ** The caller's objects through [fit] *)

Section Owned.
Context {num : Type} `{NumPy num}.
Implicit Types (st : store num) (c r : loc) (P : PyParameters num).

Lemma cont_frame_refl c st : cont_frame c st st.
Proof. split; [done|]. split; [done|]. intros P HP. by exists P. Qed.

Lemma cont_frame_trans c st1 st2 st3 :
  cont_frame c st1 st2 -> cont_frame c st2 st3 -> cont_frame c st1 st3.
Proof.
  intros (Ho12 & Hc12 & Hi12) (Ho23 & Hc23 & Hi23).
  split; [congruence|]. split.
  - intros c0 Hne. by rewrite Hc23, Hc12.
  - intros P HP. destruct (Hi12 P HP) as (P2 & HP2 & Hit2).
    destruct (Hi23 P2 HP2) as (P3 & HP3 & Hit3).
    exists P3. split; [done | congruence].
Qed.

Lemma cont_frame_set c st P P' :
  conts st !! c = Some P -> items P' = items P ->
  cont_frame c st (mkStore (objs st) (<[c := P']> (conts st))).
Proof.
  intros HP Hit. split; [done|]. simpl. split.
  - intros c0 Hne. by apply list_lookup_insert_ne.
  - intros P0 HP0. exists P'. split; [|congruence].
    apply list_lookup_insert_eq. by eapply lookup_lt_Some.
Qed.

Lemma fitted_append_frame c n st res st' :
  fitted_append c n st = (res, st') -> cont_frame c st st'.
Proof.
  unfold fitted_append. intros Hb.
  apply bind_inv in Hb as [(e & Hg & ->)|(P & st1 & Hg & Hb)];
    apply get_cont_inv in Hg as [-> HP]; [apply cont_frame_refl|].
  specialize (HP P eq_refl).
  destruct (_fitted P); inversion Hb; subst;
    [by apply (cont_frame_set _ _ P) | apply cont_frame_refl].
Qed.

Lemma fixed_append_frame c n st res st' :
  fixed_append c n st = (res, st') -> cont_frame c st st'.
Proof.
  unfold fixed_append. intros Hb.
  apply bind_inv in Hb as [(e & Hg & ->)|(P & st1 & Hg & Hb)];
    apply get_cont_inv in Hg as [-> HP]; [apply cont_frame_refl|].
  specialize (HP P eq_refl).
  destruct (_fixed P); inversion Hb; subst;
    [by apply (cont_frame_set _ _ P) | apply cont_frame_refl].
Qed.

Lemma validate_loop_frame vals c st res st' :
  validate_loop c vals st = (res, st') -> cont_frame c st st'.
Proof.
  revert st. induction vals as [|r rest IH]; intros st; simpl.
  - intros [= <- <-]. apply cont_frame_refl.
  - intros Hb.
    apply bind_inv in Hb as [(e & Hg & ->)|(a & st1 & Hg & Hb)];
      apply get_obj_inv in Hg as [-> _]; [apply cont_frame_refl|].
    destruct (decide (scope a = Some "fitted")) as [Hs|Hs].
    + apply bind_inv in Hb as [(e & Hg & ->)|([] & st1 & Hg & Hb)];
        apply fitted_append_frame in Hg; [done|].
      eapply cont_frame_trans; [done | by eapply IH].
    + destruct (decide (scope a = Some "fixed")) as [Hx|Hx].
      * apply bind_inv in Hb as [(e & Hg & ->)|([] & st1 & Hg & Hb)];
          apply fixed_append_frame in Hg; [done|].
        eapply cont_frame_trans; [done | by eapply IH].
      * inversion Hb. apply cont_frame_refl.
Qed.

(** [validate], whatever its outcome, changes nothing but the two
    lists of its container. *)
Lemma validate_frame c st res st' :
  validate c st = (res, st') -> cont_frame c st st'.
Proof.
  unfold validate. intros Hb.
  apply bind_inv in Hb as [(e & Hg & ->)|(P & st1 & Hg & Hb)];
    apply get_cont_inv in Hg as [-> HP]; [apply cont_frame_refl|].
  specialize (HP P eq_refl). unfold bind at 1 in Hb. simpl in Hb.
  eapply cont_frame_trans; [|by eapply validate_loop_frame].
  by apply (cont_frame_set _ _ P).
Qed.

Lemma dict_set_Forall {V} (Q : string * V -> Prop) k v d :
  Forall Q d -> Q (k, v) -> Forall Q (dict_set k v d).
Proof.
  intros Hd Hkv. apply Forall_forall. intros [k0 v0] Hin.
  apply dict_set_elem in Hin as [->|Hin]; [done|].
  by eapply (proj1 (Forall_forall Q d)).
Qed.

(** The loop of [deepcopy], whatever its outcome: objects are only
    added, no other container changes, and the entries of the new
    container lead to added objects. *)
Lemma deepcopy_items_owned bo c' its :
  forall memo st res st' P',
  conts st !! c' = Some P' ->
  Forall (fun kr => bo <= snd kr) (items P') ->
  Forall (fun m : loc * loc => bo <= snd m) memo ->
  bo <= length (objs st) ->
  deepcopy_items c' its memo st = (res, st') ->
  (forall r a, objs st !! r = Some a -> objs st' !! r = Some a) /\
  (forall c0, c0 <> c' -> conts st' !! c0 = conts st !! c0) /\
  exists P'', conts st' !! c' = Some P'' /\
    Forall (fun kr => bo <= snd kr) (items P'').
Proof.
  induction its as [|[k r] rest IH]; intros memo st res st' P' HP HitP Hmemo Hbo;
    simpl.
  - intros [= <- <-]. split; [done|]. split; [done|]. by exists P'.
  - assert (c' < length (conts st)) as Hlt by (by eapply lookup_lt_Some).
    destruct (list_find (fun m => fst m = r) memo)
      as [[i [r0 r']]|] eqn:Hfind.
    + apply list_find_Some in Hfind as (Hi & _ & _).
      apply list_elem_of_lookup_2 in Hi.
      pose proof (proj1 (Forall_forall _ _) Hmemo _ Hi) as Hr'. simpl in Hr'.
      rewrite (bind_ok _ _ _ _ _ (setitem_ok _ _ _ _ _ HP)).
      intros Hrun. eapply IH in Hrun as (Hext & Hoth & P'' & HP'' & Hit'').
      * split; [done|]. split; [|by exists P''].
        intros c0 Hne. rewrite Hoth by done. simpl.
        by apply list_lookup_insert_ne.
      * simpl. by apply list_lookup_insert_eq.
      * simpl. by apply dict_set_Forall.
      * done.
      * done.
    + intros Hb.
      apply bind_inv in Hb as [(e & Hg & ->)|(a & st1 & Hg & Hb)];
        apply get_obj_inv in Hg as [-> _].
      { split; [done|]. split; [done|]. by exists P'. }
      unfold bind at 1 in Hb. unfold new_obj at 1 in Hb.
      assert (conts (mkStore (objs st ++ [a]) (conts st)) !! c' = Some P')
        as HP1 by done.
      rewrite (bind_ok _ _ _ _ _ (setitem_ok _ _ _ _ _ HP1)) in Hb.
      eapply IH in Hb as (Hext & Hoth & P'' & HP'' & Hit'').
      * split; [|split; [|by exists P'']].
        -- intros r0 a0 H0. apply Hext. simpl. by apply lookup_app_l_Some.
        -- intros c0 Hne. rewrite Hoth by done. simpl.
           by apply list_lookup_insert_ne.
      * simpl. by apply list_lookup_insert_eq.
      * simpl. by apply dict_set_Forall.
      * by constructor.
      * simpl. rewrite length_app. simpl. lia.
Qed.

Lemma owned_extends (st0 : store num) c' st :
  owned st0 c' st -> extends st0 st.
Proof. by intros [? _]. Qed.

Lemma extends_refl st : extends st st.
Proof. by split. Qed.

(** [deepcopy], whatever its outcome, extends the store; a container it
    returns is new, and so are the objects of its entries. *)
Lemma deepcopy_owned c st res st1 :
  deepcopy c st = (res, st1) ->
  extends st st1 /\ forall c', res = inr c' -> owned st c' st1.
Proof.
  unfold deepcopy. intros Hb.
  apply bind_inv in Hb as [(e & Hg & ->)|(P & st0 & Hg & Hb)];
    apply get_cont_inv in Hg as [-> HP]; [split; [apply extends_refl | done]|].
  unfold bind at 1 in Hb. unfold new_cont at 1 in Hb.
  set (P1 := mkParameters [] (curves P) (_fitted P) (_fixed P)) in Hb.
  assert (conts (mkStore (objs st) (conts st ++ [P1])) !! length (conts st)
          = Some P1) as HP1 by (simpl; by rewrite list_lookup_middle).
  assert (forall res0 st',
            deepcopy_items (length (conts st)) (items P) []
              (mkStore (objs st) (conts st ++ [P1])) = (res0, st') ->
            owned st (length (conts st)) st') as Hown.
  { intros res0 st' Hrun.
    eapply (deepcopy_items_owned (length (objs st))) in Hrun
      as (Hext & Hoth & P'' & HP'' & Hit''); [| exact HP1 | done | done | done].
    split; [split|split].
    - done.
    - intros c0 P0 H0. rewrite Hoth.
      + simpl. by apply lookup_app_l_Some.
      + apply lookup_lt_Some in H0. lia.
    - apply lookup_ge_None. lia.
    - by exists P''. }
  apply bind_inv in Hb as [(e & Hg & ->)|([] & st2 & Hg & Hb)].
  - split; [|done]. eapply owned_extends. by eapply Hown.
  - injection Hb as <- <-. split.
    + eapply owned_extends. by eapply Hown.
    + intros c' [= <-]. by eapply Hown.
Qed.

Lemma cont_frame_owned (st0 : store num) c' st st' :
  owned st0 c' st -> cont_frame c' st st' -> owned st0 c' st'.
Proof.
  intros ([Heo Hec] & Hnone & P' & HP' & Hit) (Ho & Hoth & Hitems).
  destruct (Hitems P' HP') as (P'' & HP'' & Heq).
  split; [split|split].
  - intros r a Ha. rewrite Ho. by apply Heo.
  - intros c0 P0 H0. rewrite Hoth; [by apply Hec|].
    intros ->. congruence.
  - done.
  - exists P''. split; [done|]. by rewrite Heq.
Qed.

Lemma unpack_frame_owned (st0 : store num) c' st st' :
  owned st0 c' st -> unpack_frame c' st st' -> owned st0 c' st'.
Proof.
  intros ([Heo Hec] & Hnone & P' & HP' & Hit) [Hc Hframe].
  split; [split|split].
  - intros r a Ha. destruct (Hframe r) as [Hsame _]. rewrite Hsame; [by apply Heo|].
    intros (P2 & fl & k & HP2 & _ & _ & Hd). assert (P2 = P') as -> by congruence.
    apply dict_get_Some in Hd.
    pose proof (proj1 (Forall_forall _ _) Hit _ Hd) as Hge. simpl in Hge.
    apply lookup_lt_Some in Ha. lia.
  - intros c0 P0 H0. rewrite Hc. by apply Hec.
  - done.
  - exists P'. by rewrite Hc.
Qed.

End Owned.

Section FitCopy.
Context {num : Type} `{NumOps num} `{NumPy num}.
Implicit Types (st : store num) (c r : loc) (P : PyParameters num).

(** Whatever [fit] does, returning or raising, the store it leaves
    extends the one it found, and a container it returns is owned: it
    did not exist before, nor did the objects of its entries. *)
Lemma fit_owned (leastsq : list num -> solver num) cs (model : Model num)
    st c res st' :
  fit leastsq cs model c st = (res, st') ->
  extends st st' /\ forall c', res = inr c' -> owned st c' st'.
Proof.
  intros Hfit. unfold fit in Hfit.
  apply bind_inv in Hfit as [(e & Hdc & ->)|(c1 & st1 & Hdc & Hfit)];
    apply deepcopy_owned in Hdc as [Hext1 Hown1]; [by split|].
  specialize (Hown1 c1 eq_refl).
  apply bind_inv in Hfit as [(e & Hv & ->)|([] & st2 & Hv & Hfit)];
    apply validate_frame in Hv;
    pose proof (cont_frame_owned _ _ _ _ Hown1 Hv) as Hown2;
    [split; [by eapply owned_extends | done]|].
  apply bind_inv in Hfit as [(e & Hp & ->)|(p0 & st2' & Hp & Hfit)];
    apply pack_store in Hp as ->;
    [split; [by eapply owned_extends | done]|].
  apply bind_inv in Hfit as [(e & Hs & ->)|([p cov] & st3 & Hs & Hfit)];
    pose proof (unpack_frame_owned _ _ _ _ Hown2 (run_solver_frame _ _ _ _ _ _ _ Hs))
      as Hown3;
    [split; [by eapply owned_extends | done]|].
  destruct cov as [cov|].
  - apply bind_inv in Hfit as [(e & Hu & ->)|([] & st4 & Hu & Hfit)];
      pose proof (unpack_frame_owned _ _ _ _ Hown3 (unpack_frame_of_unpack _ _ _ _ _ Hu))
        as Hown4;
      [split; [by eapply owned_extends | done]|].
    injection Hfit as <- <-. split; [by eapply owned_extends|].
    by intros c' [= <-].
  - injection Hfit as <- <-. split; [by eapply owned_extends | done].
Qed.

End FitCopy.

(** ** Well-formedness and validation through [_unpack] *)

Section FramePreserves.
Context {num : Type} `{NumPy num}.
Implicit Types (st : store num) (c r : loc) (P : PyParameters num)
  (T : loc -> Prop).

Lemma wf_frame T st st' c :
  wf st c -> frame_on T st st' -> wf st' c.
Proof.
  intros (P & HP & Hnd & Hall) [Hc Hf]. exists P. rewrite Hc.
  split; [done|]. split; [done|]. intros k r Hin.
  destruct (Hall k r Hin) as (a & Ha & Hn).
  destruct (Hf r) as [_ Hs]. destruct (Hs a Ha) as (a' & Ha' & Hd & _).
  exists a'. split; [done|]. by rewrite Hd.
Qed.

Lemma frame_instances T st st' c P :
  wf st c -> conts st !! c = Some P -> frame_on T st st' ->
  Forall2 same_param (instances st P) (instances st' P).
Proof.
  intros (P' & HP' & _ & Hall) HP [_ Hf]. assert (P' = P) as -> by congruence.
  unfold instances. clear HP HP'.
  induction (items P) as [|[k r] rest IH]; [constructor|].
  destruct (Hall k r) as (a & Ha & _); [by left|].
  destruct (Hf r) as [_ Hs]. destruct (Hs a Ha) as (a' & Ha' & Hd & Hsc).
  simpl. rewrite Ha, Ha'. simpl. constructor; [done|].
  apply IH. intros k' r' Hin. apply Hall. by right.
Qed.

Lemma same_param_filter s (l l' : list (Instance num)) :
  Forall2 same_param l l' ->
  Forall2 same_param (filter (has_scope s) l) (filter (has_scope s) l').
Proof.
  induction 1 as [|a a' l l' [Hd Hs] _ IH]; [constructor|].
  rewrite !filter_cons.
  assert (has_scope s a' <-> has_scope s a) as Hiff
    by (unfold has_scope; by rewrite Hs).
  destruct (decide (has_scope s a)), (decide (has_scope s a'));
    [by constructor | tauto | tauto | done].
Qed.

Lemma same_param_names (l l' : list (Instance num)) :
  Forall2 same_param l l' -> map iname l' = map iname l.
Proof.
  induction 1 as [|a a' l l' [Hd Hs] _ IH]; [done|].
  simpl. unfold iname at 1 3. by rewrite Hd, IH.
Qed.

Lemma validated_frame T st st' c :
  wf st c -> validated st c -> frame_on T st st' -> validated st' c.
Proof.
  intros Hwf (P & HP & Hfl & Hxl) Hf.
  pose proof (frame_instances _ _ _ _ _ Hwf HP Hf) as Hinst.
  exists P. destruct Hf as [Hc _]. rewrite Hc. split; [done|].
  unfold fitted, fixed in *.
  rewrite (same_param_names _ _ (same_param_filter "fitted" _ _ Hinst)).
  by rewrite (same_param_names _ _ (same_param_filter "fixed" _ _ Hinst)).
Qed.

Lemma fitted_length_frame T st st' c P :
  wf st c -> conts st !! c = Some P -> frame_on T st st' ->
  length (fitted st' P) = length (fitted st P).
Proof.
  intros Hwf HP Hf.
  pose proof (frame_instances _ _ _ _ _ Hwf HP Hf) as Hinst.
  symmetry. eapply Forall2_length. by apply same_param_filter.
Qed.

End FramePreserves.

(** ** When [fit] raises *)

Section FitOutcomeExamples.
Import Examples.

(** C7, as stated, fails: a parameter declared without a scope makes
    [validate] raise, so [fit] raises, with a solver that, whenever it is
    run, returns a covariance. *)
Lemma fit_raises_on_invalid_scope :
  ~ fit_raises_iff_no_cov sure_solver line_curves line_model 0 unscoped_store.
Proof.
  intros [Hraise _]. destruct Hraise as (p0 & c' & st2 & p & Hrun).
  - exists (RuntimeError "Invalid scope"). vm_compute. reflexivity.
  - simpl in Hrun. discriminate Hrun.
Qed.

End FitOutcomeExamples.

(** ** The residual function *)

Section Residual.
Context {num : Type} `{NumOps num} `{NumPy num}.
Implicit Types (st : store num) (c : Curve num) (params : loc).

Lemma np_broadcast_same (f : num -> num -> num) (a b : list num) :
  length a = length b -> np_broadcast f a b = inr (zip_with f a b).
Proof. intros Hl. unfold np_broadcast. by rewrite decide_True. Qed.

Lemma weighted_residual_same c (Gm : list num) :
  length Gm = length (G c) -> length (var c) = length (G c) ->
  weighted_residual c Gm = inr (curve_residual c Gm).
Proof.
  intros HG Hv. unfold weighted_residual, curve_residual.
  rewrite np_broadcast_same by done.
  rewrite np_broadcast_same
    by (rewrite length_zip_with_l_eq, length_map; congruence).
  f_equal. apply (zip_with_fmap_r (fun d w => num_div d w)).
Qed.

Lemma compute_error_loop_ok cs params (model : Model num) st1 :
  forall i err (cps : list (gmap string num)) (Gms : list (list num)),
  length cps = length cs -> length Gms = length cs ->
  (forall j c cp Gm,
     cs !! j = Some c -> cps !! j = Some cp -> Gms !! j = Some Gm ->
     fst (_curve_params params (i + j) st1) = inr cp /\
     model cp (lag c) = inr Gm /\
     length Gm = length (G c) /\ length (var c) = length (G c)) ->
  compute_error_loop params model cs i err st1
  = (inr (err ++ concat (zip_with curve_residual cs Gms)), st1).
Proof.
  induction cs as [|c rest IH]; intros i err cps Gms Hlc HlG Hall.
  - destruct Gms; [|done]. simpl. by rewrite app_nil_r.
  - destruct cps as [|cp cps]; [done|]. destruct Gms as [|Gm Gms]; [done|].
    destruct (Hall 0 c cp Gm eq_refl eq_refl eq_refl) as (Hcp & Hm & HG & Hv).
    rewrite Nat.add_0_r in Hcp.
    destruct (_curve_params params i st1) as [res st'] eqn:Hrun.
    apply curve_params_store in Hrun as Hst. subst st'. simpl in Hcp. subst res.
    simpl. rewrite (bind_ok _ _ _ _ _ Hrun). rewrite Hm. simpl.
    unfold bind at 1. simpl.
    rewrite (weighted_residual_same c Gm HG Hv). simpl.
    unfold bind at 1. simpl.
    rewrite (IH (S i) _ cps Gms); [by rewrite <- app_assoc | by injection Hlc
                                  | by injection HlG |].
    intros j c' cp' Gm' Hc' Hcp' HGm'.
    replace (S i + j) with (i + S j) by lia. by apply (Hall (S j)).
Qed.

(** C8: when [_unpack] of the trial vector raises nothing and, for each
    curve [i], [_curve_params(i)] returns a mapping and the model returns
    one value per observed point, the residual function returns as one
    array, curve after curve in the order of the curves, the observed
    values minus the model's values, each divided by the square of the
    variance at that point. *)
Theorem compute_error_residual (p : list num) cs params (model : Model num)
    st st1 (cps : list (gmap string num)) (Gms : list (list num)) :
  _unpack params p st = (inr tt, st1) ->
  length cps = length cs -> length Gms = length cs ->
  (forall i c cp Gm,
     cs !! i = Some c -> cps !! i = Some cp -> Gms !! i = Some Gm ->
     fst (_curve_params params i st1) = inr cp /\
     model cp (lag c) = inr Gm /\
     length Gm = length (G c) /\ length (var c) = length (G c)) ->
  _compute_error p cs params model st
  = (inr (np_array (concat (zip_with curve_residual cs Gms))), st1).
Proof.
  intros Hun Hlc HlG Hall. unfold _compute_error.
  rewrite (bind_ok _ _ _ _ _ Hun).
  erewrite bind_ok; [done|].
  by rewrite (compute_error_loop_ok cs params model st1 0 [] cps Gms).
Qed.

End Residual.

Section ResidualWitness.
Import Examples.

Lemma compute_error_residual_witness :
  _compute_error [3%Z] line_curves 0 line_model line_validated
  = (inr [-1; -2; -3; -4]%Z, snd (_unpack 0 [3%Z] line_validated)).
Proof.
  assert (_unpack 0 [3%Z] line_validated
          = (inr tt, snd (_unpack 0 [3%Z] line_validated))) as Hun
    by (vm_compute; reflexivity).
  refine (compute_error_residual [3%Z] line_curves 0 line_model
            line_validated _ [<["b" := 0%Z]> (<["a" := 3%Z]> ∅)]
            [[3; 6; 9; 12]%Z] Hun eq_refl eq_refl _).
  intros i c cp Gm Hc Hcp HGm. destruct i as [|i]; [|done].
  injection Hc as <-. injection Hcp as <-. injection HGm as <-.
  repeat split; vm_compute; reflexivity.
Defined.

End ResidualWitness.

(** ** The constructor *)

Section Constructor.
Context {num : Type} `{NumPy num}.
Implicit Types (st : store num) (c r : loc) (P : PyParameters num).

Lemma dict_set_keys {V} (d : list (string * V)) k v :
  map fst (dict_set k v d)
  = if decide (k ∈ map fst d) then map fst d else map fst d ++ [k].
Proof.
  induction d as [|[k' v'] rest IH]; cbn [dict_set map fst].
  - by rewrite decide_False by apply not_elem_of_nil.
  - destruct (decide (k = k')) as [->|Hne]; cbn [map fst].
    + by rewrite decide_True by (by left).
    + rewrite IH. destruct (decide (k ∈ map fst rest)) as [Hin|Hnin].
      * by rewrite decide_True by (by right).
      * rewrite decide_False; [done|].
        intros Hc. apply elem_of_cons in Hc as [Hc|Hc]; congruence.
Qed.

Lemma dict_set_NoDup {V} (d : list (string * V)) k v :
  NoDup (map fst d) -> NoDup (map fst (dict_set k v d)).
Proof.
  intros Hnd. rewrite dict_set_keys. case_decide as Hk; [done|].
  apply NoDup_app. split; [done|]. split; [|apply NoDup_singleton].
  intros k' Hin Hk'. apply list_elem_of_singleton in Hk'. by subst.
Qed.

(** The loop of the constructor keeps a well-formed container
    well-formed, raises nothing, and leaves the other objects alone. *)
Lemma init_loop_wf (ps : list (PyParameter num)) c :
  forall st, wf st c ->
  exists st', init_loop c ps st = (inr tt, st') /\ wf st' c /\
    (forall r a, objs st !! r = Some a -> objs st' !! r = Some a) /\
    forall P P', conts st !! c = Some P -> conts st' !! c = Some P' ->
      curves P' = curves P.
Proof.
  induction ps as [|p rest IH]; intros st Hwf.
  - exists st. split; [done|]. split; [done|]. split; [done|].
    intros P P' HP HP'. congruence.
  - destruct Hwf as (P & HP & Hnd & Hall).
    simpl. unfold bind at 1. unfold new_obj at 1.
    set (a := mkInstance p (def_scope p) (def_value p)).
    set (r := length (objs st)).
    assert (conts (mkStore (objs st ++ [a]) (conts st)) !! c = Some P)
      as HP1 by done.
    rewrite (bind_ok _ _ _ _ _ (setitem_ok _ _ _ _ _ HP1)). simpl.
    set (P2 := mkParameters (dict_set (name p) r (items P)) (curves P)
                 (_fitted P) (_fixed P)).
    set (st2 := mkStore (objs st ++ [a]) (<[c := P2]> (conts st))).
    assert (conts st2 !! c = Some P2) as HP2.
    { simpl. apply list_lookup_insert_eq. by eapply lookup_lt_Some. }
    destruct (IH st2) as (st' & Hrun & Hwf' & Hext & Hcurves).
    { exists P2. split; [done|]. split; [by apply dict_set_NoDup|].
      intros k0 r0 Hin. apply dict_set_elem in Hin as [[= -> ->]|Hin].
      - exists a. split; [|done]. subst r. simpl. by rewrite list_lookup_middle.
      - destruct (Hall k0 r0 Hin) as (a0 & Ha0 & Hn0). exists a0.
        split; [|done]. simpl. by apply lookup_app_l_Some. }
    exists st'. split; [done|]. split; [done|]. split.
    + intros r0 a0 H0. apply Hext. simpl. by apply lookup_app_l_Some.
    + intros P0 P' HP0 HP'. assert (P0 = P) as -> by congruence.
      by rewrite (Hcurves P2 P' HP2 HP').
Qed.

Lemma omap_lookup_extends (O O' : list (Instance num)) (refs : list loc) :
  (forall r, r ∈ refs -> is_Some (O !! r)) ->
  (forall r a, O !! r = Some a -> O' !! r = Some a) ->
  omap (fun r => O' !! r) refs = omap (fun r => O !! r) refs.
Proof.
  intros Hres Hext. induction refs as [|r rest IH]; [done|].
  destruct (Hres r) as [a Ha]; [by left|].
  cbn [omap list_omap]. rewrite Ha, (Hext r a Ha). f_equal.
  apply IH. intros r' Hr'. apply Hres. by right.
Qed.

(** With declarations of distinct names, none of them in the container
    yet, the loop of the constructor files one object per declaration
    after those already there, in the order of the declarations. *)
Lemma init_loop_order (ps : list (PyParameter num)) c :
  forall st P, wf st c -> conts st !! c = Some P ->
  NoDup (map fst (items P) ++ map name ps) ->
  exists st' P', init_loop c ps st = (inr tt, st') /\
    conts st' !! c = Some P' /\
    instances st' P' = instances st P ++ map instance_of ps.
Proof.
  induction ps as [|p rest IH]; intros st P Hwf HP Hnd.
  - exists st, P. split; [done|]. split; [done|]. by rewrite app_nil_r.
  - destruct Hwf as (P0 & HP0 & Hndk & Hall). assert (P0 = P) as -> by congruence.
    assert (name p ∉ map fst (items P)) as Hfresh.
    { apply NoDup_app in Hnd as (_ & Hdisj & _). intros Hin.
      apply (Hdisj _ Hin). by left. }
    simpl. unfold bind at 1. unfold new_obj at 1.
    set (r := length (objs st)).
    assert (conts (mkStore (objs st ++ [instance_of p]) (conts st)) !! c = Some P)
      as HP1 by done.
    rewrite (bind_ok _ _ _ _ _ (setitem_ok _ _ _ _ _ HP1)). simpl.
    rewrite dict_set_fresh by done.
    set (P2 := mkParameters (items P ++ [(name p, r)]) (curves P)
                 (_fitted P) (_fixed P)).
    set (st2 := mkStore (objs st ++ [instance_of p]) (<[c := P2]> (conts st))).
    assert (conts st2 !! c = Some P2) as HP2.
    { simpl. apply list_lookup_insert_eq. by eapply lookup_lt_Some. }
    assert (instances st2 P2 = instances st P ++ [instance_of p]) as Hinst.
    { unfold instances. subst P2 st2. simpl. rewrite map_app, omap_app. simpl.
      subst r. rewrite list_lookup_middle by done. simpl. f_equal.
      apply omap_lookup_extends.
      - intros r0 Hr0. apply list_elem_of_fmap in Hr0 as ([k0 r1] & -> & Hin).
        destruct (Hall k0 r1 Hin) as (a0 & Ha0 & _). by eexists.
      - intros r0 a0 H0. by apply lookup_app_l_Some. }
    destruct (IH st2 P2) as (st' & P' & Hrun & HP' & Hinst').
    { exists P2. split; [done|]. split.
      - subst P2. simpl. rewrite map_app. simpl.
        apply NoDup_app. split; [done|]. split; [|apply NoDup_singleton].
        intros k' Hin Hk'. apply list_elem_of_singleton in Hk'. by subst.
      - intros k0 r0 Hin. subst P2. simpl in Hin.
        apply elem_of_app in Hin as [Hin|Hin].
        + destruct (Hall k0 r0 Hin) as (a0 & Ha0 & Hn0). exists a0.
          split; [|done]. simpl. by apply lookup_app_l_Some.
        + apply list_elem_of_singleton in Hin as [= -> ->].
          exists (instance_of p). split; [|done].
          subst r. simpl. by rewrite list_lookup_middle. }
    { done. }
    { subst P2. simpl. rewrite map_app. simpl. by rewrite <- app_assoc. }
    exists st', P'. split; [done|]. split; [done|].
    rewrite Hinst', Hinst. by rewrite <- app_assoc.
Qed.

(** X20: when the declared names are distinct, the parameter objects
    of a new container are those of the model's declarations, in
    declaration order, each with the default scope and value of its
    declaration. *)
Lemma Parameters_init_order (params : list (PyParameter num)) cs st :
  0 < length cs -> NoDup (map name params) ->
  exists st' P,
    Parameters_init params cs st = (inr (length (conts st)), st') /\
    conts st' !! length (conts st) = Some P /\
    instances st' P = map instance_of params.
Proof.
  intros Hcs Hnd. unfold Parameters_init. rewrite decide_True by done.
  unfold bind at 1. unfold new_cont at 1.
  set (P0 := mkParameters [] cs None None).
  set (st0 := mkStore (objs st) (conts st ++ [P0])).
  assert (conts st0 !! length (conts st) = Some P0) as HP0
    by (simpl; by rewrite list_lookup_middle).
  destruct (init_loop_order params (length (conts st)) st0 P0)
    as (st' & P & Hrun & HP & Hinst); [| done | done |].
  { exists P0. split; [done|]. split; [constructor|].
    intros k r Hin. by apply elem_of_nil in Hin. }
  exists st', P. by rewrite (bind_ok _ _ _ _ _ Hrun).
Qed.

(** [Parameters(model, curves)] with at least one curve raises nothing
    and returns a new, well-formed container bound to the curves; what
    was in the store is unchanged. *)
Lemma Parameters_init_wf (params : list (PyParameter num)) cs st :
  0 < length cs ->
  exists st' P,
    Parameters_init params cs st = (inr (length (conts st)), st') /\
    wf st' (length (conts st)) /\
    conts st' !! length (conts st) = Some P /\ curves P = cs /\
    forall r a, objs st !! r = Some a -> objs st' !! r = Some a.
Proof.
  intros Hcs. unfold Parameters_init. rewrite decide_True by done.
  unfold bind at 1. unfold new_cont at 1.
  set (P0 := mkParameters [] cs None None).
  set (st0 := mkStore (objs st) (conts st ++ [P0])).
  assert (conts st0 !! length (conts st) = Some P0) as HP0
    by (simpl; by rewrite list_lookup_middle).
  destruct (init_loop_wf params (length (conts st)) st0)
    as (st' & Hrun & Hwf' & Hext & Hcurves).
  { exists P0. split; [done|]. split; [constructor|].
    intros k r Hin. by apply elem_of_nil in Hin. }
  destruct Hwf' as (P & HP & Hrest).
  exists st', P. rewrite (bind_ok _ _ _ _ _ Hrun).
  split; [done|]. split; [by exists P|]. split; [done|].
  split; [by rewrite (Hcurves P0 P HP0 HP) | done].
Qed.

(** Without a curve the constructor fails its assertion. *)
Lemma Parameters_init_empty (params : list (PyParameter num)) st :
  Parameters_init params [] st = (inl AssertionError, st).
Proof. reflexivity. Qed.

End Constructor.

(** ** [validate]: when it raises, and what it leaves *)

Section ValidateTotal.
Context {num : Type} `{NumPy num}.
Implicit Types (st : store num) (c r : loc) (P : PyParameters num).

Lemma validate_loop_total vals c :
  forall st P fl xl,
  conts st !! c = Some P -> _fitted P = Some fl -> _fixed P = Some xl ->
  (forall r, r ∈ vals -> exists a, objs st !! r = Some a /\ valid_scope a) ->
  exists st', validate_loop c vals st = (inr tt, st').
Proof.
  induction vals as [|r rest IH]; intros st P fl xl HP Hfl Hxl Hall.
  - by exists st.
  - destruct (Hall r) as (a & Ha & Hv); [by left|].
    assert (c < length (conts st)) as Hlt by (by eapply lookup_lt_Some).
    cbn [validate_loop]. rewrite (bind_ok _ _ _ _ _ (get_obj_ok _ _ _ Ha)).
    destruct (decide (scope a = Some "fitted")) as [Hs|Hs].
    + rewrite (bind_ok _ _ _ _ _ (fitted_append_ok _ _ _ _ _ HP Hfl)).
      eapply IH; [simpl; by apply list_lookup_insert_eq | done | done |].
      intros r' Hr'. apply Hall. by right.
    + destruct (decide (scope a = Some "fixed")) as [Hx|Hx];
        [|by destruct Hv].
      rewrite (bind_ok _ _ _ _ _ (fixed_append_ok _ _ _ _ _ HP Hxl)).
      eapply IH; [simpl; by apply list_lookup_insert_eq | done | done |].
      intros r' Hr'. apply Hall. by right.
Qed.

Lemma validate_loop_invalid vals c :
  forall st P fl xl,
  conts st !! c = Some P -> _fitted P = Some fl -> _fixed P = Some xl ->
  (forall r, r ∈ vals -> is_Some (objs st !! r)) ->
  (exists r a, r ∈ vals /\ objs st !! r = Some a /\ ~ valid_scope a) ->
  exists st', validate_loop c vals st = (inl (RuntimeError "Invalid scope"), st').
Proof.
  induction vals as [|r rest IH]; intros st P fl xl HP Hfl Hxl Hres Hbad.
  - destruct Hbad as (r & a & Hr & _). by apply elem_of_nil in Hr.
  - destruct (Hres r) as [a Ha]; [by left|].
    assert (c < length (conts st)) as Hlt by (by eapply lookup_lt_Some).
    assert (forall st1, objs st1 = objs st ->
              (forall r0, r0 ∈ rest -> is_Some (objs st1 !! r0)) /\
              ((exists r0 a0, r0 ∈ (r :: rest) /\ objs st !! r0 = Some a0 /\
                  ~ valid_scope a0) -> valid_scope a ->
               exists r0 a0, r0 ∈ rest /\ objs st1 !! r0 = Some a0 /\
                  ~ valid_scope a0)) as Hnext.
    { intros st1 Ho. rewrite Ho. split.
      - intros r0 Hr0. apply Hres. by right.
      - intros (r0 & a0 & Hr0 & Ha0 & Hn0) Hv.
        apply elem_of_cons in Hr0 as [->|Hr0]; [|by exists r0, a0].
        assert (a0 = a) as -> by congruence. done. }
    cbn [validate_loop]. rewrite (bind_ok _ _ _ _ _ (get_obj_ok _ _ _ Ha)).
    destruct (decide (scope a = Some "fitted")) as [Hs|Hs].
    + rewrite (bind_ok _ _ _ _ _ (fitted_append_ok _ _ _ _ _ HP Hfl)).
      eapply IH; [simpl; by apply list_lookup_insert_eq | done | done | |].
      * by apply Hnext.
      * apply Hnext; [done | done | by left].
    + destruct (decide (scope a = Some "fixed")) as [Hx|Hx]; [|by eexists].
      rewrite (bind_ok _ _ _ _ _ (fixed_append_ok _ _ _ _ _ HP Hxl)).
      eapply IH; [simpl; by apply list_lookup_insert_eq | done | done | |].
      * by apply Hnext.
      * apply Hnext; [done | done | by right].
Qed.

Lemma wf_refs_resolve st c P r :
  wf st c -> conts st !! c = Some P -> r ∈ map snd (items P) ->
  exists a, objs st !! r = Some a /\ a ∈ instances st P.
Proof.
  intros (P' & HP' & _ & Hall) HP Hr. assert (P' = P) as -> by congruence.
  apply list_elem_of_fmap in Hr as ([k r'] & -> & Hin).
  destruct (Hall k r' Hin) as (a & Ha & _). exists a. split; [done|].
  apply elem_of_instances. by exists k, r'.
Qed.

(** The exact store [validate] leaves when every scope is valid. *)
Lemma validate_run st c P :
  wf st c -> conts st !! c = Some P ->
  (forall a, a ∈ instances st P -> valid_scope a) ->
  validate c st
  = (inr tt, mkStore (objs st) (<[c := validated_cont st P]> (conts st))).
Proof.
  intros Hwf HP Hall.
  assert (c < length (conts st)) as Hlt by (by eapply lookup_lt_Some).
  assert (exists st', validate c st = (inr tt, st')) as [st' Hrun].
  { unfold validate. rewrite (bind_ok _ _ _ _ _ (get_cont_ok _ _ _ HP)).
    unfold bind at 1. cbn [set_cont].
    eapply (validate_loop_total _ _ _
              (mkParameters (items P) (curves P) (Some []) (Some [])));
      [simpl; by apply list_lookup_insert_eq | done | done |].
    intros r Hr. simpl.
    destruct (wf_refs_resolve _ _ _ _ Hwf HP Hr) as (a & Ha & Hin).
    exists a. split; [done | by apply Hall]. }
  rewrite Hrun. f_equal.
  destruct (validate_ok _ _ _ Hrun) as (P' & HP' & Ho & _ & Hc).
  assert (P' = P) as -> by congruence.
  destruct st'. simpl in *. by subst.
Qed.

Lemma validate_invalid st c P a :
  wf st c -> conts st !! c = Some P ->
  a ∈ instances st P -> ~ valid_scope a ->
  exists st', validate c st = (inl (RuntimeError "Invalid scope"), st').
Proof.
  intros Hwf HP Ha Hbad.
  assert (c < length (conts st)) as Hlt by (by eapply lookup_lt_Some).
  unfold validate. rewrite (bind_ok _ _ _ _ _ (get_cont_ok _ _ _ HP)).
  unfold bind at 1. cbn [set_cont].
  eapply (validate_loop_invalid _ _ _
            (mkParameters (items P) (curves P) (Some []) (Some [])));
    [simpl; by apply list_lookup_insert_eq | done | done | |].
  - intros r Hr. simpl.
    destruct (wf_refs_resolve _ _ _ _ Hwf HP Hr) as (a0 & Ha0 & _). by eexists.
  - simpl. apply elem_of_instances in Ha as (k & r & Hin & Hr).
    exists r, a. split; [|done]. apply list_elem_of_fmap. by exists (k, r).
Qed.

End ValidateTotal.

Section ValidateProperties.
Context {num : Type} `{NumPy num}.
Implicit Types (st : store num) (c r : loc) (P : PyParameters num).

Lemma names_by_scope st c P s k :
  wf st c -> conts st !! c = Some P ->
  k ∈ map iname (filter (has_scope s) (instances st P)) <->
  exists a, instance_at st c k = Some a /\ scope a = Some s.
Proof.
  intros Hwf HP. unfold instance_at. rewrite HP. split.
  - intros Hk. apply list_elem_of_fmap in Hk as (a & -> & Ha).
    apply list_elem_of_filter in Ha as [Hs Ha].
    destruct (wf_resolve _ _ _ _ Hwf HP Ha) as (r & Hd & Hr).
    exists a. by rewrite Hd.
  - intros (a & Hat & Hs).
    destruct (dict_get k (items P)) as [r|] eqn:Hd; [|done].
    apply dict_get_Some in Hd.
    destruct Hwf as (P' & HP' & _ & Hall). assert (P' = P) as -> by congruence.
    destruct (Hall k r Hd) as (a' & Ha' & Hn).
    assert (a' = a) as -> by congruence.
    apply list_elem_of_fmap. exists a. split; [done|].
    apply list_elem_of_filter. split; [done|].
    apply elem_of_instances. by exists k, r.
Qed.

Lemma partition_by_scope (l : list (Instance num)) :
  Forall valid_scope l ->
  map iname (filter (has_scope "fitted") l)
  ++ map iname (filter (has_scope "fixed") l) ≡ₚ map iname l.
Proof.
  induction 1 as [|a l Hv _ IH]; [done|].
  destruct Hv as [Hs|Hs].
  - rewrite (filter_cons_True (has_scope "fitted")) by done.
    rewrite (filter_cons_False (has_scope "fixed"))
      by (unfold has_scope; congruence).
    simpl. by rewrite IH.
  - rewrite (filter_cons_False (has_scope "fitted"))
      by (unfold has_scope; congruence).
    rewrite (filter_cons_True (has_scope "fixed")) by done.
    simpl. rewrite <- Permutation_middle. by rewrite IH.
Qed.

(** X1: on a container as the constructor builds it, [validate] either
    finds a scope that is neither ['fitted'] nor ['fixed'] and raises
    [RuntimeError('Invalid scope')], the parameter objects untouched, or
    raises nothing and changes only the two lists of the container; no
    other exception comes out of it. *)
Theorem validate_outcome st c P :
  wf st c -> conts st !! c = Some P ->
  if decide (Forall valid_scope (instances st P)) then
    validate c st
    = (inr tt, mkStore (objs st) (<[c := validated_cont st P]> (conts st)))
  else
    exists st', validate c st = (inl (RuntimeError "Invalid scope"), st') /\
      objs st' = objs st.
Proof.
  intros Hwf HP. case_decide as Hall.
  - apply validate_run; [done..|]. by apply Forall_forall.
  - apply not_Forall_Exists in Hall; [|apply _].
    apply Exists_exists in Hall as (a & Ha & Hbad).
    destruct (validate_invalid _ _ _ _ Hwf HP Ha Hbad) as (st' & Hrun).
    exists st'. split; [done|]. by apply validate_frame in Hrun as [? _].
Qed.

(** X2: when every scope is valid, [validate] files every key of the
    container in exactly one of [_fitted] and [_fixed], each list in the
    order of the keys; a key is in [_fitted] exactly when its parameter's
    scope is ['fitted'], and in [_fixed] exactly when it is ['fixed']. *)
Theorem validate_partition st c P :
  wf st c -> conts st !! c = Some P ->
  Forall valid_scope (instances st P) ->
  exists st' fl xl,
    validate c st = (inr tt, st') /\
    conts st' !! c = Some (mkParameters (items P) (curves P) (Some fl) (Some xl)) /\
    fl ++ xl ≡ₚ map fst (items P) /\
    fl `sublist_of` map fst (items P) /\
    xl `sublist_of` map fst (items P) /\
    (forall k, k ∈ fl <->
       exists a, instance_at st c k = Some a /\ scope a = Some "fitted") /\
    (forall k, k ∈ xl <->
       exists a, instance_at st c k = Some a /\ scope a = Some "fixed").
Proof.
  intros Hwf HP Hall.
  assert (c < length (conts st)) as Hlt by (by eapply lookup_lt_Some).
  eexists _, (map iname (fitted st P)), (map iname (fixed st P)).
  split; [apply validate_run; [done..|]; by apply Forall_forall|].
  pose proof (wf_names _ _ _ Hwf HP) as Hn.
  split; [simpl; by apply list_lookup_insert_eq|].
  split; [rewrite <- Hn; by apply partition_by_scope|].
  split; [rewrite <- Hn; apply fmap_sublist, sublist_filter|].
  split; [rewrite <- Hn; apply fmap_sublist, sublist_filter|].
  split; intros k; by apply names_by_scope.
Qed.

(** X3: validating a second time changes nothing: [validate] after a
    successful [validate] raises nothing and leaves the store as it
    is. *)
Theorem validate_idempotent st c st' :
  wf st c -> validate c st = (inr tt, st') ->
  validate c st' = (inr tt, st').
Proof.
  intros Hwf Hrun.
  destruct (validate_ok _ _ _ Hrun) as (P & HP & Ho & Hl & Hc).
  assert (c < length (conts st)) as Hlt by (by eapply lookup_lt_Some).
  destruct (validate_validated _ _ _ Hrun) as (_ & Hwf' & _).
  specialize (Hwf' Hwf).
  assert (conts st' !! c = Some (validated_cont st P)) as HP'.
  { rewrite Hc. by apply list_lookup_insert_eq. }
  assert (instances st' (validated_cont st P) = instances st P) as Hinst
    by (by apply instances_same).
  assert (forall a, a ∈ instances st P -> valid_scope a) as Hall.
  { intros a Ha. destruct (decide (valid_scope a)) as [|Hbad]; [done|].
    destruct (validate_invalid _ _ _ _ Hwf HP Ha Hbad) as (st2 & Hrun2).
    congruence. }
  rewrite (validate_run st' c (validated_cont st P) Hwf' HP')
    by (by rewrite Hinst).
  assert (validated_cont st' (validated_cont st P) = validated_cont st P)
    as ->.
  { unfold validated_cont at 1. unfold fitted, fixed. rewrite Hinst.
    reflexivity. }
  f_equal. destruct st' as [o' c']. simpl in *. subst o' c'. f_equal.
  by rewrite list_insert_insert_eq.
Qed.

End ValidateProperties.

(** ** The store after [_unpack] *)

Section UnpackPost.
Context {num : Type} `{NumPy num}.
Implicit Types (st : store num) (c r : loc) (P : PyParameters num).

Lemma elem_of_fitted_refs st P r :
  r ∈ fitted_refs st P <->
  exists j a, fitted st P !! j = Some a /\
    dict_get (iname a) (items P) = Some r.
Proof.
  unfold fitted_refs. rewrite list_elem_of_omap. split.
  - intros (a & Ha & Hd). apply list_elem_of_lookup_1 in Ha as [j Hj].
    by exists j, a.
  - intros (j & a & Hj & Hd). exists a. split; [|done].
    by eapply list_elem_of_lookup_2.
Qed.

Lemma touched_fitted_refs st c P r :
  validated st c -> conts st !! c = Some P ->
  touched c st r -> r ∈ fitted_refs st P.
Proof.
  intros (P' & HP' & Hfl & _) HP (P2 & fl & k & HP2 & Hfl2 & Hk & Hd).
  assert (P' = P) as -> by congruence. assert (P2 = P) as -> by congruence.
  assert (fl = map iname (fitted st P)) as -> by congruence.
  apply list_elem_of_fmap in Hk as (a & -> & Ha).
  unfold fitted_refs. apply list_elem_of_omap. by exists a.
Qed.

(** What a successful [_unpack] leaves: the [j]-th fitted parameter
    object with element [j] as its value, everything else as it was. *)
Lemma unpack_post st c P (v : list num) st' :
  wf st c -> validated st c -> conts st !! c = Some P ->
  _unpack c v st = (inr tt, st') ->
  conts st' = conts st /\
  length (fitted st P) <= length v /\
  (forall r, r ∉ fitted_refs st P -> objs st' !! r = objs st !! r) /\
  (forall j a, fitted st P !! j = Some a ->
     exists r x, dict_get (iname a) (items P) = Some r /\ v !! j = Some x /\
       objs st' !! r = Some (with_scalar a x)).
Proof.
  intros Hwf Hvd HP Hrun.
  pose proof (unpack_frame_of_unpack _ _ _ _ _ Hrun) as [Hc Hframe].
  assert (length (fitted st P) <= length v) as Hlen.
  { destruct (decide (length (fitted st P) <= length v)) as [|Hn]; [done|].
    destruct (unpack_short st c P v Hwf Hvd HP) as (st2 & Hrun2); [lia|].
    congruence. }
  destruct (unpack_ok st c P v Hwf Hvd HP Hlen) as (st2 & Hrun2 & Hvals).
  assert (st2 = st') as -> by congruence.
  split; [done|]. split; [done|]. split.
  - intros r Hr. destruct (Hframe r) as [Hsame _]. apply Hsame.
    intros Ht. apply Hr. by eapply touched_fitted_refs.
  - intros j a Hj. destruct (Hvals j a Hj) as (r & a' & x & Hd & Ha' & Hx & Hv).
    exists r, x. split; [done|]. split; [done|].
    assert (a ∈ instances st P) as Hin.
    { apply list_elem_of_lookup_2 in Hj. unfold fitted in Hj.
      by apply list_elem_of_filter in Hj as [_ Hj]. }
    destruct (wf_resolve _ _ _ _ Hwf HP Hin) as (r1 & Hd1 & Ha1).
    assert (r1 = r) as -> by congruence.
    destruct (Hframe r) as [_ Hsame].
    destruct (Hsame a Ha1) as (a2 & Ha2 & Hdecl & Hscope).
    assert (a2 = a') as -> by congruence.
    rewrite Ha'. f_equal. unfold with_scalar.
    destruct a'. simpl in *. congruence.
Qed.

(** After a successful [_unpack] the fitted parameter objects are those
    of before, each with its element of the vector as value. *)
Lemma fitted_after_unpack st c P (v : list num) st' :
  wf st c -> validated st c -> conts st !! c = Some P ->
  _unpack c v st = (inr tt, st') ->
  fitted st' P = zip_with with_scalar (fitted st P) v.
Proof.
  intros Hwf Hvd HP Hrun.
  destruct (unpack_post _ _ _ _ _ Hwf Hvd HP Hrun) as (Hc & Hlen & _ & Hvals).
  pose proof (unpack_frame_of_unpack _ _ _ _ _ Hrun) as Hframe.
  pose proof (wf_frame _ _ _ _ Hwf Hframe) as Hwf'.
  assert (conts st' !! c = Some P) as HP' by (by rewrite Hc).
  pose proof (same_param_filter "fitted" _ _
                (frame_instances _ _ _ _ _ Hwf HP Hframe)) as Hsame.
  fold (fitted st P) in Hsame. fold (fitted st' P) in Hsame.
  apply list_eq. intros j. rewrite lookup_zip_with.
  destruct (fitted st P !! j) as [a|] eqn:Hj; simpl.
  - destruct (Forall2_lookup_l _ _ _ _ _ Hsame Hj) as (a' & Hj' & Hd & Hs).
    destruct (Hvals j a Hj) as (r & x & Hdg & Hx & Hobj).
    rewrite Hx, Hj'. simpl. f_equal.
    assert (a' ∈ instances st' P) as Hin'.
    { apply list_elem_of_lookup_2 in Hj'. unfold fitted in Hj'.
      by apply list_elem_of_filter in Hj' as [_ Hj']. }
    destruct (wf_resolve _ _ _ _ Hwf' HP' Hin') as (r' & Hdg' & Hobj').
    assert (iname a' = iname a) as Hn by (unfold iname; by rewrite Hd).
    rewrite Hn in Hdg'. congruence.
  - apply lookup_ge_None. apply lookup_ge_None in Hj.
    by rewrite <- (Forall2_length _ _ _ Hsame).
Qed.

Lemma packed_of_with_scalar (l : list (Instance num)) (v : list num) :
  length l <= length v ->
  packed_of (zip_with with_scalar l v) = take (length l) v.
Proof.
  revert v. induction l as [|a l IH]; intros [|x v] Hlen; simpl in *;
    [done | done | lia |].
  unfold packed_of in *. simpl. f_equal. apply IH. lia.
Qed.

Lemma map_Scalar_inj (l1 l2 : list num) :
  map Scalar l1 = map Scalar l2 -> l1 = l2.
Proof.
  revert l2. induction l1 as [|x l1 IH]; intros [|y l2] Heq; simpl in Heq;
    [done | done | done |].
  injection Heq as -> Heq. f_equal. by apply IH.
Qed.

Lemma values_with_scalar (l : list (Instance num)) (v : list num) :
  length l <= length v ->
  map value (zip_with with_scalar l v) = map Scalar (take (length l) v).
Proof.
  revert v. induction l as [|a l IH]; intros [|x v] Hlen; simpl in *;
    [done | done | lia |].
  f_equal. apply IH. lia.
Qed.

(** [_pack] after a successful [_unpack] returns the array of the
    elements that were read. *)
Lemma pack_after_unpack st c P (v : list num) st' :
  wf st c -> validated st c -> conts st !! c = Some P ->
  _unpack c v st = (inr tt, st') ->
  _pack c st' = (inr (np_array (take (length (fitted st P)) v)), st').
Proof.
  intros Hwf Hvd HP Hrun.
  destruct (unpack_post _ _ _ _ _ Hwf Hvd HP Hrun) as (Hc & Hlen & _).
  pose proof (unpack_frame_of_unpack _ _ _ _ _ Hrun) as Hframe.
  rewrite (pack_ok st' c P);
    [| by eapply wf_frame | by eapply validated_frame | by rewrite Hc].
  rewrite (fitted_after_unpack _ _ _ _ _ Hwf Hvd HP Hrun).
  by rewrite packed_of_with_scalar.
Qed.

(** Two successful calls of [_unpack] in a row leave what the second
    alone leaves. *)
Lemma unpack_twice st c P (v1 v2 : list num) st1 st2 st2' :
  wf st c -> validated st c -> conts st !! c = Some P ->
  _unpack c v1 st = (inr tt, st1) ->
  _unpack c v2 st1 = (inr tt, st2) ->
  _unpack c v2 st = (inr tt, st2') ->
  st2 = st2'.
Proof.
  intros Hwf Hvd HP H1 H2 H2'.
  pose proof (unpack_frame_of_unpack _ _ _ _ _ H1) as Hframe1.
  pose proof (wf_frame _ _ _ _ Hwf Hframe1) as Hwf1.
  pose proof (validated_frame _ _ _ _ Hwf Hvd Hframe1) as Hvd1.
  destruct (unpack_post _ _ _ _ _ Hwf Hvd HP H1) as (Hc1 & Hlen1 & Hun1 & Hv1).
  assert (conts st1 !! c = Some P) as HP1 by (by rewrite Hc1).
  destruct (unpack_post _ _ _ _ _ Hwf1 Hvd1 HP1 H2) as (Hc2 & Hlen2 & Hun2 & Hv2).
  destruct (unpack_post _ _ _ _ _ Hwf Hvd HP H2') as (Hc2' & _ & Hun2' & Hv2').
  pose proof (fitted_after_unpack _ _ _ _ _ Hwf Hvd HP H1) as Hfit1.
  assert (forall r, r ∈ fitted_refs st1 P <-> r ∈ fitted_refs st P) as Hrefs.
  { intros r. rewrite !elem_of_fitted_refs. rewrite Hfit1. split.
    - intros (j & a1 & Hj & Hd).
      apply lookup_zip_with_Some in Hj as (a & x & -> & Ha & Hx).
      by exists j, a.
    - intros (j & a & Hj & Hd).
      destruct (lookup_lt_is_Some_2 v1 j) as [x Hx].
      { apply lookup_lt_Some in Hj. lia. }
      exists j, (with_scalar a x). split; [|done].
      apply lookup_zip_with_Some. by exists a, x. }
  assert (objs st2 = objs st2') as Ho.
  { apply list_eq. intros r.
    destruct (decide (r ∈ fitted_refs st P)) as [Hin|Hnin].
    - apply elem_of_fitted_refs in Hin as (j & a & Hj & Hd).
      destruct (Hv2' j a Hj) as (r' & x2 & Hd' & Hx2 & Hobj').
      assert (r' = r) as -> by congruence.
      destruct (Hv1 j a Hj) as (_ & x1 & _ & Hx1 & _).
      assert (fitted st1 P !! j = Some (with_scalar a x1)) as Hj1.
      { rewrite Hfit1. apply lookup_zip_with_Some. by exists a, x1. }
      destruct (Hv2 j _ Hj1) as (r2 & x2' & Hd2 & Hx2' & Hobj2).
      assert (r2 = r) as -> by (unfold iname in *; simpl in *; congruence).
      assert (x2' = x2) as -> by congruence.
      by rewrite Hobj2, Hobj'.
    - rewrite Hun2 by (by rewrite Hrefs). rewrite Hun1 by done.
      by rewrite Hun2'. }
  destruct st2, st2'. simpl in *. subst. congruence.
Qed.

End UnpackPost.

(** ** [_pack] and [_unpack] together *)

Section PackUnpack.
Context {num : Type} `{NumPy num}.
Implicit Types (st : store num) (c r : loc) (P : PyParameters num).

(** X4: on a validated container, [_unpack] of a vector with at least
    one element per fitted parameter raises nothing, and [_pack] then
    returns the array that [np.array] makes of the elements that were
    read: the first ones of the vector, as many as there are fitted
    parameters, each converted to their common type, whatever the
    values held before. *)
Theorem pack_unpack_roundtrip st c P (v : list num) :
  wf st c -> validated st c -> conts st !! c = Some P ->
  length (fitted st P) <= length v ->
  exists st',
    _unpack c v st = (inr tt, st') /\
    _pack c st' = (inr (np_array (take (length (fitted st P)) v)), st').
Proof.
  intros Hwf Hvd HP Hlen.
  destruct (unpack_ok st c P v Hwf Hvd HP Hlen) as (st' & Hrun & _).
  exists st'. split; [done|]. by eapply pack_after_unpack.
Qed.

(** X17: on a validated container whose fitted parameters all hold
    scalars, [_unpack] of what [_pack] returns raises nothing and gives
    each fitted parameter its own value as [np.array] converted it,
    leaving everything else as it was; the store after it is the store
    before exactly when [np.array] converted none of the values. *)
Theorem unpack_pack_scalars st c P :
  wf st c -> validated st c -> conts st !! c = Some P ->
  (forall a, a ∈ fitted st P -> ~ is_per_curve a) ->
  exists p st',
    _pack c st = (inr p, st) /\
    p = np_array (packed_of (fitted st P)) /\
    _unpack c p st = (inr tt, st') /\
    conts st' = conts st /\
    fitted st' P = zip_with with_scalar (fitted st P) p /\
    (forall r, r ∉ fitted_refs st P -> objs st' !! r = objs st !! r) /\
    (st' = st <-> p = packed_of (fitted st P)).
Proof.
  intros Hwf Hvd HP Hsc.
  set (p := np_array (packed_of (fitted st P))).
  assert (length p = length (fitted st P)) as Hlp
    by (subst p; by rewrite np_array_length, packed_of_scalars_length).
  destruct (unpack_ok st c P p Hwf Hvd HP) as (st' & Hun & _); [lia|].
  destruct (unpack_post _ _ _ _ _ Hwf Hvd HP Hun) as (Hc & _ & Hoth & _).
  pose proof (fitted_after_unpack _ _ _ _ _ Hwf Hvd HP Hun) as Hfit.
  exists p, st'. split; [by apply pack_ok|]. split; [done|].
  split; [done|]. split; [done|]. split; [done|]. split; [done|]. split.
  - intros ->. apply (f_equal (map value)) in Hfit.
    rewrite (packed_of_scalars _ Hsc) in Hfit.
    rewrite values_with_scalar, <- Hlp, firstn_all in Hfit by lia.
    symmetry. by apply map_Scalar_inj.
  - intros Heq. rewrite Heq in Hun.
    rewrite (unpack_own_values _ _ _ Hwf Hvd HP Hsc) in Hun. congruence.
Qed.

(** X5: [_unpack] overwrites: after two calls in a row, each with a
    vector long enough, the store is the one the second call alone
    leaves. *)
Theorem unpack_overwrites st c P (v1 v2 : list num) :
  wf st c -> validated st c -> conts st !! c = Some P ->
  length (fitted st P) <= length v1 ->
  length (fitted st P) <= length v2 ->
  exists st1 st2,
    _unpack c v1 st = (inr tt, st1) /\
    _unpack c v2 st1 = (inr tt, st2) /\
    _unpack c v2 st = (inr tt, st2).
Proof.
  intros Hwf Hvd HP Hl1 Hl2.
  destruct (unpack_ok st c P v1 Hwf Hvd HP Hl1) as (st1 & H1 & _).
  destruct (unpack_ok st c P v2 Hwf Hvd HP Hl2) as (st2' & H2' & _).
  pose proof (unpack_frame_of_unpack _ _ _ _ _ H1) as Hframe1.
  pose proof (wf_frame _ _ _ _ Hwf Hframe1) as Hwf1.
  pose proof (validated_frame _ _ _ _ Hwf Hvd Hframe1) as Hvd1.
  assert (conts st1 !! c = Some P) as HP1 by (destruct Hframe1 as [-> _]; done).
  destruct (unpack_ok st1 c P v2 Hwf1 Hvd1 HP1) as (st2 & H2 & _).
  { by rewrite (fitted_length_frame _ _ _ _ _ Hwf HP Hframe1). }
  exists st1, st2. split; [done|]. split; [done|].
  by rewrite (unpack_twice _ _ _ _ _ _ _ _ Hwf Hvd HP H1 H2 H2').
Qed.

(** The loop of [_unpack] on a vector that ends too early raises after
    having run on the keys for which there was an element. *)
Lemma unpack_loop_prefix ks c n (v : list num) P :
  forall i st,
  conts st !! c = Some P ->
  (forall k, k ∈ ks ->
     exists r, dict_get k (items P) = Some r /\ is_Some (objs st !! r)) ->
  i <= length v -> length v < i + length ks ->
  exists st',
    unpack_loop c n v ks i st = (inl IndexError, st') /\
    unpack_loop c n v (take (length v - i) ks) i st = (inr tt, st').
Proof.
  induction ks as [|k rest IH]; intros i st HP Hres Hi Hlen;
    simpl in Hlen; [lia|].
  destruct (Hres k) as (r & Hd & [a Ha]); [by left|].
  cbn [unpack_loop].
  destruct (v !! i) as [x|] eqn:Hx.
  - apply lookup_lt_Some in Hx as Hlt.
    replace (length v - i) with (S (length v - (i + 1))) by lia.
    cbn [take unpack_loop].
    rewrite !(bind_ok _ _ _ _ _ (getitem_ok _ _ _ _ _ HP Hd)).
    rewrite !(bind_ok _ _ _ _ _ (get_obj_ok _ _ _ Ha)).
    unfold isinstance_list_obj. rewrite Hx.
    rewrite !(bind_ok _ _ _ _ _ (set_value_ok _ _ _ _ Ha)).
    apply IH; [done | | lia | lia].
    intros k' Hk'. destruct (Hres k') as (r' & Hd' & Hs'); [by right|].
    exists r'. split; [done|]. simpl. by apply list_lookup_insert_is_Some.
  - apply lookup_ge_None in Hx.
    replace (length v - i) with 0 by lia. cbn [take unpack_loop].
    rewrite (bind_ok _ _ _ _ _ (getitem_ok _ _ _ _ _ HP Hd)).
    rewrite (bind_ok _ _ _ _ _ (get_obj_ok _ _ _ Ha)).
    unfold isinstance_list_obj.
    by exists st.
Qed.

(** X6: [_unpack] is not all-or-nothing.  With fewer elements than
    fitted parameters it raises [IndexError], and by then the fitted
    parameters for which there was an element hold it; the others are as
    before. *)
Theorem unpack_short_partial st c P (v : list num) :
  wf st c -> validated st c -> conts st !! c = Some P ->
  length v < length (fitted st P) ->
  exists st',
    _unpack c v st = (inl IndexError, st') /\
    conts st' = conts st /\
    forall j a, fitted st P !! j = Some a ->
      exists r, dict_get (iname a) (items P) = Some r /\
        objs st' !! r
        = Some (match v !! j with
                | Some x => with_scalar a x
                | None => a
                end).
Proof.
  intros Hwf Hvd HP Hlen.
  destruct Hvd as (P' & HP' & Hfl & Hxl). assert (P' = P) as -> by congruence.
  set (ks := map iname (fitted st P)).
  assert (forall k, k ∈ ks ->
            exists r, dict_get k (items P) = Some r /\ is_Some (objs st !! r))
    as Hres.
  { intros k Hk.
    destruct (fitted_resolves _ _ _ _ Hwf HP Hk) as (r & a & ? & ? & ?).
    exists r. split; [done | by eexists]. }
  assert (NoDup ks) as Hnd by (by eapply fitted_names_NoDup).
  destruct (unpack_loop_prefix ks c (length (curves P)) v P 0 st HP Hres)
    as (st' & Hfail & Hpre); [lia | subst ks; rewrite length_map; lia |].
  rewrite Nat.sub_0_r in Hpre.
  exists st'. split.
  { unfold _unpack. rewrite (bind_ok _ _ _ _ _ (get_cont_ok _ _ _ HP)).
    by rewrite Hfl. }
  pose proof (unpack_loop_frame _ _ _ _ _ _ _ _ _ HP Hpre) as [Hc Hframe].
  split; [done|].
  destruct (unpack_loop_ok (take (length v) ks) c (length (curves P)) v P 0 st)
    as (st2 & Hrun2 & Hvals); [done | | | | |].
  { eapply sublist_NoDup; [exact Hnd | apply sublist_take]. }
  { intros k Hk. apply Hres. apply elem_of_take in Hk as (i & Hi & _).
    by eapply list_elem_of_lookup_2. }
  { intros k1 k2 r _ _. by eapply wf_inj. }
  { rewrite length_take. lia. }
  assert (st2 = st') as -> by congruence.
  intros j a Hj.
  assert (a ∈ instances st P) as Hin.
  { apply list_elem_of_lookup_2 in Hj. unfold fitted in Hj.
    by apply list_elem_of_filter in Hj as [_ Hj]. }
  destruct (wf_resolve _ _ _ _ Hwf HP Hin) as (r & Hd & Ha).
  exists r. split; [done|].
  assert (ks !! j = Some (iname a)) as Hkj
    by (subst ks; by rewrite list_lookup_fmap, Hj).
  destruct (v !! j) as [x|] eqn:Hx.
  - apply lookup_lt_Some in Hx as Hlt.
    destruct (Hvals j (iname a) r) as (a' & x' & Ha' & Hx' & Hv'); [|done|].
    { by rewrite lookup_take_lt. }
    simpl in Hx'. assert (x' = x) as -> by congruence.
    destruct (Hframe r) as [_ Hsame].
    destruct (Hsame a Ha) as (a2 & Ha2 & Hdecl & Hscope).
    assert (a2 = a') as -> by congruence.
    rewrite Ha'. f_equal. unfold with_scalar. destruct a'. simpl in *. congruence.
  - apply lookup_ge_None in Hx.
    destruct (Hframe r) as [Hun _]. rewrite Hun; [done|].
    intros (k' & Hk' & Hd').
    apply elem_of_take in Hk' as (i & Hi & Hlt).
    assert (k' = iname a) as -> by (by eapply wf_inj).
    pose proof (NoDup_lookup _ _ _ _ Hnd Hi Hkj). lia.
Qed.

End PackUnpack.

(** ** The constructor, [Model.param] and lookups *)

Section ConstructorLookup.
Context {num : Type} `{NumPy num}.
Implicit Types (st : store num) (c r : loc) (P : PyParameters num).

Lemma dict_get_set {V} (d : list (string * V)) k k' v :
  dict_get k (dict_set k' v d)
  = if decide (k = k') then Some v else dict_get k d.
Proof.
  induction d as [|[k0 v0] rest IH]; cbn [dict_set dict_get].
  - done.
  - destruct (decide (k' = k0)) as [->|Hne]; cbn [dict_get].
    + by destruct (decide (k = k0)).
    + rewrite IH. destruct (decide (k = k0)) as [->|?]; [|done].
      by rewrite decide_False by done.
Qed.

Lemma Model_param_app (ps qs : list (PyParameter num)) k :
  Model_param (ps ++ qs) k
  = match Model_param ps k with
    | Some p => Some p
    | None => Model_param qs k
    end.
Proof.
  induction ps as [|p ps IH]; [done|]. simpl. by case_decide.
Qed.

Lemma Model_param_None (ps : list (PyParameter num)) k :
  Model_param ps k = None <-> k ∉ map name ps.
Proof.
  induction ps as [|p ps IH]; simpl.
  - split; [intros _; apply not_elem_of_nil | done].
  - case_decide as Hn.
    + split; [done|]. intros Hk. exfalso. apply Hk. subst. by left.
    + rewrite IH, not_elem_of_cons. split; [by intros ?; split | by intros [_ ?]].
Qed.

Lemma Model_param_Some (ps : list (PyParameter num)) k p :
  Model_param ps k = Some p -> p ∈ ps /\ name p = k.
Proof.
  induction ps as [|q ps IH]; simpl; [done|]. case_decide as Hn.
  - intros [= <-]. split; [by left | done].
  - intros Hp. destruct (IH Hp). split; [by right | done].
Qed.

(** With distinct names the first and the last declaration of a name
    are the same one. *)
Lemma Model_param_reverse (ps : list (PyParameter num)) k :
  NoDup (map name ps) -> Model_param (reverse ps) k = Model_param ps k.
Proof.
  induction ps as [|p ps IH]; intros Hnd; [done|].
  simpl in Hnd. apply NoDup_cons in Hnd as [Hnin Hnd].
  rewrite reverse_cons, Model_param_app, IH by done. simpl.
  case_decide as Hn.
  - subst k. apply Model_param_None in Hnin. by rewrite Hnin.
  - by destruct (Model_param ps k).
Qed.

(** The loop of the constructor, key by key: a key declared in [ps]
    leads to the object of its last declaration, any other key to what
    it led to before; the attributes of the container and the other
    containers are as before. *)
Lemma init_loop_lookup (ps : list (PyParameter num)) c :
  forall st P, wf st c -> conts st !! c = Some P ->
  exists st' P', init_loop c ps st = (inr tt, st') /\
    conts st' !! c = Some P' /\
    _fitted P' = _fitted P /\ _fixed P' = _fixed P /\
    (forall c0, c0 <> c -> conts st' !! c0 = conts st !! c0) /\
    forall k, instance_at st' c k
              = match Model_param (reverse ps) k with
                | Some p => Some (instance_of p)
                | None => instance_at st c k
                end.
Proof.
  induction ps as [|p rest IH]; intros st P Hwf HP.
  - exists st, P. by repeat split.
  - destruct (init_loop_wf [p] c st Hwf) as (st2 & Hrun2 & Hwf2 & _ & _).
    assert (c < length (conts st)) as Hlt by (by eapply lookup_lt_Some).
    set (r := length (objs st)).
    set (P2 := mkParameters (dict_set (name p) r (items P)) (curves P)
                 (_fitted P) (_fixed P)).
    assert (st2 = mkStore (objs st ++ [instance_of p]) (<[c := P2]> (conts st)))
      as Hst2.
    { cbn [init_loop] in Hrun2. unfold bind at 1 in Hrun2.
      unfold new_obj at 1 in Hrun2.
      assert (conts (mkStore (objs st ++ [instance_of p]) (conts st)) !! c
              = Some P) as HP1 by done.
      rewrite (bind_ok _ _ _ _ _ (setitem_ok _ _ _ _ _ HP1)) in Hrun2.
      by injection Hrun2 as <-. }
    assert (conts st2 !! c = Some P2) as HP2.
    { rewrite Hst2. simpl. by apply list_lookup_insert_eq. }
    destruct (IH st2 P2 Hwf2 HP2)
      as (st' & P' & Hrun & HP' & Hfl & Hxl & Hoth & Hlook).
    exists st', P'. split.
    { cbn [init_loop]. unfold bind at 1. unfold new_obj at 1.
      assert (conts (mkStore (objs st ++ [instance_of p]) (conts st)) !! c
              = Some P) as HP1 by done.
      rewrite (bind_ok _ _ _ _ _ (setitem_ok _ _ _ _ _ HP1)).
      rewrite Hst2 in Hrun. exact Hrun. }
    split; [done|]. split; [done|]. split; [done|]. split.
    { intros c0 Hne. rewrite Hoth by done. rewrite Hst2. simpl.
      by apply list_lookup_insert_ne. }
    intros k. rewrite Hlook, reverse_cons, Model_param_app.
    destruct (Model_param (reverse rest) k) as [q|]; [done|]. simpl.
    unfold instance_at. rewrite HP2, HP. subst P2. simpl.
    rewrite dict_get_set. rewrite Hst2. simpl.
    destruct (decide (name p = k)) as [<-|Hne].
    + rewrite decide_True by done. subst r. by rewrite list_lookup_middle.
    + rewrite decide_False by done.
      destruct (dict_get k (items P)) as [r0|] eqn:Hd; [|done].
      destruct Hwf as (P0 & HP0 & _ & Hall). assert (P0 = P) as -> by congruence.
      destruct (Hall k r0 (dict_get_Some _ _ _ Hd)) as (a0 & Ha0 & _).
      rewrite Ha0. by apply lookup_app_l_Some.
Qed.

(** The constructor on a non-empty list of curves, key by key. *)
Lemma Parameters_init_run (params : list (PyParameter num)) cs st :
  0 < length cs ->
  exists st' P,
    Parameters_init params cs st = (inr (length (conts st)), st') /\
    conts st' !! length (conts st) = Some P /\
    _fitted P = None /\ _fixed P = None /\
    (forall c0 P0, conts st !! c0 = Some P0 -> conts st' !! c0 = Some P0) /\
    forall k, instance_at st' (length (conts st)) k
              = instance_of <$> Model_param (reverse params) k.
Proof.
  intros Hcs. unfold Parameters_init. rewrite decide_True by done.
  unfold bind at 1. unfold new_cont at 1.
  set (P0 := mkParameters [] cs None None).
  set (st0 := mkStore (objs st) (conts st ++ [P0])).
  assert (conts st0 !! length (conts st) = Some P0) as HP0
    by (simpl; by rewrite list_lookup_middle).
  destruct (init_loop_lookup params (length (conts st)) st0 P0)
    as (st' & P & Hrun & HP & Hfl & Hxl & Hoth & Hlook); [|done|].
  { exists P0. split; [done|]. split; [constructor|].
    intros k r Hin. by apply elem_of_nil in Hin. }
  exists st', P. rewrite (bind_ok _ _ _ _ _ Hrun).
  split; [done|]. split; [done|]. split; [done|]. split; [done|]. split.
  - intros c0 P1 H1. rewrite Hoth.
    + simpl. by apply lookup_app_l_Some.
    + apply lookup_lt_Some in H1. lia.
  - intros k. rewrite Hlook. destruct (Model_param (reverse params) k); [done|].
    simpl. unfold instance_at. by rewrite HP0.
Qed.

End ConstructorLookup.

Section ConstructorProperties.
Context {num : Type} `{NumPy num}.
Implicit Types (st : store num) (c r : loc) (P : PyParameters num).

(** X7: [Parameters(model, curves)] fails its assertion, with nothing
    changed, exactly when [curves] is empty.  Otherwise it raises
    nothing and returns a container that did not exist before: bound to
    the curves, its keys the names of the objects under them, without
    [_fitted] and [_fixed] yet; every object and container that existed
    is unchanged. *)
Theorem Parameters_init_outcome (params : list (PyParameter num)) cs st :
  if decide (0 < length cs) then
    exists st' P,
      Parameters_init params cs st = (inr (length (conts st)), st') /\
      conts st !! length (conts st) = None /\
      conts st' !! length (conts st) = Some P /\
      wf st' (length (conts st)) /\
      curves P = cs /\ _fitted P = None /\ _fixed P = None /\
      extends st st'
  else Parameters_init params cs st = (inl AssertionError, st).
Proof.
  case_decide as Hcs.
  - destruct (Parameters_init_wf params cs st Hcs)
      as (st' & P & Hrun & Hwf & HP & Hcurves & Hext).
    destruct (Parameters_init_run params cs st Hcs)
      as (st2 & P2 & Hrun2 & HP2 & Hfl & Hxl & Hoth & _).
    assert (st2 = st') as -> by congruence.
    assert (P2 = P) as -> by congruence.
    exists st', P. split; [done|]. split; [by apply lookup_ge_None|].
    by repeat split.
  - unfold Parameters_init. by rewrite decide_False.
Qed.

(** X8: after the constructor, [self[k]] is the object made of the last
    declaration named [k], with the declaration's default scope and
    value; a name that no declaration carries raises [KeyError]. *)
Theorem Parameters_init_getitem (params : list (PyParameter num)) cs st :
  0 < length cs ->
  exists st',
    Parameters_init params cs st = (inr (length (conts st)), st') /\
    forall k,
      match Model_param (reverse params) k with
      | Some p =>
          exists r, getitem (length (conts st)) k st' = (inr r, st') /\
            objs st' !! r = Some (mkInstance p (def_scope p) (def_value p))
      | None => getitem (length (conts st)) k st' = (inl (KeyError k), st')
      end.
Proof.
  intros Hcs.
  destruct (Parameters_init_run params cs st Hcs)
    as (st' & P & Hrun & HP & _ & _ & _ & Hlook).
  destruct (Parameters_init_wf params cs st Hcs)
    as (st2 & P2 & Hrun2 & Hwf & _).
  assert (st2 = st') as -> by congruence.
  exists st'. split; [done|]. intros k. specialize (Hlook k).
  unfold instance_at in Hlook. rewrite HP in Hlook.
  unfold getitem. rewrite (bind_ok _ _ _ _ _ (get_cont_ok _ _ _ HP)).
  destruct (dict_get k (items P)) as [r|] eqn:Hd.
  - destruct Hwf as (P0 & HP0 & _ & Hall). assert (P0 = P) as -> by congruence.
    destruct (Hall k r (dict_get_Some _ _ _ Hd)) as (a & Ha & _).
    rewrite Ha in Hlook.
    destruct (Model_param (reverse params) k) as [p|]; [|done].
    exists r. split; [done|]. simpl in Hlook. by rewrite Ha, Hlook.
  - by destruct (Model_param (reverse params) k).
Qed.

(** X9: [Model.param(name)] never raises: it returns the first
    declaration of that name, and [None] when no declaration has it. *)
Theorem Model_param_first (params : list (PyParameter num)) k :
  match Model_param params k with
  | Some p =>
      exists i, params !! i = Some p /\ name p = k /\
        forall j q, j < i -> params !! j = Some q -> name q <> k
  | None => k ∉ map name params
  end.
Proof.
  induction params as [|q ps IH]; simpl; [apply not_elem_of_nil|].
  case_decide as Hn.
  - exists 0. split; [done|]. split; [done|]. intros j q' Hj. lia.
  - destruct (Model_param ps k) as [p|].
    + destruct IH as (i & Hi & Hp & Hmin). exists (S i).
      split; [done|]. split; [done|]. intros [|j] q' Hj Hq'.
      * by injection Hq' as <-.
      * apply (Hmin j); [lia | done].
    + rewrite not_elem_of_cons. by split.
Qed.

(** X10: when the declared names are distinct, [Model.param(name)] is
    the declaration that the container's object under that name was made
    of, and it is [None] exactly for the names that are no key of the
    container. *)
Theorem Model_param_container (params : list (PyParameter num)) cs st :
  0 < length cs -> NoDup (map name params) ->
  exists st',
    Parameters_init params cs st = (inr (length (conts st)), st') /\
    forall k,
      instance_at st' (length (conts st)) k
      = (fun p => mkInstance p (def_scope p) (def_value p))
          <$> Model_param params k.
Proof.
  intros Hcs Hnd.
  destruct (Parameters_init_run params cs st Hcs)
    as (st' & P & Hrun & _ & _ & _ & _ & Hlook).
  exists st'. split; [done|]. intros k.
  by rewrite Hlook, Model_param_reverse.
Qed.

(** X11: [_pack] and [_unpack] need [validate] first: on a container
    fresh from the constructor each raises [AttributeError] and changes
    nothing. *)
Theorem pack_needs_validate (params : list (PyParameter num)) cs st :
  0 < length cs ->
  exists st',
    Parameters_init params cs st = (inr (length (conts st)), st') /\
    _pack (length (conts st)) st' = (inl (AttributeError "_fitted"), st') /\
    forall v, _unpack (length (conts st)) v st'
              = (inl (AttributeError "_fitted"), st').
Proof.
  intros Hcs.
  destruct (Parameters_init_run params cs st Hcs)
    as (st' & P & Hrun & HP & Hfl & _).
  exists st'. split; [done|]. split.
  - unfold _pack. rewrite (bind_ok _ _ _ _ _ (get_cont_ok _ _ _ HP)).
    by rewrite Hfl.
  - intros v. unfold _unpack.
    rewrite (bind_ok _ _ _ _ _ (get_cont_ok _ _ _ HP)). by rewrite Hfl.
Qed.

End ConstructorProperties.

(** ** More on the driver *)

Section DriverProperties.
Context {num : Type} `{NumOps num} `{NumPy num}.
Implicit Types (st : store num) (c r : loc) (P : PyParameters num).

Lemma copy_of_instances (O : list (Instance num)) st1 its its1 :
  Forall2 (copy_of O st1) its its1 ->
  omap (fun r => objs st1 !! r) (map snd its1)
  = omap (fun r => O !! r) (map snd its).
Proof.
  induction 1 as [|kr kr1 its its1 (_ & Ho & _) _ IH]; [done|].
  cbn [map omap list_omap]. rewrite Ho. by rewrite IH.
Qed.

(** The working copy of [fit], once validated: well-formed, validated,
    with the parameter objects of the input. *)
Lemma fit_working_copy st c P st1 its1 st2 :
  wf st c -> conts st !! c = Some P ->
  conts st1
  = conts st ++ [mkParameters its1 (curves P) (_fitted P) (_fixed P)] ->
  Forall2 (copy_of (objs st) st1) (items P) its1 ->
  validate (length (conts st)) st1 = (inr tt, st2) ->
  exists P2, conts st2 !! length (conts st) = Some P2 /\
    wf st2 (length (conts st)) /\ validated st2 (length (conts st)) /\
    instances st2 P2 = instances st P.
Proof.
  intros Hwf HP Hc1 Hcopy Hv.
  pose proof (deepcopy_wf _ _ _ _ _ Hwf HP Hc1 Hcopy) as Hwf1.
  destruct (validate_validated _ _ _ Hv) as (Hvd2 & Hwf2 & P1 & HP1 & HP2 & Ho2).
  exists (validated_cont st1 P1). split; [done|]. split; [by apply Hwf2|].
  split; [done|].
  assert (P1 = mkParameters its1 (curves P) (_fitted P) (_fixed P)) as ->.
  { rewrite Hc1 in HP1. rewrite list_lookup_middle in HP1 by done.
    by injection HP1 as <-. }
  unfold instances. simpl. rewrite Ho2. by eapply copy_of_instances.
Qed.

(** X12: [fit] starts the solver from the caller's values: the initial
    vector it hands over is the array [_pack] makes of the fitted
    parameters of the input container, whether or not [validate] was ever
    called on that container. *)
Theorem fit_initial_vector (leastsq : list num -> solver num) cs
    (model : Model num) st c P :
  wf st c -> conts st !! c = Some P ->
  fit leastsq cs model c st
  = fit (fun _ => leastsq (np_array (packed_of (fitted st P)))) cs model c st.
Proof.
  intros Hwf HP.
  destruct (deepcopy_ok _ _ _ Hwf HP) as (st1 & its1 & Hdc & _ & Hc1 & Hcopy).
  unfold fit. rewrite !(bind_ok _ _ _ _ _ Hdc).
  destruct (validate (length (conts st)) st1) as [[e|[]] st2] eqn:Hv.
  - by rewrite !(bind_err _ _ _ _ _ Hv).
  - rewrite !(bind_ok _ _ _ _ _ Hv).
    destruct (fit_working_copy _ _ _ _ _ _ Hwf HP Hc1 Hcopy Hv)
      as (P2 & HP2 & Hwf2 & Hvd2 & Hinst).
    pose proof (pack_ok _ _ _ Hwf2 Hvd2 HP2) as Hp.
    rewrite !(bind_ok _ _ _ _ _ Hp).
    unfold fitted. by rewrite Hinst.
Qed.

(** X13: a scope that is neither ['fitted'] nor ['fixed'] makes [fit]
    raise [RuntimeError('Invalid scope')] whatever the solver: the
    solver is not consulted. *)
Theorem fit_invalid_scope (leastsq : list num -> solver num) cs
    (model : Model num) st c P a :
  wf st c -> conts st !! c = Some P ->
  a ∈ instances st P -> ~ valid_scope a ->
  exists st', fit leastsq cs model c st
              = (inl (RuntimeError "Invalid scope"), st').
Proof.
  intros Hwf HP Ha Hbad.
  destruct (deepcopy_ok _ _ _ Hwf HP) as (st1 & its1 & Hdc & _ & Hc1 & Hcopy).
  pose proof (deepcopy_wf _ _ _ _ _ Hwf HP Hc1 Hcopy) as Hwf1.
  assert (conts st1 !! length (conts st)
          = Some (mkParameters its1 (curves P) (_fitted P) (_fixed P))) as HP1
    by (by rewrite Hc1, list_lookup_middle).
  destruct (validate_invalid st1 (length (conts st)) _ a Hwf1 HP1)
    as (st2 & Hv); [|done|].
  { unfold instances. simpl. by rewrite (copy_of_instances _ _ _ _ Hcopy). }
  exists st2. unfold fit. rewrite (bind_ok _ _ _ _ _ Hdc).
  by rewrite (bind_err _ _ _ _ _ Hv).
Qed.

(** X14: the container that [fit] returns is validated, so that [_pack]
    can be called on it at once, and [_pack] then gives back the
    solver's final vector: the array of its first elements, as many as
    there are fitted parameters. *)
Theorem fit_result_packs (leastsq : list num -> solver num) cs
    (model : Model num) st c P c' st' :
  wf st c -> conts st !! c = Some P ->
  fit leastsq cs model c st = (inr c', st') ->
  exists p0 st2 p cov st3,
    run_solver (leastsq p0) (fun x => _compute_error x cs c' model) st2
    = (inr (p, Some cov), st3) /\
    length (fitted st P) <= length p /\
    _pack c' st' = (inr (np_array (take (length (fitted st P)) p)), st').
Proof.
  intros Hwf HP Hfit.
  destruct (deepcopy_ok _ _ _ Hwf HP) as (st1 & its1 & Hdc & _ & Hc1 & Hcopy).
  unfold fit in Hfit. rewrite (bind_ok _ _ _ _ _ Hdc) in Hfit.
  apply bind_inv in Hfit as [(e & _ & [=])|([] & st2 & Hv & Hfit)].
  destruct (fit_working_copy _ _ _ _ _ _ Hwf HP Hc1 Hcopy Hv)
    as (P2 & HP2 & Hwf2 & Hvd2 & Hinst).
  apply bind_inv in Hfit as [(e & _ & [=])|(p0 & st2' & Hpack & Hfit)].
  apply pack_store in Hpack as ->.
  apply bind_inv in Hfit as [(e & _ & [=])|([p cov] & st3 & Hsolve & Hfit)].
  pose proof (run_solver_frame _ _ _ _ _ _ _ Hsolve) as Hframe.
  destruct cov as [cov|]; [|by inversion Hfit].
  apply bind_inv in Hfit as [(e & _ & [=])|([] & st4 & Hun & Hret)].
  injection Hret as <- <-.
  pose proof (wf_frame _ _ _ _ Hwf2 Hframe) as Hwf3.
  pose proof (validated_frame _ _ _ _ Hwf2 Hvd2 Hframe) as Hvd3.
  assert (conts st3 !! length (conts st) = Some P2) as HP3
    by (destruct Hframe as [-> _]; done).
  assert (length (fitted st3 P2) = length (fitted st P)) as Hlen.
  { rewrite (fitted_length_frame _ _ _ _ _ Hwf2 HP2 Hframe).
    unfold fitted. by rewrite Hinst. }
  destruct (unpack_post _ _ _ _ _ Hwf3 Hvd3 HP3 Hun) as (_ & Hle & _).
  exists p0, st2, p, cov, st3. split; [done|]. split; [lia|].
  rewrite <- Hlen. by eapply pack_after_unpack.
Qed.

(** X15: the residual function depends on the trial vector alone, not
    on the evaluations before it: after an evaluation at [p], whether
    the model raised or not, an evaluation at [q] gives the result and
    leaves the store that it would have without the first. *)
Theorem compute_error_history (p q : list num) cs (model : Model num)
    st c P :
  wf st c -> validated st c -> conts st !! c = Some P ->
  length (fitted st P) <= length p ->
  length (fitted st P) <= length q ->
  _compute_error q cs c model (snd (_compute_error p cs c model st))
  = _compute_error q cs c model st.
Proof.
  intros Hwf Hvd HP Hp Hq.
  destruct (unpack_ok st c P p Hwf Hvd HP Hp) as (st1 & H1 & _).
  destruct (unpack_ok st c P q Hwf Hvd HP Hq) as (st2' & H2' & _).
  pose proof (unpack_frame_of_unpack _ _ _ _ _ H1) as Hframe1.
  pose proof (wf_frame _ _ _ _ Hwf Hframe1) as Hwf1.
  pose proof (validated_frame _ _ _ _ Hwf Hvd Hframe1) as Hvd1.
  assert (conts st1 !! c = Some P) as HP1 by (destruct Hframe1 as [-> _]; done).
  destruct (unpack_ok st1 c P q Hwf1 Hvd1 HP1) as (st2 & H2 & _).
  { by rewrite (fitted_length_frame _ _ _ _ _ Hwf HP Hframe1). }
  assert (snd (_compute_error p cs c model st) = st1) as ->.
  { unfold _compute_error. rewrite (bind_ok _ _ _ _ _ H1).
    unfold bind.
    destruct (compute_error_loop c model cs 0 [] st1) as [[e|err] st'] eqn:Hloop;
      by apply compute_error_loop_store in Hloop as ->. }
  unfold _compute_error.
  rewrite (bind_ok _ _ _ _ _ H2), (bind_ok _ _ _ _ _ H2').
  by rewrite (unpack_twice _ _ _ _ _ _ _ _ Hwf Hvd HP H1 H2 H2').
Qed.

End DriverProperties.

(** ** What [fit] returns and what it raises *)

Section FitResult.
Context {num : Type} `{NumOps num} `{NumPy num}.
Implicit Types (st : store num) (c r : loc) (P : PyParameters num).

(** The fixed parameter objects are out of the reach of [_unpack]. *)
Lemma unpack_frame_fixed st st' c P :
  wf st c -> validated st c -> conts st !! c = Some P ->
  unpack_frame c st st' -> fixed st' P = fixed st P.
Proof.
  intros Hwf Hvd HP [Hc Hframe].
  assert (forall k r a, (k, r) ∈ items P -> objs st !! r = Some a ->
            has_scope "fixed" a -> objs st' !! r = Some a) as Hfix.
  { intros k r a Hin Ha Hs. destruct (Hframe r) as [Hsame _].
    rewrite Hsame; [done|]. intros Ht.
    apply (touched_fitted_refs _ _ _ _ Hvd HP) in Ht.
    apply elem_of_fitted_refs in Ht as (j & a2 & Hj & Hd).
    apply list_elem_of_lookup_2 in Hj. unfold fitted in Hj.
    apply list_elem_of_filter in Hj as [Hs2 Hin2].
    destruct (wf_resolve _ _ _ _ Hwf HP Hin2) as (r2 & Hd2 & Ha2).
    assert (r2 = r) as -> by congruence.
    assert (a2 = a) as -> by congruence.
    unfold has_scope in *. congruence. }
  destruct Hwf as (P' & HP' & _ & Hall). assert (P' = P) as -> by congruence.
  unfold fixed, instances.
  assert (forall its, (forall kr, kr ∈ its -> kr ∈ items P) ->
            filter (has_scope "fixed")
              (omap (fun r => objs st' !! r) (map snd its))
            = filter (has_scope "fixed")
                (omap (fun r => objs st !! r) (map snd its))) as Hgen.
  { induction its as [|[k r] its IH]; intros Hsub; [done|].
    destruct (Hall k r) as (a & Ha & _); [apply Hsub; by left|].
    destruct (Hframe r) as [_ Hs]. destruct (Hs a Ha) as (a' & Ha' & Hd & Hsc).
    assert (forall kr, kr ∈ its -> kr ∈ items P) as Hsub'
      by (intros kr Hkr; apply Hsub; by right).
    cbn [map snd omap list_omap]. rewrite Ha, Ha'. rewrite !filter_cons.
    destruct (decide (has_scope "fixed" a)) as [Hf|Hf].
    - assert (a' = a) as ->.
      { pose proof (Hfix k r a (Hsub _ (list_elem_of_here _ _)) Ha Hf).
        congruence. }
      rewrite decide_True by done. f_equal. by apply IH.
    - rewrite decide_False by (unfold has_scope in *; congruence).
      by apply IH. }
  by apply Hgen.
Qed.

(** [fit] up to the call of the solver, when every scope is valid: the
    deep copy and its validation raise nothing, the working copy holds
    the parameter objects of the input under the same keys, and the
    initial vector is the array of the caller's fitted values. *)
Lemma fit_steps st c P :
  wf st c -> conts st !! c = Some P ->
  Forall valid_scope (instances st P) ->
  exists st1 st2 P2,
    deepcopy c st = (inr (length (conts st)), st1) /\
    validate (length (conts st)) st1 = (inr tt, st2) /\
    conts st2 !! length (conts st) = Some P2 /\
    wf st2 (length (conts st)) /\ validated st2 (length (conts st)) /\
    instances st2 P2 = instances st P /\
    _pack (length (conts st)) st2
    = (inr (np_array (packed_of (fitted st P))), st2).
Proof.
  intros Hwf HP Hall.
  destruct (deepcopy_ok _ _ _ Hwf HP) as (st1 & its1 & Hdc & _ & Hc1 & Hcopy).
  pose proof (deepcopy_wf _ _ _ _ _ Hwf HP Hc1 Hcopy) as Hwf1.
  assert (conts st1 !! length (conts st)
          = Some (mkParameters its1 (curves P) (_fitted P) (_fixed P))) as HP1
    by (by rewrite Hc1, list_lookup_middle).
  pose proof (validate_run st1 _ _ Hwf1 HP1) as Hv.
  match type of Hv with ?A -> _ => assert A as Hvalid end.
  { intros a Ha. unfold instances in Ha. simpl in Ha.
    rewrite (copy_of_instances _ _ _ _ Hcopy) in Ha.
    by apply (proj1 (Forall_forall _ _) Hall). }
  specialize (Hv Hvalid).
  destruct (fit_working_copy _ _ _ _ _ _ Hwf HP Hc1 Hcopy Hv)
    as (P2 & HP2 & Hwf2 & Hvd2 & Hinst).
  eexists st1, _, P2. split; [done|]. split; [exact Hv|].
  split; [done|]. split; [done|]. split; [done|]. split; [done|].
  rewrite (pack_ok _ _ _ Hwf2 Hvd2 HP2). unfold fitted. by rewrite Hinst.
Qed.

(** C5: whatever [fit] does, returning or raising, every parameter
    object and every container that existed before the call is unchanged
    after it: all the work is done on a deep copy.  A container that
    [fit] returns did not exist before the call.  When the input is a
    container as the constructor builds it, the returned one has its
    keys and curves, under references that did not exist before to
    parameter objects of the same declarations and scopes, in the same
    order; the solver was started, on a copy that held the caller's
    values, from the array of the caller's fitted values, and the final
    vector [p] it returned (with a covariance) is what the fitted
    parameters of the returned container hold, element [j] in the [j]-th
    of them; the fixed parameter objects are those of the input. *)
Theorem fit_leaves_input (leastsq : list num -> solver num) cs
    (model : Model num) st c res st' :
  fit leastsq cs model c st = (res, st') ->
  extends st st' /\
  forall c', res = inr c' ->
    conts st !! c' = None /\
    forall P, wf st c -> conts st !! c = Some P ->
      exists P' st2 p cov st3,
        conts st' !! c' = Some P' /\
        map fst (items P') = map fst (items P) /\
        curves P' = curves P /\
        Forall (fun kr => length (objs st) <= snd kr) (items P') /\
        Forall2 same_param (instances st P) (instances st' P') /\
        conts st2 !! c' = Some P' /\
        instances st2 P' = instances st P /\
        run_solver (leastsq (np_array (packed_of (fitted st P))))
          (fun x => _compute_error x cs c' model) st2
        = (inr (p, Some cov), st3) /\
        length (fitted st P) <= length p /\
        map value (fitted st' P')
        = map Scalar (take (length (fitted st P)) p) /\
        fixed st' P' = fixed st P.
Proof.
  intros Hfit. destruct (fit_owned _ _ _ _ _ _ _ Hfit) as [Hext Hown].
  split; [done|]. intros c' ->.
  destruct (Hown c' eq_refl) as (_ & Hnone & P' & HP' & Hnew).
  split; [done|]. intros P Hwf HP.
  destruct (deepcopy_ok _ _ _ Hwf HP) as (st1 & its1 & Hdc & _ & Hc1 & Hcopy).
  unfold fit in Hfit. rewrite (bind_ok _ _ _ _ _ Hdc) in Hfit.
  apply bind_inv in Hfit as [(e & _ & [=])|([] & st2 & Hv & Hfit)].
  destruct (fit_working_copy _ _ _ _ _ _ Hwf HP Hc1 Hcopy Hv)
    as (P2 & HP2 & Hwf2 & Hvd2 & Hinst).
  assert (curves P2 = curves P) as Hcurves.
  { destruct (validate_validated _ _ _ Hv) as (_ & _ & P1 & HP1 & HP2' & _).
    rewrite Hc1, list_lookup_middle in HP1 by done. injection HP1 as <-.
    rewrite HP2 in HP2'. by injection HP2' as ->. }
  assert (fitted st2 P2 = fitted st P) as Hfitted
    by (unfold fitted; by rewrite Hinst).
  rewrite (bind_ok _ _ _ _ _ (pack_ok _ _ _ Hwf2 Hvd2 HP2)), Hfitted in Hfit.
  apply bind_inv in Hfit as [(e & _ & [=])|([p cov] & st3 & Hsolve & Hfit)].
  pose proof (run_solver_frame _ _ _ _ _ _ _ Hsolve) as Hframe.
  destruct cov as [cov|]; [|by inversion Hfit].
  apply bind_inv in Hfit as [(e & _ & [=])|([] & st4 & Hun & Hret)].
  injection Hret as <- <-.
  pose proof (wf_frame _ _ _ _ Hwf2 Hframe) as Hwf3.
  pose proof (validated_frame _ _ _ _ Hwf2 Hvd2 Hframe) as Hvd3.
  assert (conts st3 !! length (conts st) = Some P2) as HP3
    by (destruct Hframe as [-> _]; done).
  pose proof (unpack_frame_of_unpack _ _ _ _ _ Hun) as Hframe'.
  assert (conts st4 !! length (conts st) = Some P2) as HP4
    by (destruct Hframe' as [-> _]; done).
  assert (P' = P2) as -> by congruence.
  assert (length (fitted st3 P2) = length (fitted st P)) as Hlen
    by (by rewrite (fitted_length_frame _ _ _ _ _ Hwf2 HP2 Hframe), Hfitted).
  destruct (unpack_post _ _ _ _ _ Hwf3 Hvd3 HP3 Hun) as (_ & Hle & _).
  exists P2, st2, p, cov, st3.
  split; [done|]. split.
  { rewrite <- (wf_names _ _ _ Hwf2 HP2), <- (wf_names _ _ _ Hwf HP).
    by rewrite Hinst. }
  split; [done|]. split; [done|]. split.
  { rewrite <- Hinst.
    eapply Forall2_trans;
      [| by eapply frame_instances | by eapply frame_instances].
    intros a1 a2 a3 [Hd1 Hs1] [Hd2 Hs2]. split; congruence. }
  split; [done|]. split; [done|]. split; [done|]. split; [lia|]. split.
  - rewrite (fitted_after_unpack _ _ _ _ _ Hwf3 Hvd3 HP3 Hun).
    rewrite values_with_scalar by lia. by rewrite Hlen.
  - rewrite (unpack_frame_fixed _ _ _ _ Hwf3 Hvd3 HP3 Hframe').
    rewrite (unpack_frame_fixed _ _ _ _ Hwf2 Hvd2 HP2 Hframe).
    unfold fixed. by rewrite Hinst.
Qed.

(** C7, amended: on a container as the constructor builds it whose
    fitted parameters all hold scalars.  If a scope is neither ['fitted']
    nor ['fixed'], [fit] raises [RuntimeError('Invalid scope')].
    Otherwise the deep copy and its validation raise nothing and the
    solver is run on the copy from the array of the fitted values; then
    an exception of the solver or of the residual function comes out of
    [fit] as it is; a result without covariance makes [fit] raise the
    [RuntimeError] of a failed convergence; with a covariance and a final
    vector at least as long as the initial one, [fit] unpacks that vector
    into the copy and returns the copy; with a covariance and a shorter
    vector, the [IndexError] of [_unpack] comes out. *)
Theorem fit_outcome (leastsq : list num -> solver num) cs (model : Model num)
    st c P :
  wf st c -> conts st !! c = Some P ->
  (forall a, a ∈ fitted st P -> ~ is_per_curve a) ->
  (~ Forall valid_scope (instances st P) ->
   exists st',
     fit leastsq cs model c st = (inl (RuntimeError "Invalid scope"), st')) /\
  (Forall valid_scope (instances st P) ->
   exists st1 st2,
     deepcopy c st = (inr (length (conts st)), st1) /\
     validate (length (conts st)) st1 = (inr tt, st2) /\
     match run_solver (leastsq (np_array (packed_of (fitted st P))))
             (fun x => _compute_error x cs (length (conts st)) model) st2 with
     | (inl e, st3) => fit leastsq cs model c st = (inl e, st3)
     | (inr (p, None), st3) =>
         fit leastsq cs model c st
         = (inl (RuntimeError "Fit failed to converge (flat axis)"), st3)
     | (inr (p, Some _), st3) =>
         if decide (length (np_array (packed_of (fitted st P))) <= length p)
         then
           exists st', _unpack (length (conts st)) p st3 = (inr tt, st') /\
             fit leastsq cs model c st = (inr (length (conts st)), st')
         else
           exists st', fit leastsq cs model c st = (inl IndexError, st')
     end).
Proof.
  intros Hwf HP Hsc. split.
  - intros Hbad. apply not_Forall_Exists in Hbad; [|apply _].
    apply Exists_exists in Hbad as (a & Ha & Hna).
    destruct (deepcopy_ok _ _ _ Hwf HP) as (st1 & its1 & Hdc & _ & Hc1 & Hcopy).
    pose proof (deepcopy_wf _ _ _ _ _ Hwf HP Hc1 Hcopy) as Hwf1.
    assert (conts st1 !! length (conts st)
            = Some (mkParameters its1 (curves P) (_fitted P) (_fixed P))) as HP1
      by (by rewrite Hc1, list_lookup_middle).
    destruct (validate_invalid st1 (length (conts st)) _ a Hwf1 HP1)
      as (st2 & Hv); [|done|].
    { unfold instances. simpl. by rewrite (copy_of_instances _ _ _ _ Hcopy). }
    exists st2. unfold fit. rewrite (bind_ok _ _ _ _ _ Hdc).
    by rewrite (bind_err _ _ _ _ _ Hv).
  - intros Hall.
    destruct (fit_steps _ _ _ Hwf HP Hall)
      as (st1 & st2 & P2 & Hdc & Hv & HP2 & Hwf2 & Hvd2 & Hinst & Hpack).
    exists st1, st2. split; [done|]. split; [done|].
    assert (forall out,
              run_solver (leastsq (np_array (packed_of (fitted st P))))
                (fun x => _compute_error x cs (length (conts st)) model) st2
              = out ->
              fit leastsq cs model c st
              = match out with
                | (inl e, st3) => (inl e, st3)
                | (inr (p, None), st3) =>
                    (inl (RuntimeError "Fit failed to converge (flat axis)"),
                     st3)
                | (inr (p, Some _), st3) =>
                    bind (_unpack (length (conts st)) p)
                      (fun _ => ret (length (conts st))) st3
                end) as Hfit.
    { intros out Hout. unfold fit.
      rewrite (bind_ok _ _ _ _ _ Hdc), (bind_ok _ _ _ _ _ Hv),
        (bind_ok _ _ _ _ _ Hpack).
      unfold bind at 1. rewrite Hout.
      by destruct out as [[e|[p [cov|]]] st3]. }
    destruct (run_solver (leastsq (np_array (packed_of (fitted st P))))
                (fun x => _compute_error x cs (length (conts st)) model) st2)
      as [[e|[p [cov|]]] st3] eqn:Hs;
      [exact (Hfit _ eq_refl) | | exact (Hfit _ eq_refl)].
    pose proof (run_solver_frame _ _ _ _ _ _ _ Hs) as Hframe.
    pose proof (wf_frame _ _ _ _ Hwf2 Hframe) as Hwf3.
    pose proof (validated_frame _ _ _ _ Hwf2 Hvd2 Hframe) as Hvd3.
    assert (conts st3 !! length (conts st) = Some P2) as HP3
      by (destruct Hframe as [-> _]; done).
    assert (length (fitted st3 P2) = length (fitted st P)) as Hlen.
    { rewrite (fitted_length_frame _ _ _ _ _ Hwf2 HP2 Hframe).
      unfold fitted. by rewrite Hinst. }
    rewrite np_array_length, (packed_of_scalars_length _ Hsc).
    rewrite (Hfit _ eq_refl). case_decide as Hle.
    + destruct (unpack_ok st3 _ P2 p Hwf3 Hvd3 HP3) as (st' & Hun & _); [lia|].
      exists st'. split; [done|]. by rewrite (bind_ok _ _ _ _ _ Hun).
    + destruct (unpack_short st3 _ P2 p Hwf3 Hvd3 HP3) as (st' & Hun); [lia|].
      exists st'. by rewrite (bind_err _ _ _ _ _ Hun).
Qed.

End FitResult.

Section ReaderProperties.
Context {num : Type} `{NumPy num}.
Implicit Types (st : store num) (c : loc).

(** X16: [_pack] and [_curve_params] only read: returning or raising,
    each leaves the store exactly as it found it. *)
Theorem readers_leave_store st c curve :
  snd (_pack c st) = st /\ snd (_curve_params c curve st) = st.
Proof.
  split.
  - destruct (_pack c st) as [res st'] eqn:Hrun.
    by apply pack_store in Hrun as ->.
  - destruct (_curve_params c curve st) as [res st'] eqn:Hrun.
    by apply curve_params_store in Hrun as ->.
Qed.

End ReaderProperties.

(** ** The properties on the examples *)

Section ExtraWitnesses.
Import Examples MoreExamples.

Lemma shared_validated_cont : conts shared_validated !! 0 = Some shared_cont.
Proof. reflexivity. Qed.

Lemma shared_validated_wf : wf shared_validated 0.
Proof.
  by apply (proj1 (proj2 (validate_validated 0 shared_store shared_validated
                            eq_refl))), shared_store_wf.
Qed.

Lemma shared_validated_validated : validated shared_validated 0.
Proof.
  apply (proj1 (validate_validated 0 shared_store shared_validated eq_refl)).
Qed.

Lemma line_validated_cont : conts line_validated !! 0 = Some line_cont.
Proof. reflexivity. Qed.

Lemma line_validated_wf : wf line_validated 0.
Proof.
  by apply (proj1 (proj2 (validate_validated 0 line_store line_validated
                            eq_refl))), line_store_wf.
Qed.

Lemma line_validated_validated : validated line_validated 0.
Proof.
  apply (proj1 (validate_validated 0 line_store line_validated eq_refl)).
Qed.

Lemma unscoped_store_wf : wf unscoped_store 0.
Proof.
  eexists. split; [reflexivity|]. split.
  - apply (bool_decide_unpack _). vm_compute. exact I.
  - intros k r Hin. vm_compute in Hin.
    repeat (apply elem_of_cons in Hin as [[= -> ->]|Hin];
            [eexists; split; reflexivity|]).
    by apply elem_of_nil in Hin.
Qed.

Lemma validate_outcome_witness :
  validate 0 shared_store = (inr tt, shared_validated) /\
  exists st', validate 0 unscoped_store
              = (inl (RuntimeError "Invalid scope"), st') /\
    objs st' = objs unscoped_store.
Proof.
  split.
  - exact (validate_outcome shared_store 0 shared_fresh_cont
             shared_store_wf eq_refl).
  - exact (validate_outcome unscoped_store 0 unscoped_cont
             unscoped_store_wf eq_refl).
Defined.

Lemma shared_store_scopes :
  Forall valid_scope (instances shared_store shared_fresh_cont).
Proof. apply (bool_decide_unpack _). vm_compute. exact I. Qed.

Lemma validate_partition_witness :
  exists st' fl xl,
    validate 0 shared_store = (inr tt, st') /\
    conts st' !! 0
    = Some (mkParameters [("c", 0); ("k", 1); ("b", 2)] two_curves
              (Some fl) (Some xl)) /\
    fl ++ xl ≡ₚ ["c"; "k"; "b"] /\
    fl `sublist_of` ["c"; "k"; "b"] /\
    xl `sublist_of` ["c"; "k"; "b"] /\
    (forall k, k ∈ fl <->
       exists a, instance_at shared_store 0 k = Some a /\
         scope a = Some "fitted") /\
    (forall k, k ∈ xl <->
       exists a, instance_at shared_store 0 k = Some a /\
         scope a = Some "fixed").
Proof.
  exact (validate_partition shared_store 0 shared_fresh_cont
           shared_store_wf eq_refl shared_store_scopes).
Defined.

Lemma validate_idempotent_witness :
  validate 0 shared_validated = (inr tt, shared_validated).
Proof.
  exact (validate_idempotent shared_store 0 shared_validated
           shared_store_wf eq_refl).
Defined.

Lemma shared_fitted_length :
  length (fitted shared_validated shared_cont) = 2.
Proof. reflexivity. Qed.

Lemma pack_unpack_roundtrip_witness :
  exists st',
    _unpack 0 [2 ^ 63 + 1; -1; 9]%Z shared_validated = (inr tt, st') /\
    _pack 0 st' = (inr [2 ^ 63; -1]%Z, st').
Proof.
  assert (length (fitted shared_validated shared_cont)
          <= length [2 ^ 63 + 1; -1; 9]%Z) as Hlen
    by (rewrite shared_fitted_length; simpl; lia).
  exact (pack_unpack_roundtrip shared_validated 0 shared_cont
           [2 ^ 63 + 1; -1; 9]%Z
           shared_validated_wf shared_validated_validated eq_refl Hlen).
Defined.

Lemma unpack_overwrites_witness :
  exists st1 st2,
    _unpack 0 [7; 8; 9]%Z shared_validated = (inr tt, st1) /\
    _unpack 0 [4; 5]%Z st1 = (inr tt, st2) /\
    _unpack 0 [4; 5]%Z shared_validated = (inr tt, st2).
Proof.
  apply (unpack_overwrites shared_validated 0 shared_cont
           [7; 8; 9]%Z [4; 5]%Z
           shared_validated_wf shared_validated_validated eq_refl);
    rewrite shared_fitted_length; simpl; lia.
Defined.

Lemma unpack_short_partial_witness :
  exists st',
    _unpack 0 [7%Z] shared_validated = (inl IndexError, st') /\
    conts st' = conts shared_validated /\
    forall j a, fitted shared_validated shared_cont !! j = Some a ->
      exists r, dict_get (iname a) [("c", 0); ("k", 1); ("b", 2)] = Some r /\
        objs st' !! r
        = Some (match [7%Z] !! j with
                | Some x => with_scalar a x
                | None => a
                end).
Proof.
  apply (unpack_short_partial shared_validated 0 shared_cont [7%Z]
           shared_validated_wf shared_validated_validated eq_refl).
  rewrite shared_fitted_length. simpl. lia.
Defined.

Lemma Parameters_init_getitem_witness :
  exists st',
    Parameters_init twice_params line_curves empty_store = (inr 0, st') /\
    forall k,
      match Model_param (reverse twice_params) k with
      | Some p =>
          exists r, getitem 0 k st' = (inr r, st') /\
            objs st' !! r = Some (mkInstance p (def_scope p) (def_value p))
      | None => getitem 0 k st' = (inl (KeyError k), st')
      end.
Proof.
  apply (Parameters_init_getitem twice_params line_curves empty_store).
  simpl. lia.
Defined.

Lemma line_params_NoDup : NoDup (map name line_params).
Proof. apply (bool_decide_unpack _). vm_compute. exact I. Qed.

Lemma Model_param_container_witness :
  exists st',
    Parameters_init line_params line_curves empty_store = (inr 0, st') /\
    forall k,
      instance_at st' 0 k
      = (fun p => mkInstance p (def_scope p) (def_value p))
          <$> Model_param line_params k.
Proof.
  apply (Model_param_container line_params line_curves empty_store);
    [simpl; lia | exact line_params_NoDup].
Defined.

Lemma pack_needs_validate_witness :
  exists st',
    Parameters_init line_params line_curves empty_store = (inr 0, st') /\
    _pack 0 st' = (inl (AttributeError "_fitted"), st') /\
    forall v, _unpack 0 v st' = (inl (AttributeError "_fitted"), st').
Proof.
  apply (pack_needs_validate line_params line_curves empty_store).
  simpl. lia.
Defined.

Lemma fit_initial_vector_witness :
  fit one_step_solver line_curves line_model 0 line_store
  = fit (fun _ => one_step_solver
                    (np_array (packed_of (fitted line_store line_fresh_cont))))
      line_curves line_model 0 line_store.
Proof.
  exact (fit_initial_vector one_step_solver line_curves line_model
           line_store 0 line_fresh_cont line_store_wf eq_refl).
Defined.

Lemma fit_invalid_scope_witness :
  exists st', fit sure_solver line_curves line_model 0 unscoped_store
              = (inl (RuntimeError "Invalid scope"), st').
Proof.
  apply (fit_invalid_scope sure_solver line_curves line_model
           unscoped_store 0 unscoped_cont unscoped_instance
           unscoped_store_wf eq_refl).
  - change (unscoped_instance ∈ [unscoped_instance]). by left.
  - intros [Hs|Hs]; discriminate Hs.
Defined.

Lemma fit_result_packs_witness :
  exists p0 st2 p cov st3,
    run_solver (one_step_solver p0)
      (fun x => _compute_error x line_curves 1 line_model) st2
    = (inr (p, Some cov), st3) /\
    length (fitted line_store line_fresh_cont) <= length p /\
    _pack 1 (snd (fit one_step_solver line_curves line_model 0 line_store))
    = (inr (np_array (take (length (fitted line_store line_fresh_cont)) p)),
       snd (fit one_step_solver line_curves line_model 0 line_store)).
Proof.
  assert (fit one_step_solver line_curves line_model 0 line_store
          = (inr 1,
             snd (fit one_step_solver line_curves line_model 0 line_store)))
    as Hfit by (vm_compute; reflexivity).
  exact (fit_result_packs one_step_solver line_curves line_model
           line_store 0 line_fresh_cont 1 _ line_store_wf eq_refl Hfit).
Defined.

Lemma line_fitted_length : length (fitted line_validated line_cont) = 1.
Proof. reflexivity. Qed.

Lemma compute_error_history_witness :
  _compute_error [5%Z] line_curves 0 line_model
    (snd (_compute_error [3%Z] line_curves 0 line_model line_validated))
  = _compute_error [5%Z] line_curves 0 line_model line_validated.
Proof.
  apply (compute_error_history [3%Z] [5%Z] line_curves line_model
           line_validated 0 line_cont
           line_validated_wf line_validated_validated eq_refl);
    rewrite line_fitted_length; simpl; lia.
Defined.

Lemma wide_store_wf : wf wide_store 0.
Proof.
  eexists. split; [reflexivity|]. split.
  - apply (bool_decide_unpack _). vm_compute. exact I.
  - intros k r Hin. vm_compute in Hin.
    repeat (apply elem_of_cons in Hin as [[= -> ->]|Hin];
            [eexists; split; reflexivity|]).
    by apply elem_of_nil in Hin.
Qed.

Lemma wide_validated_wf : wf wide_validated 0.
Proof.
  by apply (proj1 (proj2 (validate_validated 0 wide_store wide_validated
                            eq_refl))), wide_store_wf.
Qed.

Lemma wide_validated_validated : validated wide_validated 0.
Proof.
  apply (proj1 (validate_validated 0 wide_store wide_validated eq_refl)).
Qed.

Lemma wide_fitted_scalar a :
  a ∈ fitted wide_validated wide_cont -> ~ is_per_curve a.
Proof.
  intros Ha. vm_compute in Ha.
  repeat (apply elem_of_cons in Ha as [->|Ha]; [vm_compute; discriminate|]).
  by apply elem_of_nil in Ha.
Qed.

(** The array of [2**63 + 1] and [-1] is a [float64] array, in which
    the first is [2**63]. *)
Lemma np_array_wide : np_array [2 ^ 63 + 1; -1]%Z = [2 ^ 63; -1]%Z.
Proof. vm_compute. reflexivity. Qed.

Lemma unpack_pack_scalars_witness :
  exists p st',
    _pack 0 wide_validated = (inr p, wide_validated) /\
    p = [2 ^ 63; -1]%Z /\
    _unpack 0 p wide_validated = (inr tt, st') /\
    conts st' = conts wide_validated /\
    fitted st' wide_cont
    = zip_with with_scalar (fitted wide_validated wide_cont) p /\
    (forall r, r ∉ fitted_refs wide_validated wide_cont ->
       objs st' !! r = objs wide_validated !! r) /\
    (st' = wide_validated <-> p = [2 ^ 63 + 1; -1]%Z).
Proof.
  exact (unpack_pack_scalars wide_validated 0 wide_cont
           wide_validated_wf wide_validated_validated eq_refl
           wide_fitted_scalar).
Defined.

Lemma line_store_scopes :
  Forall valid_scope (instances line_store line_fresh_cont).
Proof. apply (bool_decide_unpack _). vm_compute. exact I. Qed.

Lemma line_store_fitted_scalar a :
  a ∈ fitted line_store line_fresh_cont -> ~ is_per_curve a.
Proof.
  intros Ha. vm_compute in Ha.
  repeat (apply elem_of_cons in Ha as [->|Ha]; [vm_compute; discriminate|]).
  by apply elem_of_nil in Ha.
Qed.

Lemma fit_leaves_input_witness :
  extends line_store
    (snd (fit one_step_solver line_curves line_model 0 line_store)) /\
  conts line_store !! 1 = None /\
  exists P' st2 p cov st3,
    conts (snd (fit one_step_solver line_curves line_model 0 line_store)) !! 1
    = Some P' /\
    map fst (items P') = ["a"; "b"] /\
    curves P' = line_curves /\
    Forall (fun kr => 2 <= snd kr) (items P') /\
    Forall2 same_param (instances line_store line_fresh_cont)
      (instances
         (snd (fit one_step_solver line_curves line_model 0 line_store)) P') /\
    conts st2 !! 1 = Some P' /\
    instances st2 P' = instances line_store line_fresh_cont /\
    run_solver (one_step_solver [1%Z])
      (fun x => _compute_error x line_curves 1 line_model) st2
    = (inr (p, Some cov), st3) /\
    1 <= length p /\
    map value
      (fitted (snd (fit one_step_solver line_curves line_model 0 line_store))
         P')
    = map Scalar (take 1 p) /\
    fixed (snd (fit one_step_solver line_curves line_model 0 line_store)) P'
    = fixed line_store line_fresh_cont.
Proof.
  assert (fit one_step_solver line_curves line_model 0 line_store
          = (inr 1,
             snd (fit one_step_solver line_curves line_model 0 line_store)))
    as Hfit by (vm_compute; reflexivity).
  destruct (fit_leaves_input one_step_solver line_curves line_model
              line_store 0 _ _ Hfit) as [Hext Hsucc].
  destruct (Hsucc 1 eq_refl) as [Hnew Hres].
  split; [exact Hext|]. split; [exact Hnew|].
  exact (Hres line_fresh_cont line_store_wf eq_refl).
Defined.

Lemma fit_outcome_witness :
  (exists st',
     _unpack 1 [2%Z] line_solved = (inr tt, st') /\
     fit one_step_solver line_curves line_model 0 line_store = (inr 1, st')) /\
  fit flat_solver line_curves line_model 0 line_store
  = (inl (RuntimeError "Fit failed to converge (flat axis)"), line_flat) /\
  fit raising_solver line_curves line_model 0 line_store
  = (inl (TypeError "Improper input"), line_working) /\
  fst (fit one_step_solver line_curves broken_model 0 line_store)
  = inl (KeyError "tau") /\
  fst (fit short_solver line_curves line_model 0 line_store) = inl IndexError.
Proof.
  assert (forall leastsq model,
            exists st1 st2,
              deepcopy 0 line_store = (inr 1, st1) /\
              validate 1 st1 = (inr tt, st2) /\
              match run_solver (leastsq [1%Z])
                      (fun x => _compute_error x line_curves 1 model) st2 with
              | (inl e, st3) =>
                  fit leastsq line_curves model 0 line_store = (inl e, st3)
              | (inr (p, None), st3) =>
                  fit leastsq line_curves model 0 line_store
                  = (inl (RuntimeError "Fit failed to converge (flat axis)"),
                     st3)
              | (inr (p, Some _), st3) =>
                  if decide (1 <= length p)
                  then
                    exists st', _unpack 1 p st3 = (inr tt, st') /\
                      fit leastsq line_curves model 0 line_store = (inr 1, st')
                  else
                    exists st',
                      fit leastsq line_curves model 0 line_store
                      = (inl IndexError, st')
              end) as Hall.
  { intros leastsq model.
    exact (proj2 (fit_outcome leastsq line_curves model line_store 0
                    line_fresh_cont line_store_wf eq_refl
                    line_store_fitted_scalar) line_store_scopes). }
  assert (forall st1 st2,
            deepcopy 0 line_store = (inr 1, st1) ->
            validate 1 st1 = (inr tt, st2) -> st2 = line_working) as Hwork.
  { intros st1 st2 Hdc Hv. vm_compute in Hdc. injection Hdc as <-.
    vm_compute in Hv. injection Hv as <-. vm_compute. reflexivity. }
  split; [|split; [|split; [|split]]].
  - destruct (Hall one_step_solver line_model) as (st1 & st2 & Hdc & Hv & Hm).
    rewrite (Hwork _ _ Hdc Hv) in Hm. exact Hm.
  - destruct (Hall flat_solver line_model) as (st1 & st2 & Hdc & Hv & Hm).
    rewrite (Hwork _ _ Hdc Hv) in Hm. exact Hm.
  - destruct (Hall raising_solver line_model) as (st1 & st2 & Hdc & Hv & Hm).
    rewrite (Hwork _ _ Hdc Hv) in Hm. exact Hm.
  - destruct (Hall one_step_solver broken_model) as (st1 & st2 & Hdc & Hv & Hm).
    rewrite (Hwork _ _ Hdc Hv) in Hm. simpl in Hm. by rewrite Hm.
  - destruct (Hall short_solver line_model) as (st1 & st2 & Hdc & Hv & Hm).
    rewrite (Hwork _ _ Hdc Hv) in Hm. simpl in Hm. destruct Hm as [st' Hm].
    by rewrite Hm.
Defined.

Lemma line_all_scalar a :
  a ∈ instances line_validated line_cont -> ~ is_per_curve a.
Proof.
  intros Ha. vm_compute in Ha.
  repeat (apply elem_of_cons in Ha as [->|Ha]; [vm_compute; discriminate|]).
  by apply elem_of_nil in Ha.
Qed.

Lemma curve_params_scalars_witness :
  exists m,
    _curve_params 0 7 line_validated = (inr m, line_validated) /\
    forall k, m !! k = scalar_at line_validated line_cont k.
Proof.
  exact (curve_params_scalars line_validated 0 line_cont 7
           line_validated_wf eq_refl line_all_scalar).
Defined.

Lemma curve_params_list_witness :
  _curve_params 0 0 shared_validated
  = (inl (NameError "i"), shared_validated).
Proof.
  apply (curve_params_list shared_validated 0 shared_cont 0
           (mkInstance (mkParameter "c" "offset" (PyList [1; 2]%Z)
                          (Some "fitted"))
              (Some "fitted") (PyList [1; 2]%Z))
           shared_validated_wf eq_refl).
  - vm_compute. by left.
  - reflexivity.
Defined.

Lemma shared_params_NoDup : NoDup (map name shared_params).
Proof. apply (bool_decide_unpack _). vm_compute. exact I. Qed.

Lemma Parameters_init_order_witness :
  exists st' P,
    Parameters_init shared_params two_curves empty_store = (inr 0, st') /\
    conts st' !! 0 = Some P /\
    instances st' P = map instance_of shared_params.
Proof.
  apply (Parameters_init_order shared_params two_curves empty_store);
    [simpl; lia | exact shared_params_NoDup].
Defined.

End ExtraWitnesses.

(** ** The masked maximum of [shrager.py] *)

Section ArgmaxFacts.
Import Shrager.
Context {A : Type} (gt : A -> A -> Prop) `{!RelDecision gt}.
Context `{!Irreflexive gt} `{!Transitive gt} `{!Trichotomy gt}.

Lemma argmax_loop_spec (ip : list A) :
  forall pre mp mi,
  pre !! mi = Some mp ->
  (forall k y, pre !! k = Some y -> ~ gt y mp) ->
  (forall k y, k < mi -> pre !! k = Some y -> gt mp y) ->
  exists x,
    (pre ++ ip) !! argmax_loop gt mp mi (length pre) ip = Some x /\
    (forall k y, (pre ++ ip) !! k = Some y -> ~ gt y x) /\
    (forall k y, k < argmax_loop gt mp mi (length pre) ip ->
       (pre ++ ip) !! k = Some y -> gt x y).
Proof.
  induction ip as [|x rest IH]; intros pre mp mi Hmp Hmax Hfirst.
  - exists mp. rewrite app_nil_r. by repeat split.
  - cbn [argmax_loop].
    replace (pre ++ x :: rest) with ((pre ++ [x]) ++ rest)
      by (by rewrite <- app_assoc).
    replace (S (length pre)) with (length (pre ++ [x]))
      by (rewrite length_app; simpl; lia).
    destruct (decide (gt x mp)) as [Hgt|Hngt].
    + apply (IH (pre ++ [x]) x (length pre)).
      * by rewrite list_lookup_middle.
      * intros k y Hk. apply lookup_app_Some in Hk as [Hk|[_ Hk]].
        -- intros Hyx. apply (Hmax k y Hk). by etrans.
        -- destruct (k - length pre) as [|k']; [|done].
           injection Hk as <-. apply irreflexivity, _.
      * intros k y Hlt Hk.
        rewrite lookup_app_l in Hk by done.
        destruct (trichotomy gt mp y) as [Hc|[<-|Hc]]; [by etrans | done |].
        by destruct (Hmax k y Hk).
    + apply IH.
      * by apply lookup_app_l_Some.
      * intros k y Hk. apply lookup_app_Some in Hk as [Hk|[_ Hk]].
        -- by apply (Hmax k y).
        -- destruct (k - length pre) as [|k']; [|done]. by injection Hk as <-.
      * intros k y Hlt Hk. apply (Hfirst k y Hlt).
        apply lookup_lt_Some in Hmp.
        by rewrite lookup_app_l in Hk by lia.
Qed.

Lemma np_argmax_spec (l : list A) :
  l <> [] ->
  exists j x,
    np_argmax gt l = inr j /\ l !! j = Some x /\
    (forall k y, l !! k = Some y -> ~ gt y x) /\
    (forall k y, k < j -> l !! k = Some y -> gt x y).
Proof.
  destruct l as [|x0 rest]; [done|]. intros _.
  destruct (argmax_loop_spec rest [x0] x0 0) as (x & Hx & Hmax & Hfirst).
  - done.
  - intros [|k] y Hk; [|done]. injection Hk as <-. apply irreflexivity, _.
  - intros k y Hk. lia.
  - exists (argmax_loop gt x0 0 1 rest), x. by repeat split.
Qed.

Lemma argwhere_from_spec (B : Type) (pred : list bool) :
  forall (arr : list B) i0, length arr = length pred ->
  (forall a j, argwhere_from i0 pred !! a = Some j ->
     exists k, j = i0 + k /\ pred !! k = Some true /\
       np_mask arr pred !! a = arr !! k) /\
  (forall k, pred !! k = Some true ->
     exists a, argwhere_from i0 pred !! a = Some (i0 + k)) /\
  (forall a b ja jb, argwhere_from i0 pred !! a = Some ja ->
     argwhere_from i0 pred !! b = Some jb -> a < b -> ja < jb) /\
  (forall a j, argwhere_from i0 pred !! a = Some j -> i0 <= j).
Proof.
  induction pred as [|b pred IH]; intros arr i0 Hlen.
  - repeat split; intros; by rewrite ?lookup_nil in *.
  - destruct arr as [|x arr]; [done|]. injection Hlen as Hlen.
    destruct (IH arr (S i0) Hlen) as (Hsel & Hall & Hmono & Hge).
    destruct b; cbn [argwhere_from np_mask].
    + split; [|split; [|split]].
      * intros [|a] j Hj.
        -- injection Hj as <-. exists 0. by rewrite Nat.add_0_r.
        -- destruct (Hsel a j Hj) as (k & -> & Hk & Hm).
           exists (S k). split; [lia | done].
      * intros [|k] Hk.
        -- exists 0. by rewrite Nat.add_0_r.
        -- destruct (Hall k Hk) as (a & Ha). exists (S a).
           by replace (i0 + S k) with (S i0 + k) by lia.
      * intros [|a] [|b] ja jb Ha Hb Hlt; try lia.
        -- injection Ha as <-. apply Hge in Hb. lia.
        -- apply (Hmono a b); [done | done | lia].
      * intros [|a] j Hj.
        -- injection Hj as <-. lia.
        -- apply Hge in Hj. lia.
    + split; [|split; [|split]].
      * intros a j Hj. destruct (Hsel a j Hj) as (k & -> & Hk & Hm).
        exists (S k). split; [lia | done].
      * intros [|k] Hk; [done|].
        destruct (Hall k Hk) as (a & Ha). exists a.
        by replace (i0 + S k) with (S i0 + k) by lia.
      * done.
      * intros a j Hj. apply Hge in Hj. lia.
Qed.

Lemma mask_argwhere_length (B : Type) (pred : list bool) :
  forall (arr : list B) i0, length arr = length pred ->
  length (argwhere_from i0 pred) = length (np_mask arr pred).
Proof.
  induction pred as [|b pred IH]; intros [|y arr] i0 Hlen; try done.
  injection Hlen as Hlen. destruct b; simpl; by rewrite (IH arr).
Qed.

(** X21: with a mask of the length of the array that selects at least
    one element, [argmax_of] returns one index: a selected position whose
    element no selected element exceeds, and the first such position. *)
Theorem argmax_of_selected (arr : list A) (pred : list bool) i0 :
  length arr = length pred -> pred !! i0 = Some true ->
  exists j x,
    argmax_of gt arr pred = inr [j] /\
    pred !! j = Some true /\ arr !! j = Some x /\
    (forall i y, pred !! i = Some true -> arr !! i = Some y -> ~ gt y x) /\
    (forall i y, i < j -> pred !! i = Some true -> arr !! i = Some y ->
       gt x y).
Proof.
  intros Hlen Hi0.
  destruct (argwhere_from_spec A pred arr 0 Hlen) as (Hsel & Hall & Hmono & _).
  fold (np_argwhere pred) in Hsel, Hall, Hmono.
  destruct (Hall i0 Hi0) as (a0 & Ha0).
  destruct (Hsel a0 _ Ha0) as (k0 & _ & Hp0 & Hm0).
  assert (np_mask arr pred <> []) as Hne.
  { intros Hnil. rewrite Hnil, lookup_nil in Hm0.
    symmetry in Hm0. apply lookup_ge_None in Hm0.
    apply lookup_lt_Some in Hp0. lia. }
  destruct (np_argmax_spec _ Hne) as (idx & x & Hrun & Hx & Hmax & Hfirst).
  destruct (lookup_lt_is_Some_2 (np_argwhere pred) idx) as [j Hj].
  { unfold np_argwhere. rewrite (mask_argwhere_length A pred arr 0 Hlen).
    by eapply lookup_lt_Some. }
  destruct (Hsel idx j Hj) as (k & Hk & Hpk & Hmk). simpl in Hk. subst k.
  exists j, x. split.
  { unfold argmax_of. rewrite decide_True by done. by rewrite Hrun, Hj. }
  split; [done|]. split; [by rewrite <- Hmk|]. split.
  - intros i y Hpi Hy. destruct (Hall i Hpi) as (a & Ha). simpl in Ha.
    destruct (Hsel a i Ha) as (k & Hk & _ & Hm). simpl in Hk. subst k.
    apply (Hmax a). by rewrite Hm.
  - intros i y Hlt Hpi Hy. destruct (Hall i Hpi) as (a & Ha). simpl in Ha.
    destruct (Hsel a i Ha) as (k & Hk & _ & Hm). simpl in Hk. subst k.
    apply (Hfirst a); [|by rewrite Hm].
    destruct (decide (a < idx)) as [|Hge]; [done|].
    destruct (decide (a = idx)) as [->|Hne']; [|].
    + assert (i = j) by congruence. lia.
    + assert (idx < a) as Hlt' by lia.
      pose proof (Hmono idx a j i Hj Ha Hlt'). lia.
Qed.

(** X22: with a mask of the length of the array that selects nothing,
    [argmax_of] raises the [ValueError] of an empty [np.argmax]. *)
Theorem argmax_of_nothing (arr : list A) (pred : list bool) :
  length arr = length pred ->
  (forall i, pred !! i <> Some true) ->
  argmax_of gt arr pred
  = inl (ValueError "attempt to get argmax of an empty sequence").
Proof.
  intros Hlen Hnone. unfold argmax_of. rewrite decide_True by done.
  assert (np_mask arr pred = []) as ->; [|done].
  revert arr Hlen Hnone. induction pred as [|b pred IH];
    intros [|x arr] Hlen Hnone; try done.
  injection Hlen as Hlen. destruct b.
  - by destruct (Hnone 0).
  - simpl. apply IH; [done|]. intros i. apply (Hnone (S i)).
Qed.

End ArgmaxFacts.

Section ArgmaxWitnesses.
Import Shrager Examples MoreExamples.

Lemma Zgt_irreflexive : Irreflexive Zgt.
Proof. intros x. unfold complement, Zgt. lia. Qed.

Lemma Zgt_transitive : Transitive Zgt.
Proof. intros x y z. unfold Zgt. lia. Qed.

Lemma Zgt_trichotomy : Trichotomy Zgt.
Proof. intros x y. unfold Zgt. lia. Qed.

Lemma argmax_of_selected_witness :
  exists j x,
    argmax_of Zgt [3; 9; 9; 1]%Z [true; false; true; true] = inr [j] /\
    [true; false; true; true] !! j = Some true /\
    [3; 9; 9; 1]%Z !! j = Some x /\
    (forall i y, [true; false; true; true] !! i = Some true ->
       [3; 9; 9; 1]%Z !! i = Some y -> ~ Zgt y x) /\
    (forall i y, i < j -> [true; false; true; true] !! i = Some true ->
       [3; 9; 9; 1]%Z !! i = Some y -> Zgt x y).
Proof.
  exact (@argmax_of_selected Z Zgt Zgt_dec Zgt_irreflexive Zgt_transitive
           Zgt_trichotomy [3; 9; 9; 1]%Z [true; false; true; true] 0
           eq_refl eq_refl).
Defined.

Lemma argmax_of_nothing_witness :
  argmax_of Zgt [3; 9]%Z [false; false]
  = inl (ValueError "attempt to get argmax of an empty sequence").
Proof.
  apply (@argmax_of_nothing Z Zgt Zgt_dec [3; 9]%Z [false; false] eq_refl).
  intros [|[|i]]; discriminate.
Defined.

End ArgmaxWitnesses.
